(** * wealth-tracker: the debt payoff simulator and the alert rules engine

    A shallow embedding of [src/lib/calc/payoff.ts], [src/lib/calc/cashflow.ts]
    and [src/lib/rules/index.ts], and the properties of the specification
    proved (or refuted) on it; then of [src/lib/calc/networth.ts] and of the
    part of [getDashboardData] that puts these modules together, with
    further properties of all of them.

    Numbers.  The source computes on JavaScript numbers.  The embedding is
    exact: a finite number is a rational (type [Q]), every operation is the
    mathematical one, rounding error is not modelled.
    - The payoff simulator only adds, subtracts, multiplies, takes minima and
      maxima and divides by the literals 12 and 100, so finite inputs stay
      finite: its numbers are [Q].  Results are kept in lowest terms ([Qred])
      so that the 600-month loops can be run.
    - The cashflow helpers and the rules engine divide by data and name
      [Infinity]: their numbers are [number], rationals extended with the two
      infinities and NaN.
    - The net worth helpers divide by a total only after comparing it
      with 0: their numbers are [Q] again.

    Double precision.  The payoff simulator is embedded a second time, in
    [PayoffDouble], on binary64 floating-point numbers with their rounded
    operations, so that a run of the source can be reproduced digit by
    digit; the threshold of [compareStrategies] is examined there.

    Loops.  A [while] loop of the source is run with fuel and returns [None]
    when the fuel runs out before its guard fails.  The functions of the
    simulator therefore take a [fuel] argument and return an [option]; it is
    proved below that with fuel 600 or more they always return, and return
    the same. *)

From Stdlib Require Import ZArith QArith Qround Qminmax Qabs Lia Lqa.
From Stdlib Require PrimFloat.
From Stdlib Require Import Sorting.Sorted Sorting.Permutation.
From stdpp Require Import base option list strings gmap.

Local Open Scope Z_scope.

(* ===================================================================== *)
(** * Language-level helpers *)
(* ===================================================================== *)

(** ** [while (cond) body], with fuel

    [None] means that the fuel ran out with the guard still true.  The second
    component of the result counts the executions of the body. *)
Fixpoint while {S : Type} (fuel : nat) (cond : S -> bool) (body : S -> S)
    (s : S) : option (S * nat) :=
  match fuel with
  | O => if cond s then None else Some (s, O)
  | Datatypes.S fuel' =>
      if cond s then
        match while fuel' cond body (body s) with
        | Some (s', n) => Some (s', Datatypes.S n)
        | None => None
        end
      else Some (s, O)
  end.

(** ** [Array.prototype.sort(compareFn)]

    The language guarantees a stable sort.  [after a b] stands for
    [compareFn(a, b) > 0]: [a] has to come after [b].  The model is the
    stable insertion sort: an element moves right only past elements it has
    to come after. *)
Fixpoint sort_insert {A : Type} (after : A -> A -> bool) (x : A) (l : list A)
    : list A :=
  match l with
  | [] => [x]
  | y :: l' => if after x y then y :: sort_insert after x l' else x :: y :: l'
  end.

Fixpoint Array_sort {A : Type} (after : A -> A -> bool) (l : list A) : list A :=
  match l with
  | [] => []
  | x :: l' => sort_insert after x (Array_sort after l')
  end.

(** ** Exact arithmetic on finite numbers *)
Module Num.
Local Open Scope Q_scope.

Definition add (a b : Q) : Q := Qred (a + b).
Definition sub (a b : Q) : Q := Qred (a - b).
Definition mul (a b : Q) : Q := Qred (a * b).
Definition div (a b : Q) : Q := Qred (a / b).
Definition min (a b : Q) : Q := Qmin a b.
Definition max (a b : Q) : Q := Qmax a b.

(** [a > b] and [a <= b], as the comparisons of the source. *)
Definition gt (a b : Q) : bool := if Qlt_le_dec b a then true else false.
Definition le (a b : Q) : bool := negb (gt a b).

(** [Math.round(x)]: the nearest integer, halves rounded up. *)
Definition round (x : Q) : Q := inject_Z (Qfloor (x + (1 # 2))).

(** [Math.round(x * 100) / 100] *)
Definition round2 (x : Q) : Q := div (round (mul x 100)) 100.

(** The literal [0.01]. *)
Definition cent : Q := 1 # 100.
End Num.

(* ===================================================================== *)
(** * src/lib/calc/payoff.ts *)
(* ===================================================================== *)

Module Payoff.

Record DebtForPayoff := {
  id : string;
  name : string;
  balance : Q;
  apr : Q;
  minPayment : Q  (* EMI *)
}.

Record PayoffMonth := {
  pm_month : Z;
  pm_balance : Q;
  pm_principal : Q;
  pm_interest : Q;
  pm_payment : Q
}.

Record PayoffDebtResult := {
  debtId : string;
  debtName : string;
  payoffMonth : Z;
  totalPaid : Q;
  totalInterest : Q;
  monthlyBreakdown : list PayoffMonth
}.

(** The strategy tags ["avalanche"] and ["snowball"]. *)
Inductive Strategy := Avalanche | Snowball.

Record PayoffSimulation := {
  strategy : Strategy;
  extraPayment : Q;
  debts : list PayoffDebtResult;
  totalMonths : Z;
  totalInterestPaid : Q;
  monthsSaved : Z;
  interestSaved : Q
}.

(** [calculateMonthlyInterest] *)
Definition calculateMonthlyInterest (balance apr : Q) : Q :=
  let monthlyRate := Num.div apr 12 in
  Num.mul balance monthlyRate.

(** [(a, b) => b.apr - a.apr] is positive. *)
Definition by_apr_desc (a b : DebtForPayoff) : bool :=
  Num.gt (Num.sub (apr b) (apr a)) 0.

(** [(a, b) => a.balance - b.balance] is positive. *)
Definition by_balance_asc (a b : DebtForPayoff) : bool :=
  Num.gt (Num.sub (balance a) (balance b)) 0.

(** [sortForAvalanche]: [[...debts].sort((a, b) => b.apr - a.apr)] *)
Definition sortForAvalanche (debts : list DebtForPayoff) : list DebtForPayoff :=
  Array_sort by_apr_desc debts.

(** [sortForSnowball]: [[...debts].sort((a, b) => a.balance - b.balance)] *)
Definition sortForSnowball (debts : list DebtForPayoff) : list DebtForPayoff :=
  Array_sort by_balance_asc debts.

(** The safety limit [maxMonths = 600]. *)
Definition maxMonths : Z := 600.

(** *** [simulateDebtPayoff] *)

(** The variables of the loop of [simulateDebtPayoff]. *)
Record DebtLoop := {
  dl_balance : Q;
  dl_totalPaid : Q;
  dl_totalInterest : Q;
  dl_month : Z;
  dl_breakdown : list PayoffMonth
}.

(** [balance > 0.01 && month - startMonth < maxMonths] *)
Definition debt_cond (startMonth : Z) (s : DebtLoop) : bool :=
  Num.gt (dl_balance s) Num.cent && (dl_month s - startMonth <? maxMonths).

Definition debt_body (debt : DebtForPayoff) (monthlyPayment : Q) (s : DebtLoop)
    : DebtLoop :=
  let interest := calculateMonthlyInterest (dl_balance s) (apr debt) in
  let payment := Num.min monthlyPayment (Num.add (dl_balance s) interest) in
  let principal := Num.sub payment interest in
  let balance' := Num.max 0 (Num.sub (dl_balance s) principal) in
  {| dl_balance := balance';
     dl_totalPaid := Num.add (dl_totalPaid s) payment;
     dl_totalInterest := Num.add (dl_totalInterest s) interest;
     dl_month := dl_month s + 1;
     dl_breakdown := dl_breakdown s ++
       [{| pm_month := dl_month s;
           pm_balance := Num.round2 balance';
           pm_principal := Num.round2 principal;
           pm_interest := Num.round2 interest;
           pm_payment := Num.round2 payment |}] |}.

Definition debt_init (debt : DebtForPayoff) (startMonth : Z) : DebtLoop :=
  {| dl_balance := balance debt; dl_totalPaid := 0%Q; dl_totalInterest := 0%Q;
     dl_month := startMonth; dl_breakdown := [] |}.

(** The loop of [simulateDebtPayoff], with its final variables and the number
    of months it simulated. *)
Definition debt_loop (fuel : nat) (debt : DebtForPayoff) (monthlyPayment : Q)
    (startMonth : Z) : option (DebtLoop * nat) :=
  while fuel (debt_cond startMonth) (debt_body debt monthlyPayment)
    (debt_init debt startMonth).

Definition simulateDebtPayoff (fuel : nat) (debt : DebtForPayoff)
    (monthlyPayment : Q) (startMonth : Z) : option PayoffDebtResult :=
  '(s, _) ← debt_loop fuel debt monthlyPayment startMonth;
  Some {| debtId := id debt;
          debtName := name debt;
          payoffMonth := dl_month s - 1;
          totalPaid := Num.round2 (dl_totalPaid s);
          totalInterest := Num.round2 (dl_totalInterest s);
          monthlyBreakdown := dl_breakdown s |}.

(** *** The cascading loop of [simulatePayoff] *)

(** An element of [remainingDebts]:
    [{ ...d, currentBalance: d.balance, paid: false }]. *)
Record Remaining := {
  rd_debt : DebtForPayoff;
  currentBalance : Q;
  paid : bool
}.

(** [(d) => !d.paid && d.currentBalance > 0.01], the test of [some] in the
    guard of the month loop and of [find] in its body. *)
Definition unpaid (d : Remaining) : bool :=
  negb (paid d) && Num.gt (currentBalance d) Num.cent.

(** One payment applied by the loop over [remainingDebts]: to which debt,
    whether [totalExtra] was added to it, and the amount after the cap.
    The source does not keep these; the log is a ghost output. *)
Record Payment := {
  pay_id : string;
  pay_extra : bool;
  pay_amount : Q
}.

(** [debt.id === priorityDebt?.id] *)
Definition is_priority (debt : Remaining) (priorityDebt : option Remaining)
    : bool :=
  match priorityDebt with
  | Some p => String.eqb (id (rd_debt debt)) (id (rd_debt p))
  | None => false
  end.

(** [for (const debt of remainingDebts) { ... }].  The objects are updated in
    place: [done] holds the debts already visited this month, as updated,
    [todo] the ones still to visit, so that the array seen by [find] is
    [done ++ todo]. *)
Fixpoint apply_payments (totalExtra : Q) (done todo : list Remaining)
    (totalInterestPaid : Q) (log : list Payment)
    : list Remaining * Q * list Payment :=
  match todo with
  | [] => (done, totalInterestPaid, log)
  | debt :: rest =>
      if paid debt || Num.le (currentBalance debt) Num.cent then
        apply_payments totalExtra (done ++ [debt]) rest totalInterestPaid log
      else
        let interest :=
          calculateMonthlyInterest (currentBalance debt) (apr (rd_debt debt)) in
        let totalInterestPaid := Num.add totalInterestPaid interest in
        let payment := minPayment (rd_debt debt) in
        let priorityDebt := List.find unpaid (done ++ debt :: rest) in
        let extra := is_priority debt priorityDebt in
        let payment := if extra then Num.add payment totalExtra else payment in
        let payment := Num.min payment (Num.add (currentBalance debt) interest) in
        let principal := Num.sub payment interest in
        let cb := Num.max 0 (Num.sub (currentBalance debt) principal) in
        let debt' :=
          if Num.le cb Num.cent
          then {| rd_debt := rd_debt debt; currentBalance := 0%Q; paid := true |}
          else {| rd_debt := rd_debt debt; currentBalance := cb; paid := paid debt |} in
        apply_payments totalExtra (done ++ [debt']) rest totalInterestPaid
          (log ++ [{| pay_id := id (rd_debt debt); pay_extra := extra;
                      pay_amount := payment |}])
  end.

(** The variables of the month loop.  ([totalMinPayment] is computed by the
    source and never read; [availableExtra] is [extraMonthlyPayment] and is
    never assigned again.) *)
Record Cascade := {
  remainingDebts : list Remaining;
  currentMonth : Z;
  cl_totalInterestPaid : Q
}.

(** [remainingDebts.some(...) && currentMonth < maxMonths] *)
Definition cascade_cond (s : Cascade) : bool :=
  existsb unpaid (remainingDebts s) && (currentMonth s <? maxMonths).

(** [remainingDebts.filter((d) => d.paid).reduce((sum, d) => sum + d.minPayment, 0)] *)
Definition freedPayments (rs : list Remaining) : Q :=
  fold_left (fun sum d => Num.add sum (minPayment (rd_debt d)))
    (List.filter paid rs) 0%Q.

(** One simulated month. *)
Definition cascade_body (availableExtra : Q) (s : Cascade) : Cascade :=
  let totalExtra := Num.add availableExtra (freedPayments (remainingDebts s)) in
  let '(rs, tip, _) :=
    apply_payments totalExtra [] (remainingDebts s) (cl_totalInterestPaid s) [] in
  {| remainingDebts := rs;
     currentMonth := currentMonth s + 1;
     cl_totalInterestPaid := tip |}.

Definition sorted_by (strategy : Strategy) (debts : list DebtForPayoff)
    : list DebtForPayoff :=
  match strategy with
  | Avalanche => sortForAvalanche debts
  | Snowball => sortForSnowball debts
  end.

Definition cascade_init (sortedDebts : list DebtForPayoff) : Cascade :=
  {| remainingDebts :=
       map (fun d => {| rd_debt := d; currentBalance := balance d; paid := false |})
         sortedDebts;
     currentMonth := 1;
     cl_totalInterestPaid := 0%Q |}.

(** The month loop of [simulatePayoff] on the debts in strategy order. *)
Definition cascade_loop (fuel : nat) (sortedDebts : list DebtForPayoff)
    (extraMonthlyPayment : Q) : option (Cascade * nat) :=
  while fuel cascade_cond (cascade_body extraMonthlyPayment)
    (cascade_init sortedDebts).

(** *** [simulatePayoffBaseline] *)

Record BaseLoop := {
  bl_balance : Q;
  bl_months : Z;
  bl_totalInterest : Q
}.

(** [balance > 0.01 && months < 600] *)
Definition base_cond (s : BaseLoop) : bool :=
  Num.gt (bl_balance s) Num.cent && (bl_months s <? 600).

Definition base_body (debt : DebtForPayoff) (s : BaseLoop) : BaseLoop :=
  let interest := calculateMonthlyInterest (bl_balance s) (apr debt) in
  let payment := Num.min (minPayment debt) (Num.add (bl_balance s) interest) in
  let principal := Num.sub payment interest in
  {| bl_balance := Num.max 0 (Num.sub (bl_balance s) principal);
     bl_months := bl_months s + 1;
     bl_totalInterest := Num.add (bl_totalInterest s) interest |}.

(** The inner loop of the baseline for one debt. *)
Definition base_loop (fuel : nat) (debt : DebtForPayoff) (totalInterest : Q)
    : option (BaseLoop * nat) :=
  while fuel base_cond (base_body debt)
    {| bl_balance := balance debt; bl_months := 0; bl_totalInterest := totalInterest |}.

(** [for (const debt of debts) { ... }] of the baseline. *)
Fixpoint baseline_debts (fuel : nat) (debts : list DebtForPayoff)
    (totalInterest : Q) (maxMonths : Z) : option (Q * Z) :=
  match debts with
  | [] => Some (totalInterest, maxMonths)
  | debt :: rest =>
      '(s, _) ← base_loop fuel debt totalInterest;
      baseline_debts fuel rest (bl_totalInterest s) (Z.max maxMonths (bl_months s))
  end.

Record Baseline := {
  base_totalMonths : Z;
  base_totalInterestPaid : Q
}.

Definition simulatePayoffBaseline (fuel : nat) (debts : list DebtForPayoff)
    : option Baseline :=
  '(totalInterest, maxMonths) ← baseline_debts fuel debts 0%Q 0;
  Some {| base_totalMonths := maxMonths;
          base_totalInterestPaid := Num.round2 totalInterest |}.

(** *** [simulatePayoff] *)

(** [Math.max(...xs)] on month numbers.  With no argument the source gets
    [-Infinity], which is no month number: [None]. *)
Definition Math_max (xs : list Z) : option Z :=
  match xs with
  | [] => None
  | x :: xs' => Some (fold_left Z.max xs' x)
  end.

(** [sortedDebts[0].id === debt.id] *)
Definition is_first (sortedDebts : list DebtForPayoff) (debt : DebtForPayoff)
    : bool :=
  match sortedDebts with
  | d0 :: _ => String.eqb (id d0) (id debt)
  | [] => false
  end.

(** The isolated replay of one debt: [minPayment], plus the extra payment for
    the debt whose id is that of the first debt in strategy order. *)
Definition replay (fuel : nat) (sortedDebts : list DebtForPayoff)
    (extraMonthlyPayment : Q) (debt : DebtForPayoff) : option PayoffDebtResult :=
  simulateDebtPayoff fuel debt
    (Num.add (minPayment debt)
       (if is_first sortedDebts debt then extraMonthlyPayment else 0%Q))
    1.

Definition simulatePayoff (fuel : nat) (debts : list DebtForPayoff)
    (strategy : Strategy) (extraMonthlyPayment : Q) : option PayoffSimulation :=
  if (length debts =? 0)%nat then
    Some {| strategy := strategy; extraPayment := extraMonthlyPayment;
            debts := []; totalMonths := 0; totalInterestPaid := 0%Q;
            monthsSaved := 0; interestSaved := 0%Q |}
  else
    let sortedDebts := sorted_by strategy debts in
    '(c, _) ← cascade_loop fuel sortedDebts extraMonthlyPayment;
    let totalInterestPaid := cl_totalInterestPaid c in
    results ← mapM (replay fuel sortedDebts extraMonthlyPayment) sortedDebts;
    baselineSimulation ← simulatePayoffBaseline fuel debts;
    lastPayoffMonth ← Math_max (map payoffMonth results);
    let totalMonths := lastPayoffMonth in
    Some {| strategy := strategy;
            extraPayment := extraMonthlyPayment;
            debts := results;
            totalMonths := totalMonths;
            totalInterestPaid := Num.round2 totalInterestPaid;
            monthsSaved :=
              Z.max 0 (base_totalMonths baselineSimulation - totalMonths);
            interestSaved :=
              Num.max 0
                (Num.round2
                   (Num.sub (base_totalInterestPaid baselineSimulation)
                      totalInterestPaid)) |}.

(** *** [compareStrategies] *)

Record Comparison := {
  avalanche : PayoffSimulation;
  snowball : PayoffSimulation;
  recommendation : Strategy;
  interestDifference : Q
}.

Definition compareStrategies (fuel : nat) (debts : list DebtForPayoff)
    (extraMonthlyPayment : Q) : option Comparison :=
  avalanche ← simulatePayoff fuel debts Avalanche extraMonthlyPayment;
  snowball ← simulatePayoff fuel debts Snowball extraMonthlyPayment;
  let interestDifference :=
    Num.sub (totalInterestPaid snowball) (totalInterestPaid avalanche) in
  let recommendation :=
    if Num.gt interestDifference 1000 then Avalanche else Snowball in
  Some {| avalanche := avalanche;
          snowball := snowball;
          recommendation := recommendation;
          interestDifference := Num.round2 interestDifference |}.

(** *** The two orderings on arrays in a store

    In the source a [DebtForPayoff[]] is a reference to a mutable array.
    [[...debts]] allocates a fresh array with the same elements and [sort]
    reorders the array it is called on.  [sortForAvalanche] and
    [sortForSnowball] above are the values these functions compute; here are
    the functions themselves, on a store of arrays ([None]: the argument is
    not an array of the store). *)
Definition spread (σ : gmap positive (list DebtForPayoff)) (a : positive)
    : option (positive * gmap positive (list DebtForPayoff)) :=
  l ← σ !! a;
  let copy := fresh (dom σ) in
  Some (copy, <[copy := l]> σ).

Definition sort_in_place (after : DebtForPayoff -> DebtForPayoff -> bool)
    (σ : gmap positive (list DebtForPayoff)) (a : positive)
    : option (gmap positive (list DebtForPayoff)) :=
  l ← σ !! a;
  Some (<[a := Array_sort after l]> σ).

(** [[...debts].sort(compareFn)] *)
Definition copy_and_sort (after : DebtForPayoff -> DebtForPayoff -> bool)
    (σ : gmap positive (list DebtForPayoff)) (debts : positive)
    : option (positive * gmap positive (list DebtForPayoff)) :=
  '(copy, σ1) ← spread σ debts;
  σ2 ← sort_in_place after σ1 copy;
  Some (copy, σ2).

Definition sortForAvalanche_st (σ : gmap positive (list DebtForPayoff))
    (debts : positive) : option (positive * gmap positive (list DebtForPayoff)) :=
  copy_and_sort by_apr_desc σ debts.

Definition sortForSnowball_st (σ : gmap positive (list DebtForPayoff))
    (debts : positive) : option (positive * gmap positive (list DebtForPayoff)) :=
  copy_and_sort by_balance_asc σ debts.

End Payoff.

(* ===================================================================== *)
(** * src/lib/calc/payoff.ts on double-precision numbers

    The same functions once more, on the numbers of the source: binary64
    floating-point numbers with their rounded operations, so that a run of
    the source can be reproduced digit by digit.  A decimal literal stands
    for the nearest such number, as it does in the source. *)
(* ===================================================================== *)

Module PayoffDouble.
Import PrimFloat.
Local Open Scope float_scope.
#[local] Set Warnings "-inexact-float".

Definition isNaN (x : float) : bool := negb (x =? x).

(** The integer nearest to [x], for [x] of magnitude below 2^52 (a number of
    magnitude 2^52 or more is an integer). *)
Definition nearest_integer (x : float) : float :=
  if abs x <? 4503599627370496 then
    if 0 <=? x then (x + 4503599627370496) - 4503599627370496
    else (x - 4503599627370496) + 4503599627370496
  else x.

(** [Math.floor] *)
Definition Math_floor (x : float) : float :=
  let r := nearest_integer x in
  if x <? r then r - 1 else r.

(** [Math.round]: the nearest integer, a half rounded up; a zero and a
    negative number down to -0.5 keep their sign. *)
Definition Math_round (x : float) : float :=
  if x =? 0 then x
  else if (x <? 0) && (-0.5 <=? x) then - 0
  else
    let f := Math_floor x in
    if 0.5 <=? x - f then f + 1 else f.

(** [Math.min] and [Math.max] of two numbers; -0 counts as less than +0. *)
Definition Math_min (a b : float) : float :=
  if isNaN a || isNaN b then nan
  else if a =? b then (if 1 / a <? 0 then a else b)
  else if a <? b then a else b.

Definition Math_max (a b : float) : float :=
  if isNaN a || isNaN b then nan
  else if a =? b then (if 1 / a <? 0 then b else a)
  else if a <? b then b else a.

(** [Math.round(x * 100) / 100] *)
Definition round2 (x : float) : float := Math_round (x * 100) / 100.

Record DebtForPayoff := {
  id : string;
  name : string;
  balance : float;
  apr : float;
  minPayment : float  (* EMI *)
}.

Record PayoffMonth := {
  pm_month : Z;
  pm_balance : float;
  pm_principal : float;
  pm_interest : float;
  pm_payment : float
}.

Record PayoffDebtResult := {
  debtId : string;
  debtName : string;
  payoffMonth : Z;
  totalPaid : float;
  totalInterest : float;
  monthlyBreakdown : list PayoffMonth
}.

Record PayoffSimulation := {
  strategy : Payoff.Strategy;
  extraPayment : float;
  debts : list PayoffDebtResult;
  totalMonths : Z;
  totalInterestPaid : float;
  monthsSaved : Z;
  interestSaved : float
}.

(** [calculateMonthlyInterest] *)
Definition calculateMonthlyInterest (balance apr : float) : float :=
  let monthlyRate := apr / 12 in
  balance * monthlyRate.

(** [sortForAvalanche] and [sortForSnowball] *)
Definition sortForAvalanche (debts : list DebtForPayoff) : list DebtForPayoff :=
  Array_sort (fun a b => 0 <? apr b - apr a) debts.

Definition sortForSnowball (debts : list DebtForPayoff) : list DebtForPayoff :=
  Array_sort (fun a b => 0 <? balance a - balance b) debts.

(** [simulateDebtPayoff] *)
Record DebtLoop := {
  dl_balance : float;
  dl_totalPaid : float;
  dl_totalInterest : float;
  dl_month : Z;
  dl_breakdown : list PayoffMonth
}.

Definition debt_cond (startMonth : Z) (s : DebtLoop) : bool :=
  (0.01 <? dl_balance s) && (dl_month s - startMonth <? Payoff.maxMonths)%Z.

Definition debt_body (debt : DebtForPayoff) (monthlyPayment : float) (s : DebtLoop)
    : DebtLoop :=
  let interest := calculateMonthlyInterest (dl_balance s) (apr debt) in
  let payment := Math_min monthlyPayment (dl_balance s + interest) in
  let principal := payment - interest in
  let balance' := Math_max 0 (dl_balance s - principal) in
  {| dl_balance := balance';
     dl_totalPaid := dl_totalPaid s + payment;
     dl_totalInterest := dl_totalInterest s + interest;
     dl_month := (dl_month s + 1)%Z;
     dl_breakdown := dl_breakdown s ++
       [{| pm_month := dl_month s;
           pm_balance := round2 balance';
           pm_principal := round2 principal;
           pm_interest := round2 interest;
           pm_payment := round2 payment |}] |}.

Definition debt_init (debt : DebtForPayoff) (startMonth : Z) : DebtLoop :=
  {| dl_balance := balance debt; dl_totalPaid := 0; dl_totalInterest := 0;
     dl_month := startMonth; dl_breakdown := [] |}.

Definition debt_loop (fuel : nat) (debt : DebtForPayoff) (monthlyPayment : float)
    (startMonth : Z) : option (DebtLoop * nat) :=
  while fuel (debt_cond startMonth) (debt_body debt monthlyPayment)
    (debt_init debt startMonth).

Definition simulateDebtPayoff (fuel : nat) (debt : DebtForPayoff)
    (monthlyPayment : float) (startMonth : Z) : option PayoffDebtResult :=
  '(s, _) ← debt_loop fuel debt monthlyPayment startMonth;
  Some {| debtId := id debt;
          debtName := name debt;
          payoffMonth := (dl_month s - 1)%Z;
          totalPaid := round2 (dl_totalPaid s);
          totalInterest := round2 (dl_totalInterest s);
          monthlyBreakdown := dl_breakdown s |}.

(** The cascading loop of [simulatePayoff] *)
Record Remaining := {
  rd_debt : DebtForPayoff;
  currentBalance : float;
  paid : bool
}.

Definition unpaid (d : Remaining) : bool :=
  negb (paid d) && (0.01 <? currentBalance d).

Definition is_priority (debt : Remaining) (priorityDebt : option Remaining)
    : bool :=
  match priorityDebt with
  | Some p => String.eqb (id (rd_debt debt)) (id (rd_debt p))
  | None => false
  end.

Fixpoint apply_payments (totalExtra : float) (done todo : list Remaining)
    (totalInterestPaid : float) : list Remaining * float :=
  match todo with
  | [] => (done, totalInterestPaid)
  | debt :: rest =>
      if paid debt || (currentBalance debt <=? 0.01) then
        apply_payments totalExtra (done ++ [debt]) rest totalInterestPaid
      else
        let interest :=
          calculateMonthlyInterest (currentBalance debt) (apr (rd_debt debt)) in
        let totalInterestPaid := totalInterestPaid + interest in
        let payment := minPayment (rd_debt debt) in
        let priorityDebt := List.find unpaid (done ++ debt :: rest) in
        let payment :=
          if is_priority debt priorityDebt then payment + totalExtra else payment in
        let payment := Math_min payment (currentBalance debt + interest) in
        let principal := payment - interest in
        let cb := Math_max 0 (currentBalance debt - principal) in
        let debt' :=
          if cb <=? 0.01
          then {| rd_debt := rd_debt debt; currentBalance := 0; paid := true |}
          else {| rd_debt := rd_debt debt; currentBalance := cb; paid := paid debt |} in
        apply_payments totalExtra (done ++ [debt']) rest totalInterestPaid
  end.

Record Cascade := {
  remainingDebts : list Remaining;
  currentMonth : Z;
  cl_totalInterestPaid : float
}.

Definition cascade_cond (s : Cascade) : bool :=
  existsb unpaid (remainingDebts s) && (currentMonth s <? Payoff.maxMonths)%Z.

Definition freedPayments (rs : list Remaining) : float :=
  fold_left (fun sum d => sum + minPayment (rd_debt d)) (List.filter paid rs) 0.

Definition cascade_body (availableExtra : float) (s : Cascade) : Cascade :=
  let totalExtra := availableExtra + freedPayments (remainingDebts s) in
  let '(rs, tip) :=
    apply_payments totalExtra [] (remainingDebts s) (cl_totalInterestPaid s) in
  {| remainingDebts := rs;
     currentMonth := (currentMonth s + 1)%Z;
     cl_totalInterestPaid := tip |}.

Definition sorted_by (strategy : Payoff.Strategy) (debts : list DebtForPayoff)
    : list DebtForPayoff :=
  match strategy with
  | Payoff.Avalanche => sortForAvalanche debts
  | Payoff.Snowball => sortForSnowball debts
  end.

Definition cascade_init (sortedDebts : list DebtForPayoff) : Cascade :=
  {| remainingDebts :=
       map (fun d => {| rd_debt := d; currentBalance := balance d; paid := false |})
         sortedDebts;
     currentMonth := 1;
     cl_totalInterestPaid := 0 |}.

Definition cascade_loop (fuel : nat) (sortedDebts : list DebtForPayoff)
    (extraMonthlyPayment : float) : option (Cascade * nat) :=
  while fuel cascade_cond (cascade_body extraMonthlyPayment)
    (cascade_init sortedDebts).

(** [simulatePayoffBaseline] *)
Record BaseLoop := {
  bl_balance : float;
  bl_months : Z;
  bl_totalInterest : float
}.

Definition base_cond (s : BaseLoop) : bool :=
  (0.01 <? bl_balance s) && (bl_months s <? 600)%Z.

Definition base_body (debt : DebtForPayoff) (s : BaseLoop) : BaseLoop :=
  let interest := calculateMonthlyInterest (bl_balance s) (apr debt) in
  let payment := Math_min (minPayment debt) (bl_balance s + interest) in
  let principal := payment - interest in
  {| bl_balance := Math_max 0 (bl_balance s - principal);
     bl_months := (bl_months s + 1)%Z;
     bl_totalInterest := bl_totalInterest s + interest |}.

Fixpoint baseline_debts (fuel : nat) (debts : list DebtForPayoff)
    (totalInterest : float) (maxMonths : Z) : option (float * Z) :=
  match debts with
  | [] => Some (totalInterest, maxMonths)
  | debt :: rest =>
      '(s, _) ← while fuel base_cond (base_body debt)
                  {| bl_balance := balance debt; bl_months := 0;
                     bl_totalInterest := totalInterest |};
      baseline_debts fuel rest (bl_totalInterest s) (Z.max maxMonths (bl_months s))
  end.

Record Baseline := {
  base_totalMonths : Z;
  base_totalInterestPaid : float
}.

Definition simulatePayoffBaseline (fuel : nat) (debts : list DebtForPayoff)
    : option Baseline :=
  '(totalInterest, maxMonths) ← baseline_debts fuel debts 0 0%Z;
  Some {| base_totalMonths := maxMonths;
          base_totalInterestPaid := round2 totalInterest |}.

(** [simulatePayoff] *)
Definition is_first (sortedDebts : list DebtForPayoff) (debt : DebtForPayoff)
    : bool :=
  match sortedDebts with
  | d0 :: _ => String.eqb (id d0) (id debt)
  | [] => false
  end.

Definition replay (fuel : nat) (sortedDebts : list DebtForPayoff)
    (extraMonthlyPayment : float) (debt : DebtForPayoff) : option PayoffDebtResult :=
  simulateDebtPayoff fuel debt
    (minPayment debt + (if is_first sortedDebts debt then extraMonthlyPayment else 0))
    1.

Definition simulatePayoff (fuel : nat) (debts : list DebtForPayoff)
    (strategy : Payoff.Strategy) (extraMonthlyPayment : float)
    : option PayoffSimulation :=
  if (length debts =? 0)%nat then
    Some {| strategy := strategy; extraPayment := extraMonthlyPayment;
            debts := []; totalMonths := 0; totalInterestPaid := 0;
            monthsSaved := 0; interestSaved := 0 |}
  else
    let sortedDebts := sorted_by strategy debts in
    '(c, _) ← cascade_loop fuel sortedDebts extraMonthlyPayment;
    let totalInterestPaid := cl_totalInterestPaid c in
    results ← mapM (replay fuel sortedDebts extraMonthlyPayment) sortedDebts;
    baselineSimulation ← simulatePayoffBaseline fuel debts;
    lastPayoffMonth ← Payoff.Math_max (map payoffMonth results);
    let totalMonths := lastPayoffMonth in
    Some {| strategy := strategy;
            extraPayment := extraMonthlyPayment;
            debts := results;
            totalMonths := totalMonths;
            totalInterestPaid := round2 totalInterestPaid;
            monthsSaved :=
              Z.max 0 (base_totalMonths baselineSimulation - totalMonths);
            interestSaved :=
              Math_max 0
                (round2 (base_totalInterestPaid baselineSimulation
                         - totalInterestPaid)) |}.

(** [compareStrategies] *)
Record Comparison := {
  avalanche : PayoffSimulation;
  snowball : PayoffSimulation;
  recommendation : Payoff.Strategy;
  interestDifference : float
}.

Definition compareStrategies (fuel : nat) (debts : list DebtForPayoff)
    (extraMonthlyPayment : float) : option Comparison :=
  avalanche ← simulatePayoff fuel debts Payoff.Avalanche extraMonthlyPayment;
  snowball ← simulatePayoff fuel debts Payoff.Snowball extraMonthlyPayment;
  let interestDifference := totalInterestPaid snowball - totalInterestPaid avalanche in
  let recommendation :=
    if 1000 <? interestDifference then Payoff.Avalanche else Payoff.Snowball in
  Some {| avalanche := avalanche;
          snowball := snowball;
          recommendation := recommendation;
          interestDifference := round2 interestDifference |}.

End PayoffDouble.

(* ===================================================================== *)
(** * Numbers with infinities and NaN *)
(* ===================================================================== *)

(** The finite values are exact rationals.  There is one zero: the sign of a
    zero is not modelled, and a division of a non-zero number by zero gives
    the infinity with the sign of the numerator. *)
Module Js.
Local Open Scope Q_scope.

Inductive number := Fin (q : Q) | PInf | NInf | NaN.

Definition neg (a : number) : number :=
  match a with
  | Fin q => Fin (- q)
  | PInf => NInf
  | NInf => PInf
  | NaN => NaN
  end.

Definition add (a b : number) : number :=
  match a, b with
  | NaN, _ | _, NaN => NaN
  | Fin x, Fin y => Fin (x + y)
  | PInf, NInf | NInf, PInf => NaN
  | PInf, _ | _, PInf => PInf
  | NInf, _ | _, NInf => NInf
  end.

Definition sub (a b : number) : number := add a (neg b).

(** The sign of a number that is not NaN. *)
Definition sign (a : number) : option comparison :=
  match a with
  | Fin q => Some (q ?= 0)
  | PInf => Some Gt
  | NInf => Some Lt
  | NaN => None
  end.

Definition mul (a b : number) : number :=
  match a, b with
  | Fin x, Fin y => Fin (x * y)
  | _, _ =>
      match sign a, sign b with
      | None, _ | _, None => NaN
      | Some Eq, _ | _, Some Eq => NaN
      | Some Gt, Some Gt | Some Lt, Some Lt => PInf
      | _, _ => NInf
      end
  end.

Definition div (a b : number) : number :=
  match a, b with
  | NaN, _ | _, NaN => NaN
  | Fin x, Fin y =>
      if Qeq_bool y 0 then
        match x ?= 0 with Gt => PInf | Lt => NInf | Eq => NaN end
      else Fin (x / y)
  | Fin _, _ => Fin 0
  | _, Fin y =>
      match a, (y ?= 0) with
      | PInf, Lt | NInf, (Gt | Eq) => NInf
      | _, _ => PInf
      end
  | _, _ => NaN
  end.

(** [a < b]; false as soon as one side is NaN. *)
Definition lt (a b : number) : bool :=
  match a, b with
  | NaN, _ | _, NaN => false
  | Fin x, Fin y => if Qlt_le_dec x y then true else false
  | NInf, (Fin _ | PInf) | Fin _, PInf => true
  | _, _ => false
  end.

(** [a === b] *)
Definition eq (a b : number) : bool :=
  match a, b with
  | Fin x, Fin y => Qeq_bool x y
  | PInf, PInf | NInf, NInf => true
  | _, _ => false
  end.

Definition gt (a b : number) : bool := lt b a.
Definition le (a b : number) : bool := lt a b || eq a b.
Definition ge (a b : number) : bool := le b a.

(** [Math.abs] *)
Definition abs (a : number) : number :=
  match a with
  | Fin q => Fin (Qabs q)
  | PInf | NInf => PInf
  | NaN => NaN
  end.

(** [Math.round] *)
Definition round (a : number) : number :=
  match a with
  | Fin q => Fin (inject_Z (Qfloor (q + (1 # 2))))
  | _ => a
  end.

(** Truthiness of a number: [0] and NaN are falsy. *)
Definition truthy (a : number) : bool :=
  match a with
  | Fin q => negb (Qeq_bool q 0)
  | PInf | NInf => true
  | NaN => false
  end.

Definition Infinity : number := PInf.

End Js.

Coercion Js.Fin : Q >-> Js.number.

(* ===================================================================== *)
(** * src/lib/calc/cashflow.ts *)
(* ===================================================================== *)

Module Cashflow.
Import Js.

(** [calculateFreeCashflow] *)
Definition calculateFreeCashflow (totalIncome totalExpenses totalEmi : number)
    : number :=
  sub (sub totalIncome totalExpenses) totalEmi.

(** [calculateSavingsRate] *)
Definition calculateSavingsRate (freeCashflow totalIncome : number) : number :=
  if eq totalIncome 0%Q then Fin 0
  else
    let rate := mul (div freeCashflow totalIncome) 100%Q in
    div (round (mul rate 10%Q)) 10%Q.  (* 1 decimal place *)

(** [calculateRunway] *)
Definition calculateRunway (liquidAssets monthlyExpenses monthlyEmi : number)
    : number :=
  let monthlyBurn := add monthlyExpenses monthlyEmi in
  if eq monthlyBurn 0%Q then Infinity
  else
    let runway := div liquidAssets monthlyBurn in
    div (round (mul runway 10%Q)) 10%Q.  (* 1 decimal place *)

End Cashflow.

(* ===================================================================== *)
(** * src/lib/rules/index.ts *)
(* ===================================================================== *)

Module Rules.
Import Js.

Inductive AlertSeverity := high | medium | low.

(** A piece of a template literal.  The texts produced by the number
    formatters are not computed: a fragment records which formatter is
    applied to which value. *)
Inductive Fragment :=
| Text (s : string)
| Value (x : number)                    (* ${x} *)
| ToFixed (x : number) (digits : nat)   (* ${x.toFixed(digits)} *)
| ToLocaleString (x : number)           (* ${x.toLocaleString()} *)
| ToUpperCase (s : string).             (* ${s.toUpperCase()} *)

Record Alert := {
  id : string;
  severity : AlertSeverity;
  title : string;
  message : list Fragment;
  action : list Fragment
}.

(** [AllocationTargets] is an object with one number per asset class;
    [Object.entries] lists its properties in the order the object has them,
    so it is kept as the list of its entries. *)
Record RulesContext := {
  (* Cashflow *)
  totalMonthlyIncome : number;
  totalMonthlyExpenses : number;
  totalMonthlyEmi : number;
  freeCashflow : number;
  savingsRate : number;
  (* Assets *)
  liquidAssets : number;
  totalAssets : number;
  assetAllocation : gmap string number;  (* percentages *)
  (* Liabilities *)
  totalLiabilities : number;
  highestDebtApr : number;
  ccBalance : number;
  hasHighAprDebt : bool;  (* APR > 15% *)
  (* Settings *)
  emergencyFundMonthsTarget : number;
  emiToIncomeMaxPercent : number;
  ccUtilizationMaxPercent : number;
  allocationTargets : list (string * number);
  (* Computed *)
  runwayMonths : number;
  debtToIncomeRatio : number
}.

(** What a call of a rule does: it returns an alert or [null], or it throws. *)
Inductive Outcome := Returns (a : option Alert) | Throws.

Definition RuleFunction := RulesContext -> Outcome.

(** Rule: Emergency Fund Check *)
Definition checkEmergencyFund : RuleFunction := fun ctx =>
  if ge (runwayMonths ctx) (emergencyFundMonthsTarget ctx) then Returns None
  else
    let severity :=
      if lt (runwayMonths ctx) 3%Q then high
      else if lt (runwayMonths ctx) 5%Q then medium else low in
    Returns (Some {|
      id := "emergency-fund";
      severity := severity;
      title := "Emergency Fund Low";
      message := [Text "Your emergency fund covers ";
                  ToFixed (runwayMonths ctx) 1;
                  Text " months. Target is ";
                  Value (emergencyFundMonthsTarget ctx);
                  Text " months."];
      action :=
        match severity with
        | high => [Text "Prioritize building emergency fund before other investments"]
        | _ => [Text "Consider allocating more savings to your emergency fund"]
        end |}).

(** Rule: Credit Card Utilization Check *)
Definition checkCreditCardUtilization : RuleFunction := fun ctx =>
  if eq (ccBalance ctx) 0%Q || eq (totalMonthlyIncome ctx) 0%Q then Returns None
  else
    let utilizationPercent :=
      mul (div (ccBalance ctx) (totalMonthlyIncome ctx)) 100%Q in
    if le utilizationPercent (ccUtilizationMaxPercent ctx) then Returns None
    else
      let severity :=
        if gt utilizationPercent 100%Q then high
        else if gt utilizationPercent 50%Q then medium else low in
      Returns (Some {|
        id := "cc-utilization";
        severity := severity;
        title := "High Credit Card Balance";
        message := [Text "Credit card balance is ";
                    ToFixed utilizationPercent 0;
                    Text "% of monthly income. Consider paying down to below ";
                    Value (ccUtilizationMaxPercent ctx);
                    Text "%."];
        action := [Text "Pay off credit card balance to avoid high interest charges"] |}).

(** Rule: EMI to Income Ratio Check *)
Definition checkEmiToIncome : RuleFunction := fun ctx =>
  if eq (totalMonthlyIncome ctx) 0%Q then Returns None
  else
    let emiPercent :=
      mul (div (totalMonthlyEmi ctx) (totalMonthlyIncome ctx)) 100%Q in
    if le emiPercent (emiToIncomeMaxPercent ctx) then Returns None
    else
      let severity :=
        if gt emiPercent 50%Q then high
        else if gt emiPercent 40%Q then medium else low in
      Returns (Some {|
        id := "emi-income-ratio";
        severity := severity;
        title := "High EMI Burden";
        message := [Text "EMIs consume ";
                    ToFixed emiPercent 1;
                    Text "% of income (recommended: <";
                    Value (emiToIncomeMaxPercent ctx);
                    Text "%)."];
        action :=
          match severity with
          | high => [Text "Consider debt consolidation or refinancing options"]
          | _ => [Text "Avoid taking on new debt until EMI ratio improves"]
          end |}).

(** Rule: High APR Debt While Investing *)
Definition checkHighAprDebtWithInvestments : RuleFunction := fun ctx =>
  if negb (hasHighAprDebt ctx) then Returns None
  else
    let investmentValue :=
      sub (liquidAssets ctx)
        (mul (emergencyFundMonthsTarget ctx)
           (add (totalMonthlyExpenses ctx) (totalMonthlyEmi ctx))) in
    if le investmentValue 0%Q then Returns None
    else
      Returns (Some {|
        id := "high-apr-with-investments";
        severity := medium;
        title := "High Interest Debt Coexists with Investments";
        message := [Text "You have debt at ";
                    ToFixed (highestDebtApr ctx) 1;
                    Text "% APR while holding investments. Debt interest likely exceeds investment returns."];
        action := [Text "Consider using liquid investments to pay off high-interest debt first"] |}).

(** Rule: Negative Cashflow *)
Definition checkNegativeCashflow : RuleFunction := fun ctx =>
  if ge (freeCashflow ctx) 0%Q then Returns None
  else
    Returns (Some {|
      id := "negative-cashflow";
      severity := high;
      title := "Negative Monthly Cashflow";
      message := [Text "You're spending ₹";
                  ToLocaleString (abs (freeCashflow ctx));
                  Text " more than you earn each month."];
      action := [Text "Review and reduce discretionary expenses immediately"] |}).

(** Rule: Low Savings Rate *)
Definition checkSavingsRate : RuleFunction := fun ctx =>
  if ge (savingsRate ctx) 20%Q then Returns None
  else if lt (savingsRate ctx) 0%Q then
    (* Covered by negative cashflow rule *)
    Returns None
  else
    let severity :=
      if lt (savingsRate ctx) 5%Q then medium
      else if lt (savingsRate ctx) 10%Q then low else low in
    Returns (Some {|
      id := "low-savings-rate";
      severity := severity;
      title := "Low Savings Rate";
      message := [Text "Your savings rate is ";
                  ToFixed (savingsRate ctx) 1;
                  Text "%. Target at least 20% for long-term wealth building."];
      action := [Text "Look for ways to increase income or reduce fixed expenses"] |}).

(** An element of [drifts] in [checkAllocationDrift]. *)
Record Drift := {
  type : string;
  actual : number;
  target : number;
  diff : number
}.

(** [ctx.assetAllocation[type] || 0] *)
Definition allocation_or_zero (allocation : gmap string number) (type : string)
    : number :=
  match allocation !! type with
  | Some x => if truthy x then x else Fin 0
  | None => Fin 0
  end.

(** The [for] loop of [checkAllocationDrift] that fills [drifts]. *)
Definition collect_drifts (ctx : RulesContext) : list Drift :=
  let driftThreshold := Fin 10 in  (* percentage points *)
  fold_left
    (fun drifts '(type, target) =>
       let actual := allocation_or_zero (assetAllocation ctx) type in
       let diff := sub actual target in
       if gt (abs diff) driftThreshold
       then drifts ++ [{| type := type; actual := actual; target := target; diff := diff |}]
       else drifts)
    (allocationTargets ctx) [].

(** Rule: Asset Allocation Drift *)
Definition checkAllocationDrift : RuleFunction := fun ctx =>
  let drifts := collect_drifts ctx in
  if (length drifts =? 0)%nat then Returns None
  else
    (* Sort by absolute drift *)
    let drifts :=
      Array_sort (fun a b => gt (sub (abs (diff b)) (abs (diff a))) 0%Q) drifts in
    match drifts with
    | [] => Throws  (* [drifts[0]] undefined: reading [.diff] of it throws *)
    | topDrift :: _ =>
        let direction :=
          if gt (diff topDrift) 0%Q then "overweight" else "underweight" in
        Returns (Some {|
          id := "allocation-drift";
          severity := low;
          title := "Portfolio Allocation Drift";
          message := [ToUpperCase (type topDrift);
                      Text " is "; Text direction; Text " by ";
                      ToFixed (abs (diff topDrift)) 1;
                      Text "% (actual: ";
                      ToFixed (actual topDrift) 1;
                      Text "%, target: ";
                      Value (target topDrift);
                      Text "%)."];
          action :=
            if gt (diff topDrift) 0%Q
            then [Text "Consider rebalancing: reduce "; Text (type topDrift);
                  Text " allocation"]
            else [Text "Consider rebalancing: increase "; Text (type topDrift);
                  Text " allocation"] |})
    end.

(** Rule: No Income Streams *)
Definition checkNoIncome : RuleFunction := fun ctx =>
  if gt (totalMonthlyIncome ctx) 0%Q then Returns None
  else
    Returns (Some {|
      id := "no-income";
      severity := medium;
      title := "No Income Tracked";
      message := [Text "No income streams are recorded. Add your income sources for accurate financial tracking."];
      action := [Text "Go to Cashflow page and add your income streams"] |}).

(** All rules *)
Definition RULES : list RuleFunction := [
  checkEmergencyFund;
  checkCreditCardUtilization;
  checkEmiToIncome;
  checkHighAprDebtWithInvestments;
  checkNegativeCashflow;
  checkSavingsRate;
  checkAllocationDrift;
  checkNoIncome
].

(** The loop of [evaluateRules] over a catalogue: the alerts in the order
    their rules are called; a rule that throws contributes nothing. *)
Definition run_rules (rules : list RuleFunction) (ctx : RulesContext)
    : list Alert :=
  fold_left
    (fun alerts rule =>
       match rule ctx with
       | Returns (Some alert) => alerts ++ [alert]
       | Returns None => alerts
       | Throws => alerts  (* console.error *)
       end)
    rules [].

Definition severityOrder (s : AlertSeverity) : Z :=
  match s with
  | high => 0
  | medium => 1
  | low => 2
  end.

(** [(a, b) => severityOrder[a.severity] - severityOrder[b.severity]] is
    positive. *)
Definition by_severity (a b : Alert) : bool :=
  severityOrder (severity a) - severityOrder (severity b) >? 0.

(** [evaluateRules] *)
Definition evaluateRules (ctx : RulesContext) : list Alert :=
  let alerts := run_rules RULES ctx in
  (* Sort by severity (high first) *)
  Array_sort by_severity alerts.

Record Settings := {
  s_emergencyFundMonthsTarget : number;
  s_emiToIncomeMaxPercent : number;
  s_ccUtilizationMaxPercent : number;
  s_allocationTargets : list (string * number)
}.

(** The argument of [buildRulesContext]. *)
Record FinancialData := {
  income : number;
  expenses : number;
  emi : number;
  d_liquidAssets : number;
  d_totalAssets : number;
  d_totalLiabilities : number;
  d_ccBalance : number;
  highestApr : number;
  d_assetAllocation : gmap string number;
  settings : Settings
}.

(** [buildRulesContext] *)
Definition buildRulesContext (data : FinancialData) : RulesContext :=
  let monthlyBurn := add (expenses data) (emi data) in
  let runwayMonths :=
    if gt monthlyBurn 0%Q then div (d_liquidAssets data) monthlyBurn else Infinity in
  let freeCashflow := sub (sub (income data) (expenses data)) (emi data) in
  let savingsRate :=
    if gt (income data) 0%Q then mul (div freeCashflow (income data)) 100%Q
    else Fin 0 in
  let debtToIncomeRatio :=
    if gt (income data) 0%Q then mul (div (emi data) (income data)) 100%Q
    else Fin 0 in
  {| totalMonthlyIncome := income data;
     totalMonthlyExpenses := expenses data;
     totalMonthlyEmi := emi data;
     freeCashflow := freeCashflow;
     savingsRate := savingsRate;
     liquidAssets := d_liquidAssets data;
     totalAssets := d_totalAssets data;
     assetAllocation := d_assetAllocation data;
     totalLiabilities := d_totalLiabilities data;
     highestDebtApr := highestApr data;
     ccBalance := d_ccBalance data;
     hasHighAprDebt := gt (highestApr data) (15 # 100);  (* 15% *)
     emergencyFundMonthsTarget := s_emergencyFundMonthsTarget (settings data);
     emiToIncomeMaxPercent := s_emiToIncomeMaxPercent (settings data);
     ccUtilizationMaxPercent := s_ccUtilizationMaxPercent (settings data);
     allocationTargets := s_allocationTargets (settings data);
     runwayMonths := runwayMonths;
     debtToIncomeRatio := debtToIncomeRatio |}.

End Rules.

(* ===================================================================== *)
(** * src/lib/calc/payoff.ts: the debt metrics *)
(* ===================================================================== *)

(** The sums of [calculateDebtMetrics] and [estimateMonthlyInterestBurn] are
    sums of finite numbers; the weighted average divides by the total debt,
    which can be zero, and [Math.max()] and [Math.min()] have values for the
    empty list: these are [Js.number]s. *)
Module PayoffMetrics.
Import Payoff.

(** [estimateMonthlyInterestBurn] *)
Definition estimateMonthlyInterestBurn (debts : list DebtForPayoff) : Q :=
  fold_left
    (fun sum d => Num.add sum (calculateMonthlyInterest (balance d) (apr d)))
    debts 0%Q.

(** [Math.max(...xs)] and [Math.min(...xs)] *)
Definition Math_max_of (xs : list Q) : Js.number :=
  match xs with
  | [] => Js.NInf
  | x :: xs' => Js.Fin (fold_left Qmax xs' x)
  end.

Definition Math_min_of (xs : list Q) : Js.number :=
  match xs with
  | [] => Js.PInf
  | x :: xs' => Js.Fin (fold_left Qmin xs' x)
  end.

Record DebtMetrics := {
  totalDebt : Q;
  totalMonthlyEmi : Q;
  weightedAvgApr : Js.number;
  highestApr : Js.number;
  lowestBalance : Js.number
}.

(** [calculateDebtMetrics] *)
Definition calculateDebtMetrics (debts : list DebtForPayoff) : DebtMetrics :=
  if (length debts =? 0)%nat then
    {| totalDebt := 0%Q; totalMonthlyEmi := 0%Q; weightedAvgApr := Js.Fin 0;
       highestApr := Js.Fin 0; lowestBalance := Js.Fin 0 |}
  else
    let totalDebt := fold_left (fun sum d => Num.add sum (balance d)) debts 0%Q in
    let totalMonthlyEmi :=
      fold_left (fun sum d => Num.add sum (minPayment d)) debts 0%Q in
    (* Weighted average APR *)
    let weightedApr :=
      Js.div
        (Js.Fin (fold_left (fun sum d => Num.add sum (Num.mul (apr d) (balance d)))
                   debts 0%Q))
        (Js.Fin totalDebt) in
    {| totalDebt := Num.round2 totalDebt;
       totalMonthlyEmi := Num.round2 totalMonthlyEmi;
       weightedAvgApr :=
         Js.div (Js.round (Js.mul weightedApr (Js.Fin 10000))) (Js.Fin 10000);
       highestApr := Math_max_of (map apr debts);
       lowestBalance := Math_min_of (map balance debts) |}.

End PayoffMetrics.

(* ===================================================================== *)
(** * src/lib/calc/cashflow.ts: totals, summary and breakdown *)
(* ===================================================================== *)

Module CashflowSummary.
Import Js Cashflow.

Record IncomeItem := { income_amountMonthly : number }.

Record ExpenseItem := {
  amountMonthly : number;
  category : string
}.

Record DebtItem := { emi : number }.

(** [calculateTotalIncome] *)
Definition calculateTotalIncome (incomes : list IncomeItem) : number :=
  fold_left (fun sum i => add sum (income_amountMonthly i)) incomes (Fin 0).

(** [calculateTotalExpenses]: the expenses other than the EMIs *)
Definition calculateTotalExpenses (expenses : list ExpenseItem) : number :=
  fold_left (fun sum e => add sum (amountMonthly e))
    (List.filter (fun e => negb (String.eqb (category e) "emi")) expenses)
    (Fin 0).

(** [calculateTotalEmi] *)
Definition calculateTotalEmi (debts : list DebtItem) : number :=
  fold_left (fun sum d => add sum (emi d)) debts (Fin 0).

Record CashflowSummary := {
  totalIncome : number;
  totalExpenses : number;
  totalEmi : number;
  freeCashflow : number;
  savingsRate : number;
  runwayMonths : number
}.

(** [calculateCashflowSummary] *)
Definition calculateCashflowSummary (incomes : list IncomeItem)
    (expenses : list ExpenseItem) (debts : list DebtItem)
    (liquidAssets : number) : CashflowSummary :=
  let totalIncome := calculateTotalIncome incomes in
  let totalExpenses := calculateTotalExpenses expenses in
  let totalEmi := calculateTotalEmi debts in
  let freeCashflow := calculateFreeCashflow totalIncome totalExpenses totalEmi in
  let savingsRate := calculateSavingsRate freeCashflow totalIncome in
  let runwayMonths := calculateRunway liquidAssets totalExpenses totalEmi in
  {| totalIncome := totalIncome;
     totalExpenses := totalExpenses;
     totalEmi := totalEmi;
     freeCashflow := freeCashflow;
     savingsRate := savingsRate;
     runwayMonths := runwayMonths |}.

(** [calculateDebtToIncomeRatio] *)
Definition calculateDebtToIncomeRatio (totalEmi totalIncome : number) : number :=
  if eq totalIncome 0%Q then Fin 0
  else
    let ratio := mul (div totalEmi totalIncome) 100%Q in
    div (round (mul ratio 10%Q)) 10%Q.

(** The breakdown is an object literal used as a map from categories to
    amounts.  The finite map describes it for the keys that are its own: an
    object literal inherits the members of [Object.prototype], and reading
    one of their names gives the inherited member, which is not a number. *)
Definition Object_prototype_names : list string := [
  "constructor"; "__proto__"; "hasOwnProperty"; "isPrototypeOf";
  "propertyIsEnumerable"; "toLocaleString"; "toString"; "valueOf";
  "__defineGetter__"; "__defineSetter__"; "__lookupGetter__"; "__lookupSetter__"
].

Definition plain_key (key : string) : bool :=
  negb (existsb (String.eqb key) Object_prototype_names).

(** [breakdown[key] || 0] *)
Definition or_zero (breakdown : gmap string number) (key : string) : number :=
  match breakdown !! key with
  | Some x => if truthy x then x else Fin 0
  | None => Fin 0
  end.

(** [calculateExpenseBreakdown] *)
Definition calculateExpenseBreakdown (expenses : list ExpenseItem)
    : gmap string number :=
  fold_left
    (fun breakdown expense =>
       <[category expense :=
           add (or_zero breakdown (category expense)) (amountMonthly expense)]>
         breakdown)
    expenses ∅.

End CashflowSummary.

(* ===================================================================== *)
(** * src/lib/calc/networth.ts *)
(* ===================================================================== *)

(** The amounts are finite, and the only divisions are by a total that has
    been compared with 0 first: the numbers are [Q], as in the simulator. *)
Module Networth.
Local Open Scope Q_scope.

(** [AssetType]; at run time an asset type is the string of its name. *)
Inductive AssetType :=
  equity | mf | crypto | gold | realestate | vehicle | custom.

Definition AssetType_name (t : AssetType) : string :=
  match t with
  | equity => "equity"
  | mf => "mf"
  | crypto => "crypto"
  | gold => "gold"
  | realestate => "realestate"
  | vehicle => "vehicle"
  | custom => "custom"
  end.

Record AssetItem := {
  type : AssetType;
  value : Q
}.

Record LiabilityItem := {
  l_type : string;
  l_balance : Q
}.

Record CashAccount := { balance : Q }.

(** Liquid asset types - can be converted to cash quickly *)
Definition LIQUID_ASSET_TYPES : list AssetType := [equity; mf; crypto; gold].

(** Short-term debt types (due within 1 year or revolving) *)
Definition SHORT_TERM_DEBT_TYPES : list string := ["cc"; "personal"].

(** [array.includes(x)], on strings *)
Definition includes (array : list string) (x : string) : bool :=
  existsb (String.eqb x) array.

(** [calculateTotalAssets] *)
Definition calculateTotalAssets (cashAccounts : list CashAccount)
    (holdings : list AssetItem) : Q :=
  let cashTotal := fold_left (fun sum acc => Num.add sum (balance acc)) cashAccounts 0 in
  let holdingsTotal := fold_left (fun sum h => Num.add sum (value h)) holdings 0 in
  Num.add cashTotal holdingsTotal.

(** [calculateTotalLiabilities] *)
Definition calculateTotalLiabilities (liabilities : list LiabilityItem) : Q :=
  fold_left (fun sum l => Num.add sum (l_balance l)) liabilities 0.

(** [calculateNetWorth] *)
Definition calculateNetWorth (totalAssets totalLiabilities : Q) : Q :=
  Num.sub totalAssets totalLiabilities.

(** [calculateLiquidAssets] *)
Definition calculateLiquidAssets (cashAccounts : list CashAccount)
    (holdings : list AssetItem) : Q :=
  let cashTotal := fold_left (fun sum acc => Num.add sum (balance acc)) cashAccounts 0 in
  let liquidHoldings :=
    fold_left (fun sum h => Num.add sum (value h))
      (List.filter
         (fun h => includes (map AssetType_name LIQUID_ASSET_TYPES)
                     (AssetType_name (type h)))
         holdings)
      0 in
  Num.add cashTotal liquidHoldings.

(** [calculateShortTermLiabilities] *)
Definition calculateShortTermLiabilities (liabilities : list LiabilityItem) : Q :=
  fold_left (fun sum l => Num.add sum (l_balance l))
    (List.filter (fun l => includes SHORT_TERM_DEBT_TYPES (l_type l)) liabilities)
    0.

(** [calculateLiquidNetWorth] *)
Definition calculateLiquidNetWorth (liquidAssets shortTermLiabilities : Q) : Q :=
  Num.sub liquidAssets shortTermLiabilities.

(** [allocation[key] || 0] *)
Definition or_zero (allocation : gmap string Q) (key : string) : Q :=
  match allocation !! key with
  | Some x => if Qeq_bool x 0 then 0 else x
  | None => 0
  end.

(** [Object.values(allocation).reduce((sum, v) => sum + v, 0)] *)
Definition sum_values (allocation : gmap string Q) : Q :=
  map_fold (fun _ v sum => Num.add sum v) 0 allocation.

(** [Math.round((value / total) * 100 * 10) / 10] *)
Definition percentage (total value : Q) : Q :=
  Num.div (Num.round (Num.mul (Num.mul (Num.div value total) 100) 10)) 10.

(** The body of the loop over the holdings in [calculateAssetAllocation]. *)
Definition add_holding (allocation : gmap string Q) (holding : AssetItem)
    : gmap string Q :=
  <[AssetType_name (type holding) :=
      Num.add (or_zero allocation (AssetType_name (type holding)))
              (value holding)]> allocation.

(** The amounts per key of [calculateAssetAllocation], before they are
    converted to percentages. *)
Definition allocation_amounts (cashAccounts : list CashAccount)
    (holdings : list AssetItem) : gmap string Q :=
  (* Add cash *)
  let cashTotal := fold_left (fun sum acc => Num.add sum (balance acc)) cashAccounts 0 in
  let allocation : gmap string Q :=
    if Num.gt cashTotal 0 then <["cash" := cashTotal]> ∅ else ∅ in
  (* Add holdings by type *)
  fold_left add_holding holdings allocation.

(** [calculateAssetAllocation] *)
Definition calculateAssetAllocation (cashAccounts : list CashAccount)
    (holdings : list AssetItem) : gmap string Q :=
  let allocation := allocation_amounts cashAccounts holdings in
  (* Convert to percentages *)
  let total := sum_values allocation in
  if Qeq_bool total 0 then ∅
  else percentage total <$> allocation.

(** [calculateLiabilityMix]; the types of the liabilities are the keys of an
    object literal, which the finite map describes for the types that are
    not names of members of [Object.prototype]. *)
Definition calculateLiabilityMix (liabilities : list LiabilityItem)
    : gmap string Q :=
  let mix : gmap string Q :=
    fold_left
      (fun mix liability =>
         <[l_type liability :=
             Num.add (or_zero mix (l_type liability)) (l_balance liability)]> mix)
      liabilities ∅ in
  (* Convert to percentages *)
  let total := sum_values mix in
  if Qeq_bool total 0 then ∅
  else percentage total <$> mix.

Record NetWorthSummary := {
  totalAssets : Q;
  totalLiabilities : Q;
  netWorth : Q;
  liquidAssets : Q;
  liquidNetWorth : Q;
  assetAllocation : gmap string Q;
  liabilityMix : gmap string Q
}.

(** [calculateNetWorthSummary] *)
Definition calculateNetWorthSummary (cashAccounts : list CashAccount)
    (holdings : list AssetItem) (liabilities : list LiabilityItem)
    : NetWorthSummary :=
  let totalAssets := calculateTotalAssets cashAccounts holdings in
  let totalLiabilities := calculateTotalLiabilities liabilities in
  let netWorth := calculateNetWorth totalAssets totalLiabilities in
  let liquidAssets := calculateLiquidAssets cashAccounts holdings in
  let shortTermLiabilities := calculateShortTermLiabilities liabilities in
  let liquidNetWorth := calculateLiquidNetWorth liquidAssets shortTermLiabilities in
  let assetAllocation := calculateAssetAllocation cashAccounts holdings in
  let liabilityMix := calculateLiabilityMix liabilities in
  {| totalAssets := totalAssets;
     totalLiabilities := totalLiabilities;
     netWorth := netWorth;
     liquidAssets := liquidAssets;
     liquidNetWorth := liquidNetWorth;
     assetAllocation := assetAllocation;
     liabilityMix := liabilityMix |}.

End Networth.

(* ===================================================================== *)
(** * The dashboard: [getDashboardData]

    The function first fetches the accounts, holdings, debts, totals and
    settings from the database; [Fetched] is what it fetched, and the model
    is what the function computes from it: the net worth summary, the
    cashflow summary and the alerts.  (The snapshots and the top holdings,
    which the function formats for display, are left out.) *)
(* ===================================================================== *)

Module Dashboard.
Import Js.

(** A debt, with the fields that the function reads. *)
Record Debt := {
  debt_type : string;
  currentBalance : Q;
  debt_emi : number
}.

Record Fetched := {
  accounts : list Networth.CashAccount;
  holdings : list Networth.AssetItem;
  debts : list Debt;
  income : number;
  expenses : number;
  settings : Rules.Settings;
  ccBalance : number;
  highestApr : number
}.

Record DashboardData := {
  netWorth : Networth.NetWorthSummary;
  cashflow : CashflowSummary.CashflowSummary;
  alerts : list Rules.Alert
}.

(** Calculate total EMI *)
Definition totalEmi (f : Fetched) : number :=
  fold_left (fun sum d => add sum (debt_emi d)) (debts f) (Fin 0).

(** Calculate net worth summary *)
Definition netWorthSummary (f : Fetched) : Networth.NetWorthSummary :=
  let cashAccounts := accounts f in
  let assetItems := holdings f in
  let liabilityItems :=
    map (fun d => {| Networth.l_type := debt_type d;
                     Networth.l_balance := currentBalance d |}) (debts f) in
  Networth.calculateNetWorthSummary cashAccounts assetItems liabilityItems.

(** Calculate cashflow summary *)
Definition cashflowSummary (f : Fetched) : CashflowSummary.CashflowSummary :=
  let incomeItems := [{| CashflowSummary.income_amountMonthly := income f |}] in
  let expenseItems :=
    [{| CashflowSummary.amountMonthly := expenses f;
        CashflowSummary.category := "other" |}] in
  let debtItems := map (fun d => {| CashflowSummary.emi := debt_emi d |}) (debts f) in
  CashflowSummary.calculateCashflowSummary incomeItems expenseItems debtItems
    (Fin (Networth.liquidAssets (netWorthSummary f))).

(** Build rules context *)
Definition rulesContext (f : Fetched) : Rules.RulesContext :=
  Rules.buildRulesContext
    {| Rules.income := income f;
       Rules.expenses := expenses f;
       Rules.emi := totalEmi f;
       Rules.d_liquidAssets := Fin (Networth.liquidAssets (netWorthSummary f));
       Rules.d_totalAssets := Fin (Networth.totalAssets (netWorthSummary f));
       Rules.d_totalLiabilities :=
         Fin (Networth.totalLiabilities (netWorthSummary f));
       Rules.d_ccBalance := ccBalance f;
       Rules.highestApr := highestApr f;
       Rules.d_assetAllocation :=
         Fin <$> Networth.assetAllocation (netWorthSummary f);
       Rules.settings := settings f |}.

(** [getDashboardData], after the fetch *)
Definition getDashboardData (f : Fetched) : DashboardData :=
  {| netWorth := netWorthSummary f;
     cashflow := cashflowSummary f;
     alerts := Rules.evaluateRules (rulesContext f) |}.

End Dashboard.

(* ===================================================================== *)
(** * Predicates used in the statements *)
(* ===================================================================== *)

(** A whole number of hundredths. *)
Definition cents (x : Q) : Prop := exists k : Z, (x == inject_Z k / 100)%Q.

(** Along the first [n] iterations of [body] from [s0], the quantity [bal]
    gets strictly smaller at every iteration. *)
Definition decreasing_run {S : Type} (bal : S -> Q) (body : S -> S) (s0 : S)
    (n : nat) : Prop :=
  forall j, (j < n)%nat ->
    (bal (Nat.iter (Datatypes.S j) body s0) < bal (Nat.iter j body s0))%Q.

(** Along the first [n] iterations of [body] from [s0], the quantity [bal]
    never gets larger. *)
Definition nonincreasing_run {S : Type} (bal : S -> Q) (body : S -> S) (s0 : S)
    (n : nat) : Prop :=
  forall j, (j < n)%nat ->
    (bal (Nat.iter (Datatypes.S j) body s0) <= bal (Nat.iter j body s0))%Q.

(** The ids of the debts of [remainingDebts], in order. *)
Definition debt_ids (rs : list Payoff.Remaining) : list string :=
  map (fun d => Payoff.id (Payoff.rd_debt d)) rs.

(** The alert a rule contributes to the list of [evaluateRules], if any. *)
Definition raised (ctx : Rules.RulesContext) (rule : Rules.RuleFunction)
    : option Rules.Alert :=
  match rule ctx with
  | Rules.Returns a => a
  | Rules.Throws => None
  end.

Definition has_id (k : string) (a : Rules.Alert) : bool :=
  String.eqb (Rules.id a) k.

Definition has_severity (s : Rules.AlertSeverity) (a : Rules.Alert) : bool :=
  Rules.severityOrder (Rules.severity a) =? Rules.severityOrder s.

(** The ids of the alerts of the catalogue, in catalogue order. *)
Definition ALERT_IDS : list string := [
  "emergency-fund";
  "cc-utilization";
  "emi-income-ratio";
  "high-apr-with-investments";
  "negative-cashflow";
  "low-savings-rate";
  "allocation-drift";
  "no-income"
].

(* ===================================================================== *)
(** * Notions used in the further properties *)
(* ===================================================================== *)

Module PayoffSpec.
Import Payoff.
Local Open Scope Q_scope.

(** The payment of the isolated replay of a debt. *)
Definition replay_payment (sortedDebts : list DebtForPayoff) (extra : Q)
    (d : DebtForPayoff) : Q :=
  Num.add (minPayment d) (if is_first sortedDebts d then extra else 0).

(** A row of a monthly breakdown whose amounts are whole numbers of
    hundredths and whose balance is not negative. *)
Definition row_rounded (row : PayoffMonth) : Prop :=
  cents (pm_balance row) /\ cents (pm_principal row) /\
  cents (pm_interest row) /\ cents (pm_payment row) /\ 0 <= pm_balance row.

(** The months [start], [start + 1], ..., [start + n - 1]. *)
Definition months_from (start : Z) (n : nat) : list Z :=
  map (fun i => (start + Z.of_nat i)%Z) (seq 0 n).

(** The result of the isolated replay of a debt that needs no month. *)
Definition settled_result (d : DebtForPayoff) : PayoffDebtResult :=
  {| debtId := id d; debtName := name d; payoffMonth := 0;
     totalPaid := 0; totalInterest := 0; monthlyBreakdown := [] |}.

(** What a month of the cascading loop may do to an entry of
    [remainingDebts]: the debt stays the same debt; an entry that is paid is
    left alone; an entry that becomes paid gets the balance 0. *)
Definition month_step (d d' : Remaining) : Prop :=
  rd_debt d' = rd_debt d /\
  (paid d = true -> d' = d) /\
  (paid d' = true -> paid d = false -> currentBalance d' = 0) /\
  (paid d = false -> 0 <= currentBalance d' \/ d' = d).

(** A paid entry has the balance 0. *)
Definition paid_is_zero (d : Remaining) : Prop :=
  paid d = true -> currentBalance d = 0.

(** The plain sum of a list of numbers. *)
Definition sumQ (xs : list Q) : Q := fold_right Qplus 0 xs.

End PayoffSpec.

Module CashflowSpec.
Import Js CashflowSummary.
Local Open Scope Q_scope.

(** [r] is [x] rounded to one decimal: a whole number of tenths at most
    half a tenth away from [x]. *)
Definition one_decimal_of (x r : Q) : Prop :=
  (exists k : Z, r == inject_Z k / 10) /\ x - (1 # 20) <= r <= x + (1 # 20).

(** The amount of an expense item, when it is finite. *)
Definition finite_amount (e : ExpenseItem) : Q :=
  match amountMonthly e with
  | Fin q => q
  | _ => 0
  end.

(** The value of a breakdown at a key, when it is finite. *)
Definition finite_at (breakdown : gmap string number) (c : string) : Q :=
  match breakdown !! c with
  | Some (Fin q) => q
  | _ => 0
  end.

(** The sum of the amounts of the items of category [c]. *)
Definition category_total (c : string) (expenses : list ExpenseItem) : Q :=
  fold_right Qplus 0
    (map finite_amount (List.filter (fun e => String.eqb (category e) c) expenses)).

End CashflowSpec.

Module RulesSpec.
Import Js Rules.

(** The drift of an entry of the targets. *)
Definition drift_of (ctx : RulesContext) (entry : string * number) : Drift :=
  let actual := allocation_or_zero (assetAllocation ctx) entry.1 in
  {| type := entry.1; actual := actual; target := entry.2;
     diff := sub actual entry.2 |}.

(** [Math.abs(diff) > driftThreshold] *)
Definition drifted (d : Drift) : bool := gt (abs (diff d)) (Fin 10).

(** The distance between the share of a class and its target: the magnitude
    of the drift of the entry. *)
Definition gap (ctx : RulesContext) (entry : string * number) : number :=
  abs (diff (drift_of ctx entry)).

(** The alert of [checkAllocationDrift] for the drift [topDrift]. *)
Definition reports (a : Alert) (topDrift : Drift) : Prop :=
  id a = "allocation-drift" /\ severity a = low /\
  message a = [ToUpperCase (type topDrift); Text " is ";
               Text (if gt (diff topDrift) 0%Q then "overweight" else "underweight");
               Text " by "; ToFixed (abs (diff topDrift)) 1;
               Text "% (actual: "; ToFixed (actual topDrift) 1;
               Text "%, target: "; Value (target topDrift); Text "%)."].

(** The severities that each rule gives to its alert. *)
Definition severities_of (k : string) : list AlertSeverity :=
  if String.eqb k "negative-cashflow" then [high]
  else if String.eqb k "high-apr-with-investments" then [medium]
  else if String.eqb k "no-income" then [medium]
  else if String.eqb k "allocation-drift" then [low]
  else if String.eqb k "low-savings-rate" then [medium; low]
  else [high; medium; low].

End RulesSpec.

Module NetworthSpec.
Import Networth.
Local Open Scope Q_scope.

(** The sum of the values of a list of holdings, and of balances. *)
Definition holdings_value (holdings : list AssetItem) : Q :=
  fold_right Qplus 0 (map value holdings).

Definition cash_value (cashAccounts : list CashAccount) : Q :=
  fold_right Qplus 0 (map balance cashAccounts).

Definition is_liquid (h : AssetItem) : bool :=
  match type h with
  | equity | mf | crypto | gold => true
  | _ => false
  end.

Definition key_of (h : AssetItem) : string := AssetType_name (type h).

(** The amount of the class [k]: the cash for "cash", and the value of the
    holdings of the type named [k]. *)
Definition class_value (k : string) (cashAccounts : list CashAccount)
    (holdings : list AssetItem) : Q :=
  (if String.eqb k "cash" then cash_value cashAccounts else 0)
  + holdings_value (List.filter (fun h => String.eqb (key_of h) k) holdings).

End NetworthSpec.

(* ===================================================================== *)
(** * Inputs used in examples *)
(* ===================================================================== *)

Module PayoffExamples.
Import Payoff.

(** Two debts without interest; the smaller one can be paid off in the first
    month. *)
Definition small_debt : DebtForPayoff :=
  {| id := "a"; name := "A"; balance := 100; apr := 0; minPayment := 50 |}.

Definition large_debt : DebtForPayoff :=
  {| id := "b"; name := "B"; balance := 1000; apr := 0; minPayment := 50 |}.

(** A debt without interest that is paid back 1 a month. *)
Definition slow_debt : DebtForPayoff :=
  {| id := "1"; name := "Loan"; balance := 1000000; apr := 0; minPayment := 1 |}.

(** A debt with a negative rate and a negative payment, outside the
    documented ranges. *)
Definition negative_rate_debt : DebtForPayoff :=
  {| id := "n"; name := "N"; balance := 100; apr := -24; minPayment := -150 |}.

(** A debt at 24 percent and a smaller debt without interest: with an extra
    payment of 200000 a month, the avalanche order costs 4000 less interest
    than the snowball order. *)
Definition costly_debt : DebtForPayoff :=
  {| id := "c"; name := "C"; balance := 600000; apr := 24 # 100;
     minPayment := 300000 |}.

Definition free_debt : DebtForPayoff :=
  {| id := "f"; name := "F"; balance := 300000; apr := 0; minPayment := 50000 |}.

End PayoffExamples.

Module PayoffDoubleExamples.
Import PrimFloat PayoffDouble.
Local Open Scope float_scope.
#[local] Set Warnings "-inexact-float".

(** Two debts for which the interest totals of the two strategies, 8339.69
    and 7339.69, differ by a hair more than 1000. *)
Definition loan_a : DebtForPayoff :=
  {| id := "a"; name := "A"; balance := 39503.48; apr := 0.24; minPayment := 2000 |}.

Definition loan_b : DebtForPayoff :=
  {| id := "b"; name := "B"; balance := 10000; apr := 0.06; minPayment := 500 |}.

End PayoffDoubleExamples.

Module RulesExamples.
Import Js Rules.

(** Settings with a target of six months of runway and target allocations
    that sum to 100. *)
Definition default_settings : Settings :=
  {| s_emergencyFundMonthsTarget := Fin 6;
     s_emiToIncomeMaxPercent := Fin 40;
     s_ccUtilizationMaxPercent := Fin 30;
     s_allocationTargets :=
       [("equity", Fin 50); ("mf", Fin 30); ("crypto", Fin 5);
        ("gold", Fin 5); ("realestate", Fin 5); ("other", Fin 5)] |}.

(** A portfolio that is on target. *)
Definition on_target : gmap string number :=
  list_to_map
    [("equity", Fin 50); ("mf", Fin 30); ("crypto", Fin 5);
     ("gold", Fin 5); ("realestate", Fin 5); ("other", Fin 5)].

(** A household without income that spends 100 a month, without debts and
    with six months of expenses in liquid assets. *)
Definition no_income_data : FinancialData :=
  {| income := Fin 0; expenses := Fin 100; emi := Fin 0;
     d_liquidAssets := Fin 600; d_totalAssets := Fin 1000;
     d_totalLiabilities := Fin 0; d_ccBalance := Fin 0; highestApr := Fin 0;
     d_assetAllocation := on_target;
     settings := default_settings |}.

(** The same household with an income of 1000 a month and expenses of 1200. *)
Definition overspending_data : FinancialData :=
  {| income := Fin 1000; expenses := Fin 1200; emi := Fin 0;
     d_liquidAssets := Fin 7200; d_totalAssets := Fin 10000;
     d_totalLiabilities := Fin 0; d_ccBalance := Fin 0; highestApr := Fin 0;
     d_assetAllocation := on_target;
     settings := default_settings |}.

(** The overspending household once its liquid assets are used up. *)
Definition drained_data : FinancialData :=
  {| income := Fin 1000; expenses := Fin 1200; emi := Fin 0;
     d_liquidAssets := Fin 0; d_totalAssets := Fin 2800;
     d_totalLiabilities := Fin 0; d_ccBalance := Fin 0; highestApr := Fin 0;
     d_assetAllocation := on_target;
     settings := default_settings |}.

End RulesExamples.

Module DashboardExamples.
Import Js.

(** A household with an income of 1000, expenses of 600 and one loan; the
    targets give 20 percent to the class "other". *)
Definition household : Dashboard.Fetched :=
  {| Dashboard.accounts := [{| Networth.balance := 1500 |}];
     Dashboard.holdings := [{| Networth.type := Networth.equity;
                               Networth.value := 3000 |}];
     Dashboard.debts := [{| Dashboard.debt_type := "personal";
                            Dashboard.currentBalance := 2000;
                            Dashboard.debt_emi := Fin 100 |}];
     Dashboard.income := Fin 1000;
     Dashboard.expenses := Fin 600;
     Dashboard.settings :=
       {| Rules.s_emergencyFundMonthsTarget := Fin 6;
          Rules.s_emiToIncomeMaxPercent := Fin 35;
          Rules.s_ccUtilizationMaxPercent := Fin 30;
          Rules.s_allocationTargets :=
            [("equity", Fin 40); ("mf", Fin 20); ("crypto", Fin 5);
             ("gold", Fin 5); ("realestate", Fin 10); ("other", Fin 20)] |};
     Dashboard.ccBalance := Fin 0;
     Dashboard.highestApr := Fin (12 # 100) |}.

End DashboardExamples.

(* ===================================================================== *)
(** * Facts about the language-level helpers *)
(* ===================================================================== *)

Section WhileFacts.
Context {S : Type} (cond : S -> bool) (body : S -> S).

(** More fuel does not change a result. *)
Lemma while_fuel_mono fuel fuel' s r :
  while fuel cond body s = Some r -> (fuel <= fuel')%nat ->
  while fuel' cond body s = Some r.
Proof.
  revert fuel' s r. induction fuel as [|fuel IH]; intros fuel' s r.
  - simpl. destruct (cond s) eqn:Hc; [discriminate|]. intros <- _.
    destruct fuel'; simpl; rewrite Hc; reflexivity.
  - simpl. destruct (cond s) eqn:Hc.
    + destruct (while fuel cond body (body s)) as [[s1 n1]|] eqn:Hw; [|discriminate].
      intros <- Hle. destruct fuel' as [|fuel']; [lia|].
      simpl. rewrite Hc. rewrite (IH fuel' _ _ Hw); [reflexivity|lia].
    + intros <- _. destruct fuel'; simpl; rewrite Hc; reflexivity.
Qed.

(** A loop whose body decreases a measure while the guard holds ends by its
    own guard, after at most as many iterations as the measure says. *)
Lemma while_measure (m : S -> nat) :
  (forall s, cond s = true -> (m (body s) < m s)%nat) ->
  forall fuel s, (m s <= fuel)%nat ->
  exists s' n, while fuel cond body s = Some (s', n) /\ (n <= m s)%nat /\
               cond s' = false.
Proof.
  intros Hdec. induction fuel as [|fuel IH]; intros s Hm.
  - simpl. destruct (cond s) eqn:Hc.
    + specialize (Hdec s Hc). lia.
    + exists s, O. auto with lia.
  - simpl. destruct (cond s) eqn:Hc.
    + specialize (Hdec s Hc).
      destruct (IH (body s)) as (s' & n & Hw & Hn & Hc'); [lia|].
      rewrite Hw. exists s', (Datatypes.S n). repeat split; [lia|assumption].
    + exists s, O. auto with lia.
Qed.

(** The final state is the [n]-th iterate of the body, and the guard held
    before each of the [n] iterations. *)
Lemma while_iter fuel s s' n :
  while fuel cond body s = Some (s', n) ->
  s' = Nat.iter n body s /\ cond s' = false /\
  forall j, (j < n)%nat -> cond (Nat.iter j body s) = true.
Proof.
  revert s s' n. induction fuel as [|fuel IH]; intros s s' n; simpl.
  - destruct (cond s) eqn:Hc; [discriminate|]. intros [= <- <-].
    repeat split; [assumption|]. intros j Hj. lia.
  - destruct (cond s) eqn:Hc.
    + destruct (while fuel cond body (body s)) as [[s1 n1]|] eqn:Hw; [|discriminate].
      intros [= <- <-]. destruct (IH _ _ _ Hw) as (Hs & Hc' & Hj).
      repeat split.
      * rewrite Hs. symmetry. apply Nat.iter_succ_r.
      * assumption.
      * intros [|j] Hlt; [exact Hc|]. rewrite Nat.iter_succ_r. apply Hj. lia.
    + intros [= <- <-]. repeat split; [assumption|]. intros j Hj. lia.
Qed.

End WhileFacts.

Section SortFacts.
Context {A : Type} (after : A -> A -> bool).

Lemma sort_insert_perm x l : Permutation (sort_insert after x l) (x :: l).
Proof.
  induction l as [|y l IH]; simpl; [reflexivity|].
  destruct (after x y); [|reflexivity].
  rewrite IH. apply perm_swap.
Qed.

Lemma Array_sort_perm l : Permutation (Array_sort after l) l.
Proof.
  induction l as [|x l IH]; simpl; [reflexivity|].
  rewrite sort_insert_perm. constructor. exact IH.
Qed.

Lemma Array_sort_length l : length (Array_sort after l) = length l.
Proof. apply Permutation_length, Array_sort_perm. Qed.

(** Stability: an element only moves past elements that differ from it in
    the sort key, so a class [P] of elements that are never moved past each
    other keeps its order. *)
Lemma sort_insert_filter (P : A -> bool) x l :
  (forall y, after x y = true -> P x = true -> P y = false) ->
  List.filter P (sort_insert after x l) = List.filter P (x :: l).
Proof.
  intros HP. induction l as [|y l IH]; [reflexivity|].
  simpl sort_insert. destruct (after x y) eqn:Ha; [|reflexivity].
  simpl in *. rewrite IH. destruct (P x) eqn:Hx; [|reflexivity].
  rewrite (HP y Ha eq_refl). reflexivity.
Qed.

Lemma Array_sort_filter (P : A -> bool) l :
  (forall x y, after x y = true -> P x = true -> P y = false) ->
  List.filter P (Array_sort after l) = List.filter P l.
Proof.
  intros HP. induction l as [|x l IH]; [reflexivity|].
  simpl Array_sort. rewrite sort_insert_filter by (apply HP).
  simpl. rewrite IH. reflexivity.
Qed.

(** Sortedness, for a comparison that is asymmetric and whose negation is
    transitive (a strict weak order). *)
Hypothesis after_asym : forall x y, after x y = true -> after y x = false.
Hypothesis after_trans :
  forall x y z, after x y = false -> after y z = false -> after x z = false.

Lemma sort_insert_sorted x l :
  StronglySorted (fun a b => after a b = false) l ->
  StronglySorted (fun a b => after a b = false) (sort_insert after x l).
Proof.
  induction 1 as [|y l Hs IH Hall]; simpl.
  - repeat constructor.
  - destruct (after x y) eqn:Ha.
    + constructor; [exact IH|].
      rewrite sort_insert_perm. constructor; [auto|exact Hall].
    + constructor; [constructor; assumption|].
      constructor; [exact Ha|].
      eapply Forall_impl; [exact Hall|]. intros z Hz. simpl in Hz. eauto.
Qed.

Lemma Array_sort_sorted l :
  StronglySorted (fun a b => after a b = false) (Array_sort after l).
Proof.
  induction l as [|x l IH]; simpl; [constructor|].
  apply sort_insert_sorted, IH.
Qed.

Lemma StronglySorted_weaken (R R' : A -> A -> Prop) l :
  (forall a b, R a b -> R' a b) -> StronglySorted R l -> StronglySorted R' l.
Proof.
  intros HR. induction 1 as [|x l Hs IH Hall]; constructor; [exact IH|].
  eapply Forall_impl; [exact Hall|]. intros y. apply HR.
Qed.

End SortFacts.

(* ===================================================================== *)
(** * Facts about exact arithmetic *)
(* ===================================================================== *)

Module NumFacts.
Local Open Scope Q_scope.

Lemma add_eq a b : Num.add a b == a + b.
Proof. apply Qred_correct. Qed.

Lemma sub_eq a b : Num.sub a b == a - b.
Proof. apply Qred_correct. Qed.

Lemma mul_eq a b : Num.mul a b == a * b.
Proof. apply Qred_correct. Qed.

Lemma div_eq a b : Num.div a b == a / b.
Proof. apply Qred_correct. Qed.

Lemma gt_true a b : Num.gt a b = true <-> b < a.
Proof.
  unfold Num.gt. destruct (Qlt_le_dec b a) as [H|H]; split; auto.
  - discriminate.
  - intros H'. exfalso. apply (Qlt_not_le _ _ H'), H.
Qed.

Lemma gt_false a b : Num.gt a b = false <-> a <= b.
Proof.
  unfold Num.gt. destruct (Qlt_le_dec b a) as [H|H]; split; auto.
  - discriminate.
  - intros H'. exfalso. apply (Qlt_not_le _ _ H), H'.
Qed.

Lemma round_integer (x : Q) (k : Z) : x == inject_Z k -> Num.round x = inject_Z k.
Proof.
  intros Hx. unfold Num.round. f_equal.
  assert (H1 := Qfloor_le (x + (1 # 2))).
  assert (H2 := Qlt_floor (x + (1 # 2))).
  set (f := Qfloor (x + (1 # 2))) in *.
  rewrite Hx in H1, H2.
  assert (inject_Z f < inject_Z (k + 1)) as Hlt.
  { rewrite inject_Z_plus. eapply Qle_lt_trans; [exact H1|].
    apply Qplus_lt_r. reflexivity. }
  assert (inject_Z k < inject_Z (f + 1)) as Hlt'.
  { eapply Qle_lt_trans; [|exact H2].
    rewrite <- (Qplus_0_r (inject_Z k)) at 1. apply Qplus_le_r. discriminate. }
  rewrite <- Zlt_Qlt in Hlt, Hlt'. lia.
Qed.

Lemma cents_zero : cents 0.
Proof. exists 0%Z. reflexivity. Qed.

Lemma cents_round2 x : cents (Num.round2 x).
Proof.
  exists (Qfloor (Num.mul x 100 + (1 # 2))).
  unfold Num.round2. rewrite div_eq. reflexivity.
Qed.

Lemma cents_sub a b : cents a -> cents b -> cents (Num.sub a b).
Proof.
  intros [ka Ha] [kb Hb]. exists (ka - kb)%Z.
  rewrite sub_eq, Ha, Hb. unfold Zminus. rewrite inject_Z_plus, inject_Z_opp.
  field.
Qed.

Lemma round2_cents x : cents x -> Num.round2 x == x.
Proof.
  intros [k Hk]. unfold Num.round2.
  rewrite div_eq, (round_integer _ k); [symmetry; exact Hk|].
  rewrite mul_eq, Hk. field.
Qed.

End NumFacts.

(* ===================================================================== *)
(** * The payoff simulator: termination and the 600-month cap *)
(* ===================================================================== *)

Module PayoffFacts.
Import Payoff.

(** Steps through a bind of the option monad whose argument is known. *)
Ltac step_bind := cbn [mbind option_bind].

(** ** The three loops end within the cap *)

Lemma debt_loop_ends (k : nat) debt monthlyPayment startMonth :
  exists s n,
    debt_loop (600 + k) debt monthlyPayment startMonth = Some (s, n) /\
    (n <= 600)%nat /\ debt_cond startMonth s = false.
Proof.
  unfold debt_loop.
  destruct (while_measure (debt_cond startMonth) (debt_body debt monthlyPayment)
              (fun s => Z.to_nat (maxMonths - (dl_month s - startMonth))))
    with (fuel := (600 + k)%nat) (s := debt_init debt startMonth)
    as (s & n & Hw & Hn & Hc).
  - intros s. unfold debt_cond, maxMonths. rewrite andb_true_iff, Z.ltb_lt.
    intros [_ H]. simpl. lia.
  - unfold maxMonths. simpl. lia.
  - exists s, n. repeat split; [exact Hw| |exact Hc].
    unfold maxMonths in Hn. simpl in Hn. lia.
Qed.

Lemma cascade_body_month availableExtra s :
  currentMonth (cascade_body availableExtra s) = currentMonth s + 1.
Proof.
  unfold cascade_body.
  destruct (apply_payments _ _ _ _ _) as [[rs tip] log]. reflexivity.
Qed.

Lemma cascade_loop_ends (k : nat) sortedDebts extraMonthlyPayment :
  exists c n,
    cascade_loop (600 + k) sortedDebts extraMonthlyPayment = Some (c, n) /\
    (n <= 600)%nat /\ cascade_cond c = false.
Proof.
  unfold cascade_loop.
  destruct (while_measure cascade_cond (cascade_body extraMonthlyPayment)
              (fun s => Z.to_nat (maxMonths - currentMonth s)))
    with (fuel := (600 + k)%nat) (s := cascade_init sortedDebts)
    as (s & n & Hw & Hn & Hc).
  - intros s. unfold cascade_cond, maxMonths. rewrite andb_true_iff, Z.ltb_lt.
    intros [_ H]. rewrite cascade_body_month. lia.
  - unfold maxMonths. simpl. lia.
  - exists s, n. repeat split; [exact Hw| |exact Hc].
    unfold maxMonths in Hn. simpl in Hn. lia.
Qed.

Lemma base_loop_ends (k : nat) debt totalInterest :
  exists s n,
    base_loop (600 + k) debt totalInterest = Some (s, n) /\
    (n <= 600)%nat /\ base_cond s = false.
Proof.
  unfold base_loop.
  destruct (while_measure base_cond (base_body debt)
              (fun s => Z.to_nat (600 - bl_months s)))
    with (fuel := (600 + k)%nat)
         (s := {| bl_balance := balance debt; bl_months := 0;
                  bl_totalInterest := totalInterest |})
    as (s & n & Hw & Hn & Hc).
  - intros s. unfold base_cond. rewrite andb_true_iff, Z.ltb_lt.
    intros [_ H]. simpl. lia.
  - simpl. lia.
  - exists s, n. repeat split; [exact Hw| |exact Hc]. simpl in Hn. lia.
Qed.

(** ** The month counters count the iterations *)

Lemma debt_iter_month debt monthlyPayment startMonth n :
  dl_month (Nat.iter n (debt_body debt monthlyPayment) (debt_init debt startMonth))
  = startMonth + Z.of_nat n.
Proof.
  induction n as [|n IH]; simpl; [lia|].
  rewrite IH. lia.
Qed.

Lemma base_iter_months debt s0 n :
  bl_months (Nat.iter n (base_body debt) s0) = bl_months s0 + Z.of_nat n.
Proof.
  induction n as [|n IH]; simpl; [lia|].
  rewrite IH. lia.
Qed.

Lemma debt_loop_month fuel debt monthlyPayment startMonth s n :
  debt_loop fuel debt monthlyPayment startMonth = Some (s, n) ->
  dl_month s = startMonth + Z.of_nat n.
Proof.
  intros H. apply while_iter in H as (-> & _ & _). apply debt_iter_month.
Qed.

(** ** Every part of [simulatePayoff] returns *)

Lemma replay_returns (k : nat) sortedDebts extra debt :
  exists r, replay (600 + k) sortedDebts extra debt = Some r /\
            0 <= payoffMonth r <= 600.
Proof.
  unfold replay, simulateDebtPayoff.
  destruct (debt_loop_ends k debt
              (Num.add (minPayment debt)
                 (if is_first sortedDebts debt then extra else 0%Q)) 1)
    as (s & n & Hw & Hn & _).
  rewrite Hw. step_bind. eexists. split; [reflexivity|]. simpl.
  rewrite (debt_loop_month _ _ _ _ _ _ Hw). lia.
Qed.

Lemma replays_return (k : nat) sortedDebts extra ds :
  exists rs, mapM (replay (600 + k) sortedDebts extra) ds = Some rs /\
             length rs = length ds /\
             Forall (fun r => 0 <= payoffMonth r <= 600) rs.
Proof.
  induction ds as [|d ds (rs & Hrs & Hlen & Hall)].
  - exists []. repeat split. constructor.
  - destruct (replay_returns k sortedDebts extra d) as (r & Hr & Hm).
    exists (r :: rs). repeat split.
    + apply mapM_Some. constructor; [exact Hr|]. apply mapM_Some, Hrs.
    + simpl. congruence.
    + constructor; assumption.
Qed.

Lemma baseline_debts_returns (k : nat) ds totalInterest maxM :
  0 <= maxM <= 600 ->
  exists ti mm, baseline_debts (600 + k) ds totalInterest maxM = Some (ti, mm) /\
                0 <= mm <= 600.
Proof.
  revert totalInterest maxM.
  induction ds as [|d ds IH]; intros totalInterest maxM HmaxM.
  - exists totalInterest, maxM. split; [reflexivity|assumption].
  - cbn [baseline_debts].
    destruct (base_loop_ends k d totalInterest) as (s & n & Hw & Hn & _).
    rewrite Hw. step_bind.
    apply IH.
    unfold base_loop in Hw. apply while_iter in Hw as (-> & _ & _).
    rewrite base_iter_months. simpl. lia.
Qed.

Lemma baseline_returns (k : nat) ds :
  exists b, simulatePayoffBaseline (600 + k) ds = Some b /\
            0 <= base_totalMonths b <= 600.
Proof.
  unfold simulatePayoffBaseline.
  destruct (baseline_debts_returns k ds 0%Q 0) as (ti & mm & H & Hmm); [lia|].
  rewrite H. step_bind. eexists. split; [reflexivity|assumption].
Qed.

Lemma fold_max_bounds (lo hi : Z) xs x :
  lo <= x <= hi -> Forall (fun y => lo <= y <= hi) xs ->
  lo <= fold_left Z.max xs x <= hi.
Proof.
  revert x. induction xs as [|y xs IH]; intros x Hx Hall; [exact Hx|].
  inversion Hall; subst. simpl. apply IH; [lia|assumption].
Qed.

Lemma Math_max_bounds (lo hi : Z) xs :
  xs <> [] -> Forall (fun y => lo <= y <= hi) xs ->
  exists m, Math_max xs = Some m /\ lo <= m <= hi.
Proof.
  destruct xs as [|x xs]; [congruence|]. intros _ Hall.
  inversion Hall; subst. eexists. split; [reflexivity|].
  apply fold_max_bounds; assumption.
Qed.

Lemma sorted_by_length strategy ds : length (sorted_by strategy ds) = length ds.
Proof. destruct strategy; apply Array_sort_length. Qed.

(** [simulatePayoff] returns for every input, with [totalMonths] within the
    cap and [totalInterestPaid] a whole number of hundredths. *)
Lemma simulatePayoff_returns (k : nat) ds strategy extra :
  exists r, simulatePayoff (600 + k) ds strategy extra = Some r /\
            0 <= totalMonths r <= 600 /\
            cents (totalInterestPaid r).
Proof.
  unfold simulatePayoff.
  destruct (length ds =? 0)%nat eqn:Hlen.
  - eexists. split; [reflexivity|]. simpl. split; [lia|apply NumFacts.cents_zero].
  - apply Nat.eqb_neq in Hlen.
    destruct (cascade_loop_ends k (sorted_by strategy ds) extra)
      as (c & n & Hc & _ & _).
    rewrite Hc. step_bind.
    destruct (replays_return k (sorted_by strategy ds) extra (sorted_by strategy ds))
      as (rs & Hrs & Hrlen & Hall).
    rewrite Hrs. step_bind.
    destruct (baseline_returns k ds) as (b & Hb & _).
    rewrite Hb. step_bind.
    destruct (Math_max_bounds 0 600 (map payoffMonth rs)) as (m & Hm & Hbound).
    + rewrite sorted_by_length in Hrlen. destruct rs; simpl in *; [lia|discriminate].
    + apply List.Forall_map. exact Hall.
    + rewrite Hm. step_bind. eexists. split; [reflexivity|]. simpl.
      split; [assumption|apply NumFacts.cents_round2].
Qed.

(** ** Fuel beyond 600 changes nothing *)

Lemma debt_loop_fuel (k : nat) debt monthlyPayment startMonth :
  debt_loop (600 + k) debt monthlyPayment startMonth
  = debt_loop 600 debt monthlyPayment startMonth.
Proof.
  destruct (debt_loop_ends 0 debt monthlyPayment startMonth)
    as (s & n & Hw & _).
  change (600 + 0)%nat with 600%nat in Hw. rewrite Hw.
  apply (while_fuel_mono _ _ 600); [exact Hw|lia].
Qed.

Lemma cascade_loop_fuel (k : nat) sortedDebts extra :
  cascade_loop (600 + k) sortedDebts extra = cascade_loop 600 sortedDebts extra.
Proof.
  destruct (cascade_loop_ends 0 sortedDebts extra)
    as (s & n & Hw & _).
  change (600 + 0)%nat with 600%nat in Hw. rewrite Hw.
  apply (while_fuel_mono _ _ 600); [exact Hw|lia].
Qed.

Lemma base_loop_fuel (k : nat) debt totalInterest :
  base_loop (600 + k) debt totalInterest = base_loop 600 debt totalInterest.
Proof.
  destruct (base_loop_ends 0 debt totalInterest)
    as (s & n & Hw & _).
  change (600 + 0)%nat with 600%nat in Hw. rewrite Hw.
  apply (while_fuel_mono _ _ 600); [exact Hw|lia].
Qed.

Lemma baseline_debts_fuel (k : nat) ds totalInterest maxM :
  baseline_debts (600 + k) ds totalInterest maxM
  = baseline_debts 600 ds totalInterest maxM.
Proof.
  revert totalInterest maxM. induction ds as [|d ds IH]; intros ti mm; [reflexivity|].
  cbn [baseline_debts]. rewrite base_loop_fuel.
  destruct (base_loop 600 d ti) as [[s n]|]; [|reflexivity].
  step_bind. apply IH.
Qed.

Lemma simulatePayoff_fuel (k : nat) ds strategy extra :
  simulatePayoff (600 + k) ds strategy extra = simulatePayoff 600 ds strategy extra.
Proof.
  unfold simulatePayoff, simulatePayoffBaseline.
  rewrite cascade_loop_fuel, baseline_debts_fuel.
  rewrite (mapM_ext (replay (600 + k) (sorted_by strategy ds) extra)
             (replay 600 (sorted_by strategy ds) extra)); [reflexivity|].
  intros d. unfold replay, simulateDebtPayoff. rewrite debt_loop_fuel. reflexivity.
Qed.

End PayoffFacts.

(* ===================================================================== *)
(** * The payoff simulator: amortization *)
(* ===================================================================== *)

Module Amortization.
Import Payoff.
Local Open Scope Q_scope.

(** One month of a debt that is paid [mp], where [mp] exceeds the monthly
    interest on [B] and the balance [b] is at most [B]: the balance goes
    down, and not below zero. *)
Lemma next_balance_decreases (B b a mp : Q) :
  0 <= a -> B * a < mp * 12 -> Num.cent < b -> b <= B ->
  let i := calculateMonthlyInterest b a in
  let b' := Num.max 0 (Num.sub b (Num.sub (Num.min mp (Num.add b i)) i)) in
  0 <= b' /\ b' < b.
Proof.
  intros Ha Hmp Hb HbB i b'.
  assert (Hi : i == b * (a / 12)).
  { unfold i, calculateMonthlyInterest.
    rewrite NumFacts.mul_eq, NumFacts.div_eq. reflexivity. }
  assert (Hb0 : 0 < b).
  { eapply Qlt_trans; [|exact Hb]. reflexivity. }
  assert (Hlt : i < mp).
  { assert (b * a <= B * a) by (apply Qmult_le_compat_r; assumption).
    assert (Hi12 : i * 12 == b * a) by (rewrite Hi; field).
    apply Qmult_lt_r with (z := 12); [reflexivity|].
    rewrite Hi12. eapply Qle_lt_trans; eassumption. }
  clearbody i. unfold b', Num.max, Num.min.
  pose proof (Q.min_spec mp (Num.add b i)) as Hmin.
  set (p := Qmin mp (Num.add b i)) in *.
  pose proof (Q.max_spec 0 (Num.sub b (Num.sub p i))) as Hmax.
  set (m := Qmax 0 (Num.sub b (Num.sub p i))) in *.
  rewrite !NumFacts.sub_eq in Hmax. rewrite NumFacts.add_eq in Hmin.
  clearbody p m.
  destruct Hmin as [[? ?]|[? ?]], Hmax as [[? ?]|[? ?]]; lra.
Qed.

(** A run of a loop whose body lowers [bal] as [next_balance_decreases]
    says, as long as the guard holds, and whose guard asks for a balance
    above one hundredth. *)
Lemma run_decreases {S : Type} (bal : S -> Q) (cond : S -> bool) (body : S -> S)
    (B : Q) (s0 : S) (n : nat) :
  bal s0 <= B ->
  (forall s, cond s = true -> Num.cent < bal s) ->
  (forall s, Num.cent < bal s -> bal s <= B -> bal (body s) < bal s) ->
  (forall j, (j < n)%nat -> cond (Nat.iter j body s0) = true) ->
  decreasing_run bal body s0 n.
Proof.
  intros H0 Hcond Hstep Hguard.
  assert (Hinv : forall j, (j <= n)%nat -> bal (Nat.iter j body s0) <= B).
  { induction j as [|j IH]; intros Hj; [exact H0|].
    simpl. apply Qlt_le_weak. eapply Qlt_le_trans.
    - apply Hstep; [apply Hcond, Hguard; lia|apply IH; lia].
    - apply IH. lia. }
  intros j Hj. simpl. apply Hstep; [apply Hcond, Hguard; lia|apply Hinv; lia].
Qed.

Lemma debt_cond_balance startMonth s :
  debt_cond startMonth s = true -> Num.cent < dl_balance s.
Proof.
  unfold debt_cond. rewrite andb_true_iff. intros [H _].
  apply NumFacts.gt_true, H.
Qed.

Lemma base_cond_balance s : base_cond s = true -> Num.cent < bl_balance s.
Proof.
  unfold base_cond. rewrite andb_true_iff. intros [H _].
  apply NumFacts.gt_true, H.
Qed.

(** The isolated replay of a debt on its minimum payment. *)
Lemma isolated_replay_decreases (k : nat) (d : DebtForPayoff) :
  0 <= apr d -> balance d * apr d < minPayment d * 12 ->
  exists s n,
    debt_loop (600 + k) d (minPayment d) 1 = Some (s, n) /\
    (n <= 600)%nat /\
    decreasing_run dl_balance (debt_body d (minPayment d)) (debt_init d 1) n /\
    (dl_balance s <= Num.cent \/ n = 600%nat).
Proof.
  intros Ha Hmp.
  destruct (PayoffFacts.debt_loop_ends k d (minPayment d) 1)
    as (s & n & Hw & Hn & Hc).
  exists s, n. repeat split; [exact Hw|exact Hn| |].
  - unfold debt_loop in Hw. apply while_iter in Hw as (_ & _ & Hguard).
    apply run_decreases with (cond := debt_cond 1) (B := balance d).
    + apply Qle_refl.
    + apply debt_cond_balance.
    + intros s1 H1 H2.
      apply (next_balance_decreases (balance d) (dl_balance s1) (apr d)
               (minPayment d)); assumption.
    + exact Hguard.
  - pose proof (PayoffFacts.debt_loop_month _ _ _ _ _ _ Hw) as Hmonth.
    unfold debt_cond in Hc. apply andb_false_iff in Hc as [Hc|Hc].
    + left. apply NumFacts.gt_false, Hc.
    + right. apply Z.ltb_ge in Hc. unfold maxMonths in Hc. lia.
Qed.

(** The baseline loop of a debt. *)
Lemma baseline_decreases (k : nat) (d : DebtForPayoff) (totalInterest : Q) :
  0 <= apr d -> balance d * apr d < minPayment d * 12 ->
  exists s n,
    base_loop (600 + k) d totalInterest = Some (s, n) /\
    (n <= 600)%nat /\
    decreasing_run bl_balance (base_body d)
      {| bl_balance := balance d; bl_months := 0;
         bl_totalInterest := totalInterest |} n /\
    (bl_balance s <= Num.cent \/ n = 600%nat).
Proof.
  intros Ha Hmp.
  destruct (PayoffFacts.base_loop_ends k d totalInterest)
    as (s & n & Hw & Hn & Hc).
  exists s, n. repeat split; [exact Hw|exact Hn| |].
  - unfold base_loop in Hw. apply while_iter in Hw as (_ & _ & Hguard).
    apply run_decreases with (cond := base_cond) (B := balance d).
    + apply Qle_refl.
    + apply base_cond_balance.
    + intros s1 H1 H2.
      apply (next_balance_decreases (balance d) (bl_balance s1) (apr d)
               (minPayment d)); assumption.
    + exact Hguard.
  - unfold base_loop in Hw. apply while_iter in Hw as (Hs & _ & _).
    pose proof (PayoffFacts.base_iter_months d
      {| bl_balance := balance d; bl_months := 0;
         bl_totalInterest := totalInterest |} n) as Hmonths.
    rewrite <- Hs in Hmonths. simpl in Hmonths.
    unfold base_cond in Hc. apply andb_false_iff in Hc as [Hc|Hc].
    + left. apply NumFacts.gt_false, Hc.
    + right. apply Z.ltb_ge in Hc. lia.
Qed.

End Amortization.

(* ===================================================================== *)
(** * The payoff simulator: the two orderings *)
(* ===================================================================== *)

Module OrderingFacts.
Import Payoff.

Lemma by_apr_desc_spec a b :
  (by_apr_desc a b = true <-> (apr a < apr b)%Q) /\
  (by_apr_desc a b = false <-> (apr b <= apr a)%Q).
Proof.
  unfold by_apr_desc. rewrite NumFacts.gt_true, NumFacts.gt_false, NumFacts.sub_eq.
  split; split; intros; lra.
Qed.

Lemma by_balance_asc_spec a b :
  (by_balance_asc a b = true <-> (balance b < balance a)%Q) /\
  (by_balance_asc a b = false <-> (balance a <= balance b)%Q).
Proof.
  unfold by_balance_asc.
  rewrite NumFacts.gt_true, NumFacts.gt_false, NumFacts.sub_eq.
  split; split; intros; lra.
Qed.

Lemma sortForAvalanche_spec (ds : list DebtForPayoff) :
  Permutation (sortForAvalanche ds) ds /\
  StronglySorted (fun a b => (apr b <= apr a)%Q) (sortForAvalanche ds) /\
  (forall key : Q,
     List.filter (fun d => Qeq_bool (apr d) key) (sortForAvalanche ds)
     = List.filter (fun d => Qeq_bool (apr d) key) ds).
Proof.
  unfold sortForAvalanche. repeat split.
  - apply Array_sort_perm.
  - apply StronglySorted_weaken with (R := fun a b => by_apr_desc a b = false).
    + intros a b. apply by_apr_desc_spec.
    + apply Array_sort_sorted.
      * intros x y Hxy. apply by_apr_desc_spec. apply by_apr_desc_spec in Hxy.
        apply Qlt_le_weak, Hxy.
      * intros x y z Hxy Hyz. apply by_apr_desc_spec.
        apply by_apr_desc_spec in Hxy. apply by_apr_desc_spec in Hyz.
        eapply Qle_trans; eassumption.
  - intros key. apply Array_sort_filter.
    intros x y Hxy Hx. apply by_apr_desc_spec in Hxy. apply Qeq_bool_iff in Hx.
    destruct (Qeq_bool (apr y) key) eqn:Hy; [|reflexivity].
    apply Qeq_bool_iff in Hy. lra.
Qed.

Lemma sortForSnowball_spec (ds : list DebtForPayoff) :
  Permutation (sortForSnowball ds) ds /\
  StronglySorted (fun a b => (balance a <= balance b)%Q) (sortForSnowball ds) /\
  (forall key : Q,
     List.filter (fun d => Qeq_bool (balance d) key) (sortForSnowball ds)
     = List.filter (fun d => Qeq_bool (balance d) key) ds).
Proof.
  unfold sortForSnowball. repeat split.
  - apply Array_sort_perm.
  - apply StronglySorted_weaken with (R := fun a b => by_balance_asc a b = false).
    + intros a b. apply by_balance_asc_spec.
    + apply Array_sort_sorted.
      * intros x y Hxy. apply by_balance_asc_spec. apply by_balance_asc_spec in Hxy.
        apply Qlt_le_weak, Hxy.
      * intros x y z Hxy Hyz. apply by_balance_asc_spec.
        apply by_balance_asc_spec in Hxy. apply by_balance_asc_spec in Hyz.
        eapply Qle_trans; eassumption.
  - intros key. apply Array_sort_filter.
    intros x y Hxy Hx. apply by_balance_asc_spec in Hxy. apply Qeq_bool_iff in Hx.
    destruct (Qeq_bool (balance y) key) eqn:Hy; [|reflexivity].
    apply Qeq_bool_iff in Hy. lra.
Qed.

(** On the store: the result is a fresh array, every array of the store,
    the argument included, is left as it was. *)
Lemma sort_copy_in_store (after : DebtForPayoff -> DebtForPayoff -> bool)
    (σ : gmap positive (list DebtForPayoff)) (a : positive) (ds : list DebtForPayoff) :
  let σ0 := <[a := ds]> σ in
  let copy := fresh (dom σ0) in
  copy_and_sort after σ0 a = Some (copy, <[copy := Array_sort after ds]> σ0).
Proof.
  intros σ0 copy.
  assert (Ha : σ0 !! a = Some ds) by apply lookup_insert_eq.
  unfold copy_and_sort, spread. rewrite Ha. PayoffFacts.step_bind.
  unfold sort_in_place. fold copy. rewrite lookup_insert_eq.
  PayoffFacts.step_bind. rewrite insert_insert_eq. reflexivity.
Qed.

End OrderingFacts.

(* ===================================================================== *)
(** * The payoff simulator: who gets the extra payment *)
(* ===================================================================== *)

Module CascadeFacts.
Import Payoff.

Lemma skip_not_unpaid d :
  paid d || Num.le (currentBalance d) Num.cent = negb (unpaid d).
Proof.
  unfold unpaid, Num.le. destruct (paid d), (Num.gt _ _); reflexivity.
Qed.

Lemma find_app_skip {A : Type} (f : A -> bool) l1 l2 :
  Forall (fun x => f x = false) l1 -> List.find f (l1 ++ l2) = List.find f l2.
Proof.
  induction 1 as [|x l1 Hx _ IH]; [reflexivity|]. simpl. rewrite Hx. exact IH.
Qed.

Lemma find_app_found {A : Type} (f : A -> bool) l1 l2 x :
  List.find f l1 = Some x -> List.find f (l1 ++ l2) = Some x.
Proof.
  induction l1 as [|y l1 IH]; [discriminate|]. simpl.
  destruct (f y); [trivial|exact IH].
Qed.

(** The loop over the debts keeps the debts in place: it only updates
    balances and paid flags. *)
Lemma apply_payments_ids totalExtra todo :
  forall done tip log rs' tip' log',
    apply_payments totalExtra done todo tip log = (rs', tip', log') ->
    exists todo', rs' = done ++ todo' /\ debt_ids todo' = debt_ids todo.
Proof.
  induction todo as [|d rest IH]; intros done tip log rs' tip' log'; simpl.
  - intros [= <- _ _]. exists []. rewrite app_nil_r. auto.
  - destruct (paid d || Num.le (currentBalance d) Num.cent).
    + intros H. apply IH in H as (todo' & -> & Hids).
      exists (d :: todo'). rewrite <- app_assoc. simpl. split; [reflexivity|].
      unfold debt_ids in *. simpl. congruence.
    + intros H. apply IH in H as (todo' & -> & Hids).
      eexists (_ :: todo'). rewrite <- app_assoc. simpl. split; [reflexivity|].
      unfold debt_ids in *. simpl. rewrite Hids.
      destruct (Num.le _ Num.cent); reflexivity.
Qed.

(** Once an unpaid debt [q] has been visited and is still unpaid, no debt
    visited later in the month gets the extra amount. *)
Lemma after_priority_no_extra totalExtra q todo :
  forall done tip log rs' tip' log',
    List.find unpaid done = Some q ->
    Forall (fun k => k <> id (rd_debt q)) (debt_ids todo) ->
    apply_payments totalExtra done todo tip log = (rs', tip', log') ->
    exists more, log' = log ++ more /\ Forall (fun e => pay_extra e = false) more.
Proof.
  induction todo as [|d rest IH]; intros done tip log rs' tip' log' Hq Hne; simpl.
  - intros [= _ _ <-]. exists []. rewrite app_nil_r. auto.
  - inversion Hne as [|k ks Hd Hrest]; subst.
    destruct (paid d || Num.le (currentBalance d) Num.cent).
    + apply IH; [apply find_app_found, Hq|exact Hrest].
    + rewrite (find_app_found _ _ _ _ Hq). cbn [is_priority].
      destruct (String.eqb_spec (id (rd_debt d)) (id (rd_debt q))) as [E|_];
        [contradiction|].
      intros H. apply IH in H as (more & -> & Hmore);
        [|apply find_app_found, Hq|exact Hrest].
      eexists (_ :: more). rewrite <- app_assoc. split; [reflexivity|].
      constructor; [reflexivity|exact Hmore].
Qed.

(** A month in which the first unpaid debt [p] is not paid off: the extra
    amount is added to the payment of [p] and of no other debt. *)
Lemma extra_to_surviving_priority_only totalExtra todo :
  forall done tip rs' tip' log' p,
    Forall (fun d => unpaid d = false) done ->
    NoDup (debt_ids todo) ->
    List.find unpaid todo = Some p ->
    apply_payments totalExtra done todo tip [] = (rs', tip', log') ->
    (exists amount others,
       log' = {| pay_id := id (rd_debt p); pay_extra := true;
                 pay_amount := amount |} :: others /\
       Forall (fun e => pay_extra e = false) others) \/
    (forall p', List.find unpaid rs' = Some p' ->
                id (rd_debt p') <> id (rd_debt p)).
Proof.
  induction todo as [|d rest IH]; intros done tip rs' tip' log' p Hdone Hnd Hp;
    [discriminate|].
  cbn [apply_payments]. rewrite skip_not_unpaid.
  cbn [List.find] in Hp. inversion Hnd as [|k ks Hnotin Hnd']; subst.
  destruct (unpaid d) eqn:Hd; cbn [negb].
  - injection Hp as <-.
    rewrite (find_app_skip _ _ _ Hdone). cbn [List.find]. rewrite Hd.
    cbn [is_priority]. rewrite String.eqb_refl.
    set (interest := calculateMonthlyInterest (currentBalance d) (apr (rd_debt d))).
    set (payment := Num.min (Num.add (minPayment (rd_debt d)) totalExtra)
                      (Num.add (currentBalance d) interest)).
    set (cb := Num.max 0 (Num.sub (currentBalance d) (Num.sub payment interest))).
    assert (Hrest : Forall (fun k => k <> id (rd_debt d)) (debt_ids rest)).
    { apply List.Forall_forall. intros k Hk ->. apply Hnotin.
      apply list_elem_of_In, Hk. }
    destruct (Num.le cb Num.cent) eqn:Hcb.
    + intros H. right. intros p' Hp'.
      apply apply_payments_ids in H as (todo' & -> & Hids).
      rewrite find_app_skip in Hp'.
      * apply find_some in Hp' as [Hin _].
        assert (In (id (rd_debt p')) (debt_ids rest)) as Hin'.
        { rewrite <- Hids. unfold debt_ids. apply in_map_iff. eauto. }
        rewrite List.Forall_forall in Hrest. apply (Hrest _ Hin').
      * apply Forall_app. split; [exact Hdone|]. repeat constructor.
    + intros H. left.
      apply (after_priority_no_extra totalExtra
               {| rd_debt := rd_debt d; currentBalance := cb; paid := paid d |})
        in H as (more & -> & Hmore).
      * eexists _, more. split; [reflexivity|exact Hmore].
      * rewrite find_app_skip by exact Hdone. cbn [List.find].
        unfold unpaid in *. cbn [paid currentBalance].
        apply andb_true_iff in Hd as [Hpaid _]. rewrite Hpaid.
        unfold Num.le in Hcb. apply negb_false_iff in Hcb. rewrite Hcb.
        reflexivity.
      * exact Hrest.
  - apply IH; [|exact Hnd'|exact Hp].
    apply Forall_app. split; [exact Hdone|]. repeat constructor. exact Hd.
Qed.

(** The same, for a whole month: when the first unpaid debt of the month is
    still the first unpaid debt after the month, it is the only debt whose
    payment includes the extra amount. *)
Lemma extra_once_when_priority_survives totalExtra rs tip rs' tip' log p p' :
  NoDup (debt_ids rs) ->
  List.find unpaid rs = Some p ->
  apply_payments totalExtra [] rs tip [] = (rs', tip', log) ->
  List.find unpaid rs' = Some p' ->
  id (rd_debt p') = id (rd_debt p) ->
  exists amount others,
    log = {| pay_id := id (rd_debt p); pay_extra := true;
             pay_amount := amount |} :: others /\
    Forall (fun e => pay_extra e = false) others.
Proof.
  intros Hnd Hp Hrun Hp' Hid.
  destruct (extra_to_surviving_priority_only totalExtra rs [] tip rs' tip' log p)
    as [H|H]; try assumption; [constructor|].
  exfalso. exact (H p' Hp' Hid).
Qed.

End CascadeFacts.

(* ===================================================================== *)
(** * The tests of the repository, on the model *)
(* ===================================================================== *)

Module RepositoryTests.
Import Payoff.

Definition sampleDebts : list DebtForPayoff := [
  {| id := "1"; name := "Credit Card"; balance := 50000; apr := 42 # 100;
     minPayment := 5000 |};
  {| id := "2"; name := "Personal Loan"; balance := 200000; apr := 14 # 100;
     minPayment := 8000 |};
  {| id := "3"; name := "Home Loan"; balance := 5000000; apr := 85 # 1000;
     minPayment := 50000 |}
].

(** "should calculate monthly interest correctly": 12% APR on 100000. *)
Example monthly_interest_12_percent :
  calculateMonthlyInterest 100000 (12 # 100) = 1000%Q.
Proof. reflexivity. Qed.

(** "should handle zero balance" *)
Example monthly_interest_zero_balance :
  calculateMonthlyInterest 0 (12 # 100) = 0%Q.
Proof. reflexivity. Qed.

(** "should sort by APR descending" *)
Example avalanche_order :
  map name (sortForAvalanche sampleDebts)
  = ["Credit Card"; "Personal Loan"; "Home Loan"].
Proof. reflexivity. Qed.

(** "should sort by balance ascending" *)
Example snowball_order :
  map name (sortForSnowball sampleDebts)
  = ["Credit Card"; "Personal Loan"; "Home Loan"].
Proof. reflexivity. Qed.

(** The orderings differ when the larger debt is the more expensive one. *)
Example orders_differ :
  let ds := [ {| id := "x"; name := "X"; balance := 10; apr := 1 # 10;
                 minPayment := 1 |};
              {| id := "y"; name := "Y"; balance := 20; apr := 2 # 10;
                 minPayment := 1 |} ] in
  map name (sortForAvalanche ds) = ["Y"; "X"] /\
  map name (sortForSnowball ds) = ["X"; "Y"].
Proof. split; reflexivity. Qed.

(** The first month of the credit card on its minimum payment: interest
    1750, principal 3250, balance 46750. *)
Example credit_card_first_month :
  let d := {| id := "1"; name := "Credit Card"; balance := 50000;
              apr := 42 # 100; minPayment := 5000 |} in
  let s := debt_body d 5000 (debt_init d 1) in
  dl_balance s = 46750%Q /\ dl_totalInterest s = 1750%Q /\ dl_month s = 2 /\
  dl_breakdown s =
    [{| pm_month := 1; pm_balance := 46750; pm_principal := 3250;
        pm_interest := 1750; pm_payment := 5000 |}].
Proof. vm_compute. repeat split. Qed.

(** "should calculate savings rate as percentage", "should handle negative
    savings rate", "should return 0 for zero income" *)
Example savings_rate_tests :
  Js.eq (Cashflow.calculateSavingsRate 50000%Q 200000%Q) 25%Q = true /\
  Js.eq (Cashflow.calculateSavingsRate (-20000)%Q 100000%Q) (-20)%Q = true /\
  Cashflow.calculateSavingsRate 50000%Q 0%Q = Js.Fin 0.
Proof. vm_compute. repeat split. Qed.

(** "should calculate months of runway", "should return Infinity for zero
    burn", "should round to 1 decimal place" *)
Example runway_tests :
  Js.eq (Cashflow.calculateRunway 600000%Q 50000%Q 50000%Q) 6%Q = true /\
  Cashflow.calculateRunway 500000%Q 0%Q 0%Q = Js.Infinity /\
  Js.eq (Cashflow.calculateRunway 500000%Q 45000%Q 25000%Q) (71 # 10)%Q = true.
Proof. vm_compute. repeat split. Qed.

End RepositoryTests.

(* ===================================================================== *)
(** * The payoff simulator: the claims *)
(* ===================================================================== *)

Module PayoffDoubleFacts.
Import PrimFloat PayoffDouble PayoffDoubleExamples.
Local Open Scope float_scope.
#[local] Set Warnings "-inexact-float".

(** The rounding functions on some numbers. *)
Lemma rounding_examples :
  Math_round 2.5 = 3 /\ Math_round (-2.5) = -2 /\ Math_round 2.4999 = 2 /\
  Math_round (-2.5001) = -3 /\ Math_round 0.49999999999999994 = 0 /\
  Math_round (-0.2) = - 0 /\ Math_round 1e300 = 1e300 /\
  Math_floor (-0.5) = -1 /\ Math_floor 7.99 = 7 /\
  round2 1.005 = 1 /\ round2 8339.694999 = 8339.69 /\ round2 2.675 = 2.68 /\
  Math_max 0 (-3) = 0 /\ Math_min 5 2 = 2 /\
  Math_min 0 (- 0) = - 0 /\ Math_max (- 0) 0 = 0.
Proof. vm_compute. repeat split. Qed.

(** C4 as stated fails: for the debts A (balance 39503.48, apr 0.24,
    minimum payment 2000) and B (balance 10000, apr 0.06, minimum payment
    500) and an extra payment of 1000, the total interest is 7339.69 with
    the avalanche strategy and 8339.69 with the snowball strategy.  The
    difference of these two numbers is computed as 1000.0000000000009, which
    exceeds 1000, so the recommendation is avalanche; and it is returned
    rounded to two decimals, as 1000, which does not exceed 1000. *)
Lemma avalanche_at_a_difference_of_1000 :
  exists c,
    compareStrategies 600 [loan_a; loan_b] 1000 = Some c /\
    totalInterestPaid (avalanche c) = 7339.69 /\
    totalInterestPaid (snowball c) = 8339.69 /\
    totalInterestPaid (snowball c) - totalInterestPaid (avalanche c)
    = 1000.0000000000009 /\
    recommendation c = Payoff.Avalanche /\
    interestDifference c = 1000 /\
    (1000 <? interestDifference c) = false.
Proof. vm_compute. eexists. repeat split. Qed.

End PayoffDoubleFacts.

Module PayoffClaims.
Import Payoff PayoffExamples.

(** C1 (the code departs from the claim).  With an extra payment of 100 on
    the debts A (balance 100, minimum 50) and B (balance 1000, minimum 50),
    in snowball order, the first simulated month adds the extra amount to
    two debts: A receives 100 (its minimum plus the extra, capped at its
    balance) and is paid off, after which B is the first unpaid debt when its
    turn comes and receives 150, its minimum plus the whole extra amount
    again, instead of min(minPayment, balance + interest) = 50.  B is left
    with 850 instead of 950. *)
Theorem extra_payment_applied_twice_in_one_month :
  let start := cascade_init (sorted_by Snowball [small_debt; large_debt]) in
  let totalExtra := Num.add 100 (freedPayments (remainingDebts start)) in
  map (fun d => id (rd_debt d)) (remainingDebts start) = ["a"; "b"] /\
  totalExtra = 100%Q /\
  apply_payments totalExtra [] (remainingDebts start) 0 [] =
    ([ {| rd_debt := small_debt; currentBalance := 0; paid := true |};
       {| rd_debt := large_debt; currentBalance := 850; paid := false |} ],
     0%Q,
     [ {| pay_id := "a"; pay_extra := true; pay_amount := 100 |};
       {| pay_id := "b"; pay_extra := true; pay_amount := 150 |} ]) /\
  remainingDebts (cascade_body 100 start) =
    [ {| rd_debt := small_debt; currentBalance := 0; paid := true |};
      {| rd_debt := large_debt; currentBalance := 850; paid := false |} ].
Proof. vm_compute. repeat split. Qed.

(** C3 as stated fails: the debt with balance 1000000, apr 0 and minimum
    payment 1 satisfies minPayment * 12 > balance * apr, yet its simulation
    runs into the cap: [totalMonths] is 600, not less, and after the 600
    months of the isolated replay the balance is still 999400.  And outside
    the documented ranges the balance need not decrease: the debt with
    balance 100, apr -24 and minimum payment -150 satisfies the same
    inequality, and its balance goes from 100 to 50 and back to 100. *)
Lemma amortization_counterexamples :
  ((balance slow_debt * apr slow_debt < minPayment slow_debt * 12)%Q /\
   (exists r, simulatePayoff 600 [slow_debt] Avalanche 0 = Some r /\
              totalMonths r = 600 /\ ~ totalMonths r < 600) /\
   (exists s, debt_loop 600 slow_debt (minPayment slow_debt) 1 = Some (s, 600%nat) /\
              dl_balance s = 999400%Q /\ ~ (dl_balance s <= Num.cent)%Q)) /\
  ((balance negative_rate_debt * apr negative_rate_debt
    < minPayment negative_rate_debt * 12)%Q /\
   let body := debt_body negative_rate_debt (minPayment negative_rate_debt) in
   let s0 := debt_init negative_rate_debt 1 in
   debt_cond 1 s0 = true /\ debt_cond 1 (body s0) = true /\
   dl_balance s0 = 100%Q /\ dl_balance (body s0) = 50%Q /\
   dl_balance (body (body s0)) = 100%Q).
Proof.
  split.
  - split; [reflexivity|]. split.
    + eexists. split; [vm_compute; reflexivity|]. simpl. split; [reflexivity|lia].
    + eexists. split; [vm_compute; reflexivity|]. simpl.
      split; [reflexivity|]. intros H. vm_compute in H. apply H. reflexivity.
  - vm_compute. repeat split.
Qed.

(** C4 (amended).  For every list of debts and every extra payment,
    [compareStrategies] returns; its two simulations are those of
    [simulatePayoff] for the two strategies; [interestDifference] is the
    snowball total interest minus the avalanche total interest, rounded to
    two decimals; and the recommendation is avalanche whenever the returned
    [interestDifference] exceeds 1000 and snowball whenever it is below
    1000.  (At a returned [interestDifference] of 1000 the recommendation
    follows the difference before it is rounded.) *)
Theorem compareStrategies_recommendation (k : nat) (ds : list DebtForPayoff)
    (extra : Q) :
  exists c,
    compareStrategies (600 + k) ds extra = Some c /\
    simulatePayoff (600 + k) ds Avalanche extra = Some (avalanche c) /\
    simulatePayoff (600 + k) ds Snowball extra = Some (snowball c) /\
    interestDifference c =
      Num.round2 (Num.sub (totalInterestPaid (snowball c))
                          (totalInterestPaid (avalanche c))) /\
    ((1000 < interestDifference c)%Q -> recommendation c = Avalanche) /\
    ((interestDifference c < 1000)%Q -> recommendation c = Snowball).
Proof.
  destruct (PayoffFacts.simulatePayoff_returns k ds Avalanche extra)
    as (a & Ha & _ & Hca).
  destruct (PayoffFacts.simulatePayoff_returns k ds Snowball extra)
    as (s & Hs & _ & Hcs).
  unfold compareStrategies. rewrite Ha, Hs. PayoffFacts.step_bind.
  eexists. split; [reflexivity|].
  cbn [avalanche snowball interestDifference recommendation].
  assert (Hround : (Num.round2 (Num.sub (totalInterestPaid s) (totalInterestPaid a))
                    == Num.sub (totalInterestPaid s) (totalInterestPaid a))%Q).
  { apply NumFacts.round2_cents, NumFacts.cents_sub; assumption. }
  split; [reflexivity|]. split; [reflexivity|]. split; [reflexivity|].
  split.
  - intros Hlt. rewrite Hround in Hlt. apply NumFacts.gt_true in Hlt.
    rewrite Hlt. reflexivity.
  - intros Hlt. rewrite Hround in Hlt.
    assert (Hle : (Num.sub (totalInterestPaid s) (totalInterestPaid a) <= 1000)%Q)
      by lra.
    apply NumFacts.gt_false in Hle. rewrite Hle. reflexivity.
Qed.

Lemma compareStrategies_recommendation_witness :
  exists c,
    compareStrategies (600 + 0) [costly_debt; free_debt] 200000 = Some c /\
    interestDifference c = 4000%Q /\
    recommendation c = Avalanche.
Proof.
  destruct (compareStrategies_recommendation 0 [costly_debt; free_debt]
              200000) as (c & Hc & _ & _ & _ & Havalanche & _).
  assert (Hd : interestDifference c = 4000%Q).
  { vm_compute in Hc. injection Hc as <-. reflexivity. }
  exists c. split; [exact Hc|]. split; [exact Hd|].
  apply Havalanche. rewrite Hd. reflexivity.
Defined.

(** C6.  For every debt list, [sortForAvalanche] returns a permutation of
    the input whose apr values are non-increasing and [sortForSnowball] a
    permutation whose balances are non-decreasing; in both, the debts with
    any given sort key are in their input order; and on a store where the
    argument array holds the debts, both functions return a fresh array with
    the sorted debts and leave every array of the store, the argument
    included, unchanged. *)
Theorem strategy_orderings (ds : list DebtForPayoff)
    (σ : gmap positive (list DebtForPayoff)) (a : positive) :
  (Permutation (sortForAvalanche ds) ds /\
   StronglySorted (fun x y => (apr y <= apr x)%Q) (sortForAvalanche ds) /\
   (forall key : Q,
      List.filter (fun d => Qeq_bool (apr d) key) (sortForAvalanche ds)
      = List.filter (fun d => Qeq_bool (apr d) key) ds)) /\
  (Permutation (sortForSnowball ds) ds /\
   StronglySorted (fun x y => (balance x <= balance y)%Q) (sortForSnowball ds) /\
   (forall key : Q,
      List.filter (fun d => Qeq_bool (balance d) key) (sortForSnowball ds)
      = List.filter (fun d => Qeq_bool (balance d) key) ds)) /\
  (let σ0 := <[a := ds]> σ in
   let copy := fresh (dom σ0) in
   σ0 !! copy = None /\ σ0 !! a = Some ds /\
   sortForAvalanche_st σ0 a = Some (copy, <[copy := sortForAvalanche ds]> σ0) /\
   sortForSnowball_st σ0 a = Some (copy, <[copy := sortForSnowball ds]> σ0) /\
   <[copy := sortForAvalanche ds]> σ0 !! a = Some ds /\
   <[copy := sortForSnowball ds]> σ0 !! a = Some ds).
Proof.
  split; [apply OrderingFacts.sortForAvalanche_spec|].
  split; [apply OrderingFacts.sortForSnowball_spec|].
  intros σ0 copy.
  assert (Hfresh : σ0 !! copy = None) by (apply not_elem_of_dom, is_fresh).
  assert (Ha : σ0 !! a = Some ds) by apply lookup_insert_eq.
  assert (Hne : copy <> a) by congruence.
  repeat split; try assumption.
  - apply (OrderingFacts.sort_copy_in_store _ σ a ds).
  - apply (OrderingFacts.sort_copy_in_store _ σ a ds).
  - rewrite lookup_insert_ne by assumption. exact Ha.
  - rewrite lookup_insert_ne by assumption. exact Ha.
Qed.

(** C7.  For every debt list, strategy and extra payment, [simulatePayoff]
    returns: its loops end by their own guards, so that fuel beyond 600 is
    never used; and each simulation loop (the cascading month loop, the
    isolated replay of a debt for any payment and start month, the baseline
    loop of a debt) executes at most 600 iterations. *)
Theorem simulatePayoff_terminates_within_cap (k : nat) (ds : list DebtForPayoff)
    (strategy : Strategy) (extra : Q) :
  (exists r, simulatePayoff (600 + k) ds strategy extra = Some r /\
             simulatePayoff 600 ds strategy extra = Some r) /\
  (exists c n, cascade_loop (600 + k) (sorted_by strategy ds) extra = Some (c, n) /\
               (n <= 600)%nat /\ cascade_cond c = false) /\
  (forall debt monthlyPayment startMonth, exists s n,
     debt_loop (600 + k) debt monthlyPayment startMonth = Some (s, n) /\
     (n <= 600)%nat /\ debt_cond startMonth s = false) /\
  (forall debt totalInterest, exists s n,
     base_loop (600 + k) debt totalInterest = Some (s, n) /\
     (n <= 600)%nat /\ base_cond s = false).
Proof.
  repeat split.
  - destruct (PayoffFacts.simulatePayoff_returns k ds strategy extra) as (r & Hr & _).
    exists r. split; [exact Hr|].
    rewrite <- PayoffFacts.simulatePayoff_fuel with (k := k). exact Hr.
  - apply PayoffFacts.cascade_loop_ends.
  - intros. apply PayoffFacts.debt_loop_ends.
  - intros. apply PayoffFacts.base_loop_ends.
Qed.

(** C9.  For every strategy and every extra payment x,
    [simulatePayoff([], strategy, x)] returns the simulation with no debts,
    [totalMonths] 0 and [totalInterestPaid] 0 (and no savings); it does so
    with any fuel, none included: no loop iteration is performed. *)
Theorem simulatePayoff_empty (fuel : nat) (strategy : Strategy) (x : Q) :
  simulatePayoff fuel [] strategy x =
    Some {| strategy := strategy; extraPayment := x; debts := [];
            totalMonths := 0; totalInterestPaid := 0%Q;
            monthsSaved := 0; interestSaved := 0%Q |}
  /\ simulatePayoff 0 [] strategy x = simulatePayoff fuel [] strategy x.
Proof. split; reflexivity. Qed.

End PayoffClaims.

(* ===================================================================== *)
(** * The rules engine: facts *)
(* ===================================================================== *)

Module RulesFacts.
Import Js Rules.

(** The loop of [evaluateRules] keeps, in order, what the rules raise. *)
Lemma run_rules_omap rules ctx :
  run_rules rules ctx = omap (raised ctx) rules.
Proof.
  unfold run_rules.
  enough (H : forall acc,
    fold_left
      (fun alerts rule =>
         match rule ctx with
         | Returns (Some alert) => alerts ++ [alert]
         | Returns None => alerts
         | Throws => alerts
         end) rules acc = acc ++ omap (raised ctx) rules) by apply (H []).
  induction rules as [|r rules IH]; intros acc; simpl.
  - rewrite app_nil_r. reflexivity.
  - rewrite IH. unfold raised at 2.
    destruct (r ctx) as [[a|]|]; [|reflexivity|reflexivity].
    rewrite <- app_assoc. reflexivity.
Qed.

(** ** The id of the alert of each rule *)

Ltac innermost_case :=
  match goal with
  | |- context [match ?x with _ => _ end] =>
      lazymatch x with
      | context [match _ with _ => _ end] => fail
      | _ => destruct x eqn:?
      end
  end.

Ltac rule_id :=
  intros ctx a; unfold raised; cbv beta zeta;
  repeat innermost_case;
  intros [= <-]; reflexivity.

Lemma checkEmergencyFund_id ctx a :
  raised ctx checkEmergencyFund = Some a -> id a = "emergency-fund".
Proof. revert ctx a. unfold checkEmergencyFund. rule_id. Qed.

Lemma checkCreditCardUtilization_id ctx a :
  raised ctx checkCreditCardUtilization = Some a -> id a = "cc-utilization".
Proof. revert ctx a. unfold checkCreditCardUtilization. rule_id. Qed.

Lemma checkEmiToIncome_id ctx a :
  raised ctx checkEmiToIncome = Some a -> id a = "emi-income-ratio".
Proof. revert ctx a. unfold checkEmiToIncome. rule_id. Qed.

Lemma checkHighAprDebtWithInvestments_id ctx a :
  raised ctx checkHighAprDebtWithInvestments = Some a ->
  id a = "high-apr-with-investments".
Proof. revert ctx a. unfold checkHighAprDebtWithInvestments. rule_id. Qed.

Lemma checkNegativeCashflow_id ctx a :
  raised ctx checkNegativeCashflow = Some a -> id a = "negative-cashflow".
Proof. revert ctx a. unfold checkNegativeCashflow. rule_id. Qed.

Lemma checkSavingsRate_id ctx a :
  raised ctx checkSavingsRate = Some a -> id a = "low-savings-rate".
Proof. revert ctx a. unfold checkSavingsRate. rule_id. Qed.

Lemma checkAllocationDrift_id ctx a :
  raised ctx checkAllocationDrift = Some a -> id a = "allocation-drift".
Proof. revert ctx a. unfold checkAllocationDrift. rule_id. Qed.

Lemma checkNoIncome_id ctx a :
  raised ctx checkNoIncome = Some a -> id a = "no-income".
Proof. revert ctx a. unfold checkNoIncome. rule_id. Qed.

Lemma RULES_ids ctx :
  Forall2 (fun rule k => forall a, raised ctx rule = Some a -> id a = k)
    RULES ALERT_IDS.
Proof.
  unfold RULES, ALERT_IDS. repeat constructor.
  - apply checkEmergencyFund_id.
  - apply checkCreditCardUtilization_id.
  - apply checkEmiToIncome_id.
  - apply checkHighAprDebtWithInvestments_id.
  - apply checkNegativeCashflow_id.
  - apply checkSavingsRate_id.
  - apply checkAllocationDrift_id.
  - apply checkNoIncome_id.
Qed.

(** The ids of the alerts raised are a subsequence of the ids of the
    catalogue. *)
Lemma raised_ids_sublist ctx rules ids :
  Forall2 (fun rule k => forall a, raised ctx rule = Some a -> id a = k) rules ids ->
  sublist (map id (omap (raised ctx) rules)) ids.
Proof.
  induction 1 as [|r k rules ids Hr _ IH]; simpl; [constructor|].
  destruct (raised ctx r) as [a|] eqn:Ha; simpl.
  - rewrite (Hr a eq_refl). apply sublist_skip, IH.
  - apply sublist_cons, IH.
Qed.

(** The alerts with id [k] among the alerts raised, when [k] is the id of
    one rule of the catalogue only. *)
Lemma filter_id_none ctx k rules ids :
  Forall2 (fun rule k' => forall a, raised ctx rule = Some a -> id a = k') rules ids ->
  Forall (fun k' => String.eqb k' k = false) ids ->
  List.filter (has_id k) (omap (raised ctx) rules) = [].
Proof.
  induction 1 as [|r k' rules ids Hr _ IH]; intros Hk; [reflexivity|].
  inversion Hk; subst. simpl.
  destruct (raised ctx r) as [a|] eqn:Ha; [|apply IH; assumption].
  simpl. unfold has_id at 1. rewrite (Hr a eq_refl).
  match goal with H : String.eqb k' k = false |- _ => rewrite H end.
  apply IH. assumption.
Qed.

Lemma filter_id_split ctx k before r after :
  (exists ids, Forall2 (fun rule k' => forall a, raised ctx rule = Some a -> id a = k')
                 before ids /\ Forall (fun k' => String.eqb k' k = false) ids) ->
  (exists ids, Forall2 (fun rule k' => forall a, raised ctx rule = Some a -> id a = k')
                 after ids /\ Forall (fun k' => String.eqb k' k = false) ids) ->
  (forall a, raised ctx r = Some a -> id a = k) ->
  List.filter (has_id k) (omap (raised ctx) (before ++ r :: after))
  = match raised ctx r with Some a => [a] | None => [] end.
Proof.
  intros (ids1 & H1 & Hk1) (ids2 & H2 & Hk2) Hr.
  rewrite omap_app, List.filter_app. simpl.
  rewrite (filter_id_none _ _ _ _ H1 Hk1).
  destruct (raised ctx r) as [a|] eqn:Ha; simpl.
  - unfold has_id at 1. rewrite (Hr a eq_refl), String.eqb_refl.
    f_equal. exact (filter_id_none _ _ _ _ H2 Hk2).
  - apply (filter_id_none _ _ _ _ H2 Hk2).
Qed.

(** ** The severity comparison of [evaluateRules] *)

Lemma by_severity_spec a b :
  by_severity a b = false <->
  severityOrder (severity a) <= severityOrder (severity b).
Proof. unfold by_severity. rewrite Z.gtb_ltb, Z.ltb_ge. lia. Qed.

Lemma evaluateRules_perm ctx :
  Permutation (evaluateRules ctx) (omap (raised ctx) RULES).
Proof.
  unfold evaluateRules. rewrite run_rules_omap. apply Array_sort_perm.
Qed.

Lemma evaluateRules_sorted ctx :
  StronglySorted
    (fun a b => severityOrder (severity a) <= severityOrder (severity b))
    (evaluateRules ctx).
Proof.
  unfold evaluateRules.
  apply StronglySorted_weaken
    with (R := fun a b => by_severity a b = false).
  - intros a b. apply by_severity_spec.
  - apply Array_sort_sorted.
    + intros x y Hxy. apply by_severity_spec.
      destruct (by_severity y x) eqn:Hyx; [|apply by_severity_spec, Hyx].
      unfold by_severity in *. rewrite Z.gtb_ltb, Z.ltb_lt in *. lia.
    + intros x y z Hxy Hyz. apply by_severity_spec.
      apply by_severity_spec in Hxy. apply by_severity_spec in Hyz. lia.
Qed.

Lemma evaluateRules_stable ctx s :
  List.filter (has_severity s) (evaluateRules ctx)
  = List.filter (has_severity s) (run_rules RULES ctx).
Proof.
  unfold evaluateRules. apply Array_sort_filter.
  intros x y Hxy Hx. unfold has_severity, by_severity in *.
  rewrite Z.gtb_ltb, Z.ltb_lt in Hxy. apply Z.eqb_eq in Hx. apply Z.eqb_neq. lia.
Qed.

Lemma StronglySorted_lookup {A : Type} (R : A -> A -> Prop) (l : list A) :
  StronglySorted R l ->
  forall (i j : nat) a b, (i < j)%nat -> l !! i = Some a -> l !! j = Some b -> R a b.
Proof.
  induction 1 as [|x l _ IH Hall]; intros i j a b Hij Hi Hj; [discriminate|].
  destruct j as [|j]; [lia|]. destruct i as [|i]; simpl in Hi, Hj.
  - injection Hi as <-. rewrite Forall_lookup in Hall. eapply Hall, Hj.
  - eapply (IH i j); [lia|eassumption..].
Qed.

Lemma filter_nil_Forall {A : Type} (P : A -> bool) l :
  Forall (fun x => P x = false) l -> List.filter P l = [].
Proof.
  induction 1 as [|x l Hx _ IH]; [reflexivity|]. simpl. rewrite Hx. exact IH.
Qed.

(** A list sorted by severity is its high alerts, then its medium alerts,
    then its low alerts. *)
Lemma sorted_by_severity_blocks (l : list Alert) :
  StronglySorted
    (fun a b => severityOrder (severity a) <= severityOrder (severity b)) l ->
  l = List.filter (has_severity high) l ++ List.filter (has_severity medium) l
      ++ List.filter (has_severity low) l.
Proof.
  induction 1 as [|x l _ IH Hall]; [reflexivity|].
  assert (Hnone : forall s, severityOrder s < severityOrder (severity x) ->
                            List.filter (has_severity s) l = []).
  { intros s Hs. apply filter_nil_Forall.
    eapply Forall_impl; [exact Hall|]. intros y Hy. simpl in Hy.
    unfold has_severity. apply Z.eqb_neq. lia. }
  pose proof (eq_refl : has_severity high x = (severityOrder (severity x) =? 0)) as Eh.
  pose proof (eq_refl : has_severity medium x = (severityOrder (severity x) =? 1)) as Em.
  pose proof (eq_refl : has_severity low x = (severityOrder (severity x) =? 2)) as El.
  cbn [List.filter].
  destruct (severity x) eqn:Hx; simpl in Eh, Em, El, Hnone; rewrite Eh, Em, El.
  - simpl. f_equal. exact IH.
  - rewrite (Hnone high) in * by (simpl; lia). simpl. f_equal. exact IH.
  - rewrite (Hnone high), (Hnone medium) in * by (simpl; lia).
    simpl. f_equal. exact IH.
Qed.

End RulesFacts.

(* ===================================================================== *)
(** * The rules engine and the cashflow helpers: the claims *)
(* ===================================================================== *)

Module RulesClaims.
Import Js Rules RulesExamples.

(** ** Comparisons with zero *)

Lemma lt_zero_cases (x : number) :
  lt x 0%Q = true -> x = NInf \/ exists q, x = Fin q /\ (q < 0)%Q.
Proof.
  destruct x as [q| | |]; simpl; try discriminate; [|auto].
  destruct (Qlt_le_dec q 0); [|discriminate]. intros _. right. eauto.
Qed.

Lemma lt_zero_not_ge (x : number) : lt x 0%Q = true -> ge x 0%Q = false.
Proof.
  intros [->|(q & -> & Hq)]%lt_zero_cases; [reflexivity|].
  unfold ge, le. simpl.
  destruct (Qlt_le_dec 0 q) as [H|H]; [lra|]. simpl.
  destruct (Qeq_bool 0 q) eqn:E; [|reflexivity].
  apply Qeq_bool_iff in E. lra.
Qed.

Lemma filter_perm {A : Type} (P : A -> bool) (l1 l2 : list A) :
  Permutation l1 l2 -> Permutation (List.filter P l1) (List.filter P l2).
Proof.
  induction 1 as [|x l1 l2 _ IH|x y l|l1 l2 l3 _ IH1 _ IH2]; simpl.
  - constructor.
  - destruct (P x); [constructor|]; exact IH.
  - destruct (P x), (P y); try reflexivity. apply perm_swap.
  - etransitivity; eassumption.
Qed.

(** The alerts of [evaluateRules] with the id of the negative cashflow rule,
    and with the id of the savings rate rule. *)
Lemma negative_cashflow_alerts ctx :
  Permutation (List.filter (has_id "negative-cashflow") (evaluateRules ctx))
    (match raised ctx checkNegativeCashflow with Some a => [a] | None => [] end).
Proof.
  rewrite (filter_perm _ _ _ (RulesFacts.evaluateRules_perm ctx)).
  change RULES with
    ([checkEmergencyFund; checkCreditCardUtilization; checkEmiToIncome;
      checkHighAprDebtWithInvestments]
     ++ checkNegativeCashflow
     :: [checkSavingsRate; checkAllocationDrift; checkNoIncome]).
  rewrite RulesFacts.filter_id_split; [reflexivity| | |].
  - exists ["emergency-fund"; "cc-utilization"; "emi-income-ratio";
            "high-apr-with-investments"].
    split; repeat constructor.
    + apply RulesFacts.checkEmergencyFund_id.
    + apply RulesFacts.checkCreditCardUtilization_id.
    + apply RulesFacts.checkEmiToIncome_id.
    + apply RulesFacts.checkHighAprDebtWithInvestments_id.
  - exists ["low-savings-rate"; "allocation-drift"; "no-income"].
    split; repeat constructor.
    + apply RulesFacts.checkSavingsRate_id.
    + apply RulesFacts.checkAllocationDrift_id.
    + apply RulesFacts.checkNoIncome_id.
  - apply RulesFacts.checkNegativeCashflow_id.
Qed.

Lemma low_savings_rate_alerts ctx :
  Permutation (List.filter (has_id "low-savings-rate") (evaluateRules ctx))
    (match raised ctx checkSavingsRate with Some a => [a] | None => [] end).
Proof.
  rewrite (filter_perm _ _ _ (RulesFacts.evaluateRules_perm ctx)).
  change RULES with
    ([checkEmergencyFund; checkCreditCardUtilization; checkEmiToIncome;
      checkHighAprDebtWithInvestments; checkNegativeCashflow]
     ++ checkSavingsRate :: [checkAllocationDrift; checkNoIncome]).
  rewrite RulesFacts.filter_id_split; [reflexivity| | |].
  - exists ["emergency-fund"; "cc-utilization"; "emi-income-ratio";
            "high-apr-with-investments"; "negative-cashflow"].
    split; repeat constructor.
    + apply RulesFacts.checkEmergencyFund_id.
    + apply RulesFacts.checkCreditCardUtilization_id.
    + apply RulesFacts.checkEmiToIncome_id.
    + apply RulesFacts.checkHighAprDebtWithInvestments_id.
    + apply RulesFacts.checkNegativeCashflow_id.
  - exists ["allocation-drift"; "no-income"].
    split; repeat constructor.
    + apply RulesFacts.checkAllocationDrift_id.
    + apply RulesFacts.checkNoIncome_id.
  - apply RulesFacts.checkSavingsRate_id.
Qed.

(** C2 as stated fails: for the context built from no income and expenses
    of 100, the free cashflow is -100 and the savings rate is 0, and
    [evaluateRules] returns the negative cashflow alert together with a
    low savings rate alert (and the alert for a missing income). *)
Lemma low_savings_rate_not_suppressed :
  let ctx := buildRulesContext no_income_data in
  lt (freeCashflow ctx) 0%Q = true /\
  savingsRate ctx = Fin 0 /\
  map (fun a => (id a, severity a)) (evaluateRules ctx)
  = [("negative-cashflow", high); ("low-savings-rate", medium);
     ("no-income", medium)] /\
  List.filter (has_id "low-savings-rate") (evaluateRules ctx) <> [].
Proof. vm_compute. repeat split. discriminate. Qed.

(** C2 (amended).  For every context with [freeCashflow < 0],
    [evaluateRules] returns exactly one alert with id "negative-cashflow",
    of severity high; and it returns no alert with id "low-savings-rate"
    exactly when [savingsRate >= 20] or [savingsRate < 0]. *)
Theorem negative_cashflow_alert (ctx : RulesContext) :
  lt (freeCashflow ctx) 0%Q = true ->
  (exists a, List.filter (has_id "negative-cashflow") (evaluateRules ctx) = [a] /\
             severity a = high) /\
  (List.filter (has_id "low-savings-rate") (evaluateRules ctx) = [] <->
     ge (savingsRate ctx) 20%Q = true \/ lt (savingsRate ctx) 0%Q = true).
Proof.
  intros Hneg. split.
  - pose proof (negative_cashflow_alerts ctx) as Hp.
    unfold raised, checkNegativeCashflow in Hp.
    rewrite (lt_zero_not_ge _ Hneg) in Hp.
    apply Permutation_sym, Permutation_length_1_inv in Hp.
    eexists. split; [exact Hp|reflexivity].
  - pose proof (low_savings_rate_alerts ctx) as Hp.
    apply Permutation_sym in Hp. unfold raised, checkSavingsRate in Hp.
    destruct (ge (savingsRate ctx) 20%Q), (lt (savingsRate ctx) 0%Q); cbv zeta in Hp;
      try (apply Permutation_nil in Hp; rewrite Hp; split; auto).
    apply Permutation_length_1_inv in Hp. rewrite Hp.
    split; [discriminate|]. intros [?|?]; discriminate.
Qed.

Lemma negative_cashflow_alert_witness :
  let ctx := buildRulesContext overspending_data in
  (exists a, List.filter (has_id "negative-cashflow") (evaluateRules ctx) = [a] /\
             severity a = high) /\
  (List.filter (has_id "low-savings-rate") (evaluateRules ctx) = [] <->
     ge (savingsRate ctx) 20%Q = true \/ lt (savingsRate ctx) 0%Q = true).
Proof.
  apply (negative_cashflow_alert (buildRulesContext overspending_data)).
  vm_compute. reflexivity.
Defined.

(** C5.  For every context, the list returned by [evaluateRules] is sorted
    by severity, high before medium before low: no alert of severity high
    comes after an alert of severity medium or low (and none of severity
    medium after one of severity low); the list is its high alerts followed
    by its medium alerts followed by its low alerts; and the alerts of each
    severity are in the order in which the rules of the catalogue raised
    them. *)
Theorem alerts_sorted_by_severity (ctx : RulesContext) :
  StronglySorted
    (fun a b => severityOrder (severity a) <= severityOrder (severity b))
    (evaluateRules ctx) /\
  (forall (i j : nat) a b,
     (i < j)%nat -> evaluateRules ctx !! i = Some a ->
     evaluateRules ctx !! j = Some b ->
     (severity b = high -> severity a = high) /\
     (severity b = medium -> severity a <> low)) /\
  evaluateRules ctx
  = List.filter (has_severity high) (omap (raised ctx) RULES)
    ++ List.filter (has_severity medium) (omap (raised ctx) RULES)
    ++ List.filter (has_severity low) (omap (raised ctx) RULES) /\
  (forall s, List.filter (has_severity s) (evaluateRules ctx)
             = List.filter (has_severity s) (omap (raised ctx) RULES)).
Proof.
  assert (Hstable : forall s, List.filter (has_severity s) (evaluateRules ctx)
                              = List.filter (has_severity s) (omap (raised ctx) RULES)).
  { intros s. rewrite RulesFacts.evaluateRules_stable, RulesFacts.run_rules_omap.
    reflexivity. }
  pose proof (RulesFacts.evaluateRules_sorted ctx) as Hsorted.
  split; [exact Hsorted|]. split; [|split; [|exact Hstable]].
  - intros i j a b Hij Hi Hj.
    pose proof (RulesFacts.StronglySorted_lookup _ _ Hsorted i j a b Hij Hi Hj) as Hle.
    simpl in Hle. destruct (severity a), (severity b); simpl in Hle;
      split; intros; try congruence; lia.
  - rewrite <- !Hstable.
    apply RulesFacts.sorted_by_severity_blocks, Hsorted.
Qed.

(** C10.  For every context, [evaluateRules] returns at most 8 alerts, the
    id of each of them is one of the eight ids of the catalogue, and no id
    occurs twice. *)
Theorem alerts_bounded_and_distinct (ctx : RulesContext) :
  (length (evaluateRules ctx) <= 8)%nat /\
  Forall (fun a => In (id a) ALERT_IDS) (evaluateRules ctx) /\
  NoDup (map id (evaluateRules ctx)).
Proof.
  pose proof (RulesFacts.raised_ids_sublist ctx RULES ALERT_IDS
                (RulesFacts.RULES_ids ctx)) as Hsub.
  pose proof (Permutation_map id (RulesFacts.evaluateRules_perm ctx)) as Hperm.
  assert (Hnodup : NoDup ALERT_IDS).
  { unfold ALERT_IDS. repeat constructor; rewrite ?list_elem_of_In; simpl;
      intuition discriminate. }
  repeat split.
  - rewrite <- (length_map id), (Permutation_length Hperm).
    apply (sublist_length _ _ Hsub).
  - apply List.Forall_forall. intros a Ha.
    apply list_elem_of_In. eapply elem_of_sublist; [|exact Hsub].
    rewrite <- Hperm. apply list_elem_of_In, in_map, Ha.
  - rewrite Hperm. eapply sublist_NoDup; eassumption.
Qed.

(** C8.  With zero expenses and zero EMIs, [calculateRunway] returns
    [Infinity] whatever the liquid assets are, and with zero income
    [calculateSavingsRate] returns 0 whatever the free cashflow is; neither
    result is NaN.  (Both functions are total: there is nothing to throw.) *)
Theorem zero_divisors_are_handled (liquidAssets freeCashflow : number) :
  Cashflow.calculateRunway liquidAssets 0%Q 0%Q = Infinity /\
  Cashflow.calculateSavingsRate freeCashflow 0%Q = Fin 0 /\
  Cashflow.calculateRunway liquidAssets 0%Q 0%Q <> NaN /\
  Cashflow.calculateSavingsRate freeCashflow 0%Q <> NaN.
Proof. repeat split; discriminate. Qed.

End RulesClaims.

(* ===================================================================== *)
(** * Further properties of the payoff simulator *)
(* ===================================================================== *)

Section WhileCompare.
Context {S T : Type} (c1 : S -> bool) (b1 : S -> S) (c2 : T -> bool) (b2 : T -> T).
Context (R : S -> T -> Prop).

(** Two loops run side by side: while both run, their states stay related,
    and the second loop only runs when the first one does.  Then the second
    loop stops no later than the first. *)
Lemma while_no_later fuel1 fuel2 s t s' t' n m :
  (forall s t, R s t -> c1 s = true -> c2 t = true -> R (b1 s) (b2 t)) ->
  (forall s t, R s t -> c2 t = true -> c1 s = true) ->
  R s t ->
  while fuel1 c1 b1 s = Some (s', n) ->
  while fuel2 c2 b2 t = Some (t', m) ->
  (m <= n)%nat.
Proof.
  intros Hstep Hguard HR H1 H2.
  apply while_iter in H1 as (-> & Hc1 & Hrun1).
  apply while_iter in H2 as (_ & _ & Hrun2).
  assert (Hrel : forall j, (j <= n)%nat -> (j <= m)%nat ->
                           R (Nat.iter j b1 s) (Nat.iter j b2 t)).
  { induction j as [|j IH]; intros Hn Hm; [exact HR|].
    simpl. apply Hstep; [apply IH; lia|apply Hrun1; lia|apply Hrun2; lia]. }
  destruct (Nat.le_gt_cases m n) as [|Hlt]; [assumption|exfalso].
  rewrite (Hguard _ _ (Hrel n (Nat.le_refl n) (Nat.lt_le_incl _ _ Hlt))
             (Hrun2 n Hlt)) in Hc1.
  discriminate.
Qed.

End WhileCompare.

Module PayoffMonths.
Import Payoff PayoffSpec.
Local Open Scope Q_scope.

(** The balance after a month decreases with the payment and increases with
    the balance before it. *)
Lemma next_balance_monotone (a b c pay pay' : Q) :
  0 <= a -> b <= c -> pay <= pay' ->
  let ib := calculateMonthlyInterest b a in
  let ic := calculateMonthlyInterest c a in
  Num.max 0 (Num.sub b (Num.sub (Num.min pay' (Num.add b ib)) ib))
  <= Num.max 0 (Num.sub c (Num.sub (Num.min pay (Num.add c ic)) ic)).
Proof.
  intros Ha Hbc Hpay ib ic.
  assert (Hib : ib == b * (a / 12)).
  { unfold ib, calculateMonthlyInterest.
    rewrite NumFacts.mul_eq, NumFacts.div_eq. reflexivity. }
  assert (Hic : ic == c * (a / 12)).
  { unfold ic, calculateMonthlyInterest.
    rewrite NumFacts.mul_eq, NumFacts.div_eq. reflexivity. }
  assert (Hi : ib <= ic).
  { rewrite Hib, Hic. apply Qmult_le_compat_r; [assumption|].
    apply Qle_shift_div_l; [reflexivity|]. lra. }
  clearbody ib ic. unfold Num.max, Num.min.
  pose proof (Q.min_spec pay' (Num.add b ib)) as Hm1.
  set (p1 := Qmin pay' (Num.add b ib)) in *.
  pose proof (Q.min_spec pay (Num.add c ic)) as Hm2.
  set (p2 := Qmin pay (Num.add c ic)) in *.
  pose proof (Q.max_spec 0 (Num.sub b (Num.sub p1 ib))) as Hx1.
  set (m1 := Qmax 0 (Num.sub b (Num.sub p1 ib))) in *.
  pose proof (Q.max_spec 0 (Num.sub c (Num.sub p2 ic))) as Hx2.
  set (m2 := Qmax 0 (Num.sub c (Num.sub p2 ic))) in *.
  rewrite !NumFacts.sub_eq in Hx1, Hx2. rewrite NumFacts.add_eq in Hm1, Hm2.
  clearbody p1 p2 m1 m2.
  destruct Hm1 as [[? ?]|[? ?]], Hm2 as [[? ?]|[? ?]],
           Hx1 as [[? ?]|[? ?]], Hx2 as [[? ?]|[? ?]]; lra.
Qed.

(** The isolated replay of a debt on a payment of at least its minimum
    payment stops no later than its baseline loop. *)
Lemma replay_no_later_than_baseline fuel1 fuel2 d pay' totalInterest s n t m :
  0 <= apr d -> minPayment d <= pay' ->
  base_loop fuel1 d totalInterest = Some (s, n) ->
  debt_loop fuel2 d pay' 1 = Some (t, m) ->
  (m <= n)%nat.
Proof.
  intros Ha Hpay H1 H2. unfold base_loop in H1. unfold debt_loop in H2.
  eapply (while_no_later base_cond (base_body d) (debt_cond 1) (debt_body d pay')
            (fun s t => dl_balance t <= bl_balance s /\
                        (dl_month t = bl_months s + 1)%Z));
    [| | |exact H1|exact H2].
  - intros s0 t0 [Hb Hmo] _ _. split.
    + apply next_balance_monotone; assumption.
    + simpl. lia.
  - intros s0 t0 [Hb Hmo]. unfold debt_cond, base_cond, maxMonths.
    rewrite !andb_true_iff, !Z.ltb_lt, !NumFacts.gt_true.
    intros [Hgt Hlt]. split; [|lia]. eapply Qlt_le_trans; eassumption.
  - simpl. split; [apply Qle_refl|reflexivity].
Qed.

(** With a payment of at most the minimum payment it stops no earlier. *)
Lemma baseline_no_later_than_replay fuel1 fuel2 d pay' totalInterest s n t m :
  0 <= apr d -> pay' <= minPayment d ->
  base_loop fuel1 d totalInterest = Some (s, n) ->
  debt_loop fuel2 d pay' 1 = Some (t, m) ->
  (n <= m)%nat.
Proof.
  intros Ha Hpay H1 H2. unfold base_loop in H1. unfold debt_loop in H2.
  eapply (while_no_later (debt_cond 1) (debt_body d pay') base_cond (base_body d)
            (fun t s => bl_balance s <= dl_balance t /\
                        (dl_month t = bl_months s + 1)%Z));
    [| | |exact H2|exact H1].
  - intros t0 s0 [Hb Hmo] _ _. split.
    + apply next_balance_monotone; assumption.
    + simpl. lia.
  - intros t0 s0 [Hb Hmo]. unfold debt_cond, base_cond, maxMonths.
    rewrite !andb_true_iff, !Z.ltb_lt, !NumFacts.gt_true.
    intros [Hgt Hlt]. split; [|lia]. eapply Qlt_le_trans; eassumption.
  - simpl. split; [apply Qle_refl|reflexivity].
Qed.

(** What the baseline reports: at least the months of the baseline loop of
    every debt, and no more than any bound on them. *)
Lemma baseline_debts_months fuel ds :
  forall totalInterest mm0 ti mm,
    baseline_debts fuel ds totalInterest mm0 = Some (ti, mm) ->
    (mm0 <= mm)%Z /\
    Forall (fun d => exists ti0 s n,
              base_loop fuel d ti0 = Some (s, n) /\ (Z.of_nat n <= mm)%Z) ds /\
    (forall B, (mm0 <= B)%Z ->
       Forall (fun d => forall ti0 s n,
                 base_loop fuel d ti0 = Some (s, n) -> (Z.of_nat n <= B)%Z) ds ->
       (mm <= B)%Z).
Proof.
  induction ds as [|d ds IH]; intros ti0 mm0 ti mm; cbn [baseline_debts].
  - intros [= <- <-]. repeat split; [lia|constructor|]. intros; assumption.
  - destruct (base_loop fuel d ti0) as [[s n]|] eqn:Hloop; [|discriminate].
    PayoffFacts.step_bind. intros H.
    assert (Hmonths : bl_months s = Z.of_nat n).
    { unfold base_loop in Hloop. apply while_iter in Hloop as (-> & _ & _).
      rewrite PayoffFacts.base_iter_months. simpl. lia. }
    apply IH in H as (Hle & Hall & Hbound). rewrite Hmonths in *.
    repeat split.
    + lia.
    + constructor; [|exact Hall]. exists ti0, s, n. split; [assumption|lia].
    + intros B HB HallB. inversion HallB as [|? ? Hd Hds]; subst.
      apply Hbound; [|exact Hds]. specialize (Hd _ _ _ Hloop). lia.
Qed.

Lemma fold_max_spec xs : forall x,
  (x <= fold_left Z.max xs x)%Z /\
  Forall (fun y => (y <= fold_left Z.max xs x)%Z) xs /\
  (fold_left Z.max xs x = x \/ In (fold_left Z.max xs x) xs).
Proof.
  induction xs as [|y xs IH]; intros x; simpl.
  - repeat split; [lia|constructor|auto].
  - destruct (IH (Z.max x y)) as (H1 & H2 & H3). repeat split.
    + lia.
    + constructor; [lia|exact H2].
    + destruct H3 as [H3|H3]; [|auto].
      rewrite H3. destruct (Z.max_spec x y) as [[_ ->]|[_ ->]]; auto.
Qed.

(** [Math.max] of a non-empty list is one of its elements and bounds all. *)
Lemma Math_max_spec xs m :
  Math_max xs = Some m -> In m xs /\ Forall (fun y => (y <= m)%Z) xs.
Proof.
  destruct xs as [|x xs]; [discriminate|]. intros [= <-].
  destruct (fold_max_spec xs x) as (H1 & H2 & H3).
  split; [|constructor; assumption].
  destruct H3 as [H3|H3]; [left; symmetry; exact H3|right; exact H3].
Qed.

Lemma replay_payment_ge sortedDebts extra d :
  0 <= extra -> minPayment d <= replay_payment sortedDebts extra d.
Proof.
  intros He. unfold replay_payment. rewrite NumFacts.add_eq.
  destruct (is_first sortedDebts d); lra.
Qed.

Lemma replay_payment_le sortedDebts extra d :
  extra == 0 -> replay_payment sortedDebts extra d <= minPayment d.
Proof.
  intros He. unfold replay_payment. rewrite NumFacts.add_eq.
  destruct (is_first sortedDebts d); lra.
Qed.

Lemma replay_months fuel sortedDebts extra d r :
  replay fuel sortedDebts extra d = Some r ->
  exists t m, debt_loop fuel d (replay_payment sortedDebts extra d) 1 = Some (t, m) /\
              payoffMonth r = Z.of_nat m.
Proof.
  unfold replay, simulateDebtPayoff. fold (replay_payment sortedDebts extra d).
  destruct (debt_loop _ _ _ _) as [[t m]|] eqn:Hloop; [|discriminate].
  PayoffFacts.step_bind. intros [= <-]. exists t, m. split; [reflexivity|].
  simpl. rewrite (PayoffFacts.debt_loop_month _ _ _ _ _ _ Hloop). lia.
Qed.

(** The parts of a simulation of a non-empty list of debts. *)
Lemma simulatePayoff_parts fuel ds strategy extra r :
  ds <> [] ->
  simulatePayoff fuel ds strategy extra = Some r ->
  exists c n rs b M,
    cascade_loop fuel (sorted_by strategy ds) extra = Some (c, n) /\
    mapM (replay fuel (sorted_by strategy ds) extra) (sorted_by strategy ds)
      = Some rs /\
    simulatePayoffBaseline fuel ds = Some b /\
    Math_max (map payoffMonth rs) = Some M /\
    r = {| strategy := strategy;
           extraPayment := extra;
           debts := rs;
           totalMonths := M;
           totalInterestPaid := Num.round2 (cl_totalInterestPaid c);
           monthsSaved := Z.max 0 (base_totalMonths b - M);
           interestSaved :=
             Num.max 0
               (Num.round2
                  (Num.sub (base_totalInterestPaid b) (cl_totalInterestPaid c))) |}.
Proof.
  intros Hne. unfold simulatePayoff.
  destruct ds as [|d ds]; [congruence|]. cbn [length Nat.eqb].
  destruct (cascade_loop _ _ _) as [[c n]|] eqn:Hc; [|discriminate].
  PayoffFacts.step_bind.
  destruct (mapM _ _) as [rs|] eqn:Hrs; [|discriminate]. PayoffFacts.step_bind.
  destruct (simulatePayoffBaseline _ _) as [b|] eqn:Hb; [|discriminate].
  PayoffFacts.step_bind.
  destruct (Math_max _) as [M|] eqn:HM; [|discriminate]. PayoffFacts.step_bind.
  intros [= <-]. exists c, n, rs, b, M. repeat split; assumption.
Qed.

Lemma sorted_by_perm strategy ds : Permutation (sorted_by strategy ds) ds.
Proof. destruct strategy; apply Array_sort_perm. Qed.



End PayoffMonths.

Module PaidOff.
Import Payoff PayoffSpec.
Local Open Scope Q_scope.

(** One month of a debt that is paid [pay], at least [mp]: the balance
    becomes 0 or goes down by at least what [mp] leaves after the interest
    on [B]. *)
Lemma next_balance_drop (B b a mp pay : Q) :
  0 <= a -> mp <= pay -> 0 <= b -> b <= B ->
  let i := calculateMonthlyInterest b a in
  let b' := Num.max 0 (Num.sub b (Num.sub (Num.min pay (Num.add b i)) i)) in
  b' == 0 \/ b' <= b - (mp - B * a / 12).
Proof.
  intros Ha Hpay Hb HbB i b'.
  assert (Hi : i == b * (a / 12)).
  { unfold i, calculateMonthlyInterest.
    rewrite NumFacts.mul_eq, NumFacts.div_eq. reflexivity. }
  assert (HiB : i <= B * a / 12).
  { apply Qle_shift_div_l; [reflexivity|].
    assert (b * a <= B * a) by (apply Qmult_le_compat_r; assumption).
    assert (Hx : i * 12 == b * a) by (rewrite Hi; field).
    rewrite Hx. assumption. }
  clearbody i. unfold b', Num.max, Num.min.
  pose proof (Q.min_spec pay (Num.add b i)) as Hmin.
  set (p := Qmin pay (Num.add b i)) in *.
  pose proof (Q.max_spec 0 (Num.sub b (Num.sub p i))) as Hmax.
  set (m := Qmax 0 (Num.sub b (Num.sub p i))) in *.
  rewrite !NumFacts.sub_eq in Hmax. rewrite NumFacts.add_eq in Hmin.
  set (q := B * a / 12) in *. clearbody p m q.
  destruct Hmin as [[? ?]|[? ?]], Hmax as [[? ?]|[? ?]];
    first [left; lra|right; lra].
Qed.

Section Loop.
Context {S : Type} (bal : S -> Q) (cond : S -> bool) (body : S -> S).
Variables (B a mp pay : Q) (s0 : S).
Hypothesis Ha : 0 <= a.
Hypothesis Hmp : B * a < mp * 12.
Hypothesis Hpay : mp <= pay.
Hypothesis Hs0 : bal s0 = B.
Hypothesis Hcond : forall s, cond s = true -> Num.cent < bal s.
Hypothesis Hbody : forall s,
  bal (body s)
  = Num.max 0
      (Num.sub (bal s)
         (Num.sub (Num.min pay (Num.add (bal s) (calculateMonthlyInterest (bal s) a)))
            (calculateMonthlyInterest (bal s) a))).

Lemma pay_covers_interest : B * a < pay * 12.
Proof. lra. Qed.

Lemma run_strictly_decreases n :
  (forall j, (j < n)%nat -> cond (Nat.iter j body s0) = true) ->
  decreasing_run bal body s0 n.
Proof.
  intros Hguard.
  apply Amortization.run_decreases with (cond := cond) (B := B).
  - rewrite Hs0. apply Qle_refl.
  - exact Hcond.
  - intros s H1 H2. rewrite Hbody.
    apply (Amortization.next_balance_decreases B (bal s) a pay);
      [exact Ha|exact pay_covers_interest|exact H1|exact H2].
  - exact Hguard.
Qed.

(** While the loop runs, the balance is below the initial balance by the
    number of months times what [mp] leaves after the first interest. *)
Lemma run_drops n :
  (forall j, (j < n)%nat -> cond (Nat.iter j body s0) = true) ->
  forall j, (j < n)%nat ->
    bal (Nat.iter j body s0) <= B
    /\ bal (Nat.iter j body s0) <= B - inject_Z (Z.of_nat j) * (mp - B * a / 12).
Proof.
  intros Hguard. induction j as [|j IH]; intros Hj.
  - change (Nat.iter 0 body s0) with s0. rewrite Hs0.
    change (inject_Z (Z.of_nat 0)) with 0. split; lra.
  - destruct IH as [IH1 IH2]; [lia|].
    pose proof (Hcond _ (Hguard j ltac:(lia))) as Hc.
    pose proof (Hcond _ (Hguard (Datatypes.S j) Hj)) as Hc'.
    rewrite Nat.iter_succ in Hc' |- *. rewrite Hbody in Hc' |- *.
    assert (Hb0 : 0 <= bal (Nat.iter j body s0)).
    { apply Qlt_le_weak. eapply Qlt_trans; [|exact Hc]. reflexivity. }
    pose proof (next_balance_drop B (bal (Nat.iter j body s0)) a mp pay
                  Ha Hpay Hb0 IH1) as Hdrop.
    pose proof (Amortization.next_balance_decreases B (bal (Nat.iter j body s0)) a pay
                  Ha pay_covers_interest Hc IH1) as [_ Hlt].
    cbv zeta in Hdrop, Hlt.
    set (b' := Num.max 0 _) in *.
    assert (Hcent : 0 < Num.cent) by reflexivity.
    rewrite Nat2Z.inj_succ, <- Z.add_1_r, inject_Z_plus.
    change (inject_Z 1) with 1.
    set (x := inject_Z (Z.of_nat j)) in *. set (p0 := mp - B * a / 12) in *.
    clearbody b' x p0. split; [lra|].
    destruct Hdrop as [Hz|Hd]; [lra|].
    assert (Hx : (x + 1) * p0 == x * p0 + p0) by ring. rewrite Hx. lra.
Qed.

Lemma run_length (N n : nat) :
  B <= inject_Z (Z.of_nat N) * (mp - B * a / 12) ->
  (forall j, (j < n)%nat -> cond (Nat.iter j body s0) = true) ->
  (n <= N)%nat.
Proof.
  intros HN Hguard. destruct n as [|n]; [lia|].
  destruct (run_drops _ Hguard n ltac:(lia)) as [_ Hdrop].
  pose proof (Hcond _ (Hguard n ltac:(lia))) as Hc.
  assert (Hcent : 0 < Num.cent) by reflexivity.
  assert (Hp0 : 0 < mp - B * a / 12).
  { assert (B * a / 12 < mp); [|lra].
    apply Qlt_shift_div_r; [reflexivity|exact Hmp]. }
  set (p0 := mp - B * a / 12) in *.
  assert (Hlt : inject_Z (Z.of_nat n) * p0 < inject_Z (Z.of_nat N) * p0).
  { set (b := bal _) in *. clearbody b p0. lra. }
  apply Qmult_lt_r in Hlt; [|exact Hp0].
  rewrite <- Zlt_Qlt in Hlt. lia.
Qed.

End Loop.

(** The loop of [simulateDebtPayoff] on a payment of at least the minimum
    payment. *)
Lemma replay_run (k : nat) (d : DebtForPayoff) (pay : Q) :
  0 <= apr d -> balance d * apr d < minPayment d * 12 -> minPayment d <= pay ->
  exists s n,
    debt_loop (600 + k) d pay 1 = Some (s, n) /\
    (n <= 600)%nat /\
    decreasing_run dl_balance (debt_body d pay) (debt_init d 1) n /\
    (dl_balance s <= Num.cent \/ n = 600%nat) /\
    (forall N : nat,
       balance d
       <= inject_Z (Z.of_nat N) * (minPayment d - balance d * apr d / 12) ->
       (n <= N)%nat).
Proof.
  intros Ha Hmp Hpay.
  destruct (PayoffFacts.debt_loop_ends k d pay 1) as (s & n & Hw & Hn & Hc).
  exists s, n. split; [exact Hw|]. split; [exact Hn|].
  pose proof (PayoffFacts.debt_loop_month _ _ _ _ _ _ Hw) as Hmonth.
  unfold debt_loop in Hw. apply while_iter in Hw as (_ & _ & Hguard).
  split; [|split].
  - apply (run_strictly_decreases dl_balance (debt_cond 1) (debt_body d pay)
             (balance d) (apr d) (minPayment d) pay); try assumption.
    + reflexivity.
    + apply Amortization.debt_cond_balance.
    + reflexivity.
  - unfold debt_cond in Hc. apply andb_false_iff in Hc as [Hc|Hc].
    + left. apply NumFacts.gt_false, Hc.
    + right. apply Z.ltb_ge in Hc. unfold maxMonths in Hc. lia.
  - intros N HN.
    apply (run_length dl_balance (debt_cond 1) (debt_body d pay)
             (balance d) (apr d) (minPayment d) pay (debt_init d 1)); try assumption.
    + reflexivity.
    + apply Amortization.debt_cond_balance.
    + reflexivity.
Qed.

(** The loop of the baseline. *)
Lemma baseline_run (k : nat) (d : DebtForPayoff) (totalInterest : Q) :
  0 <= apr d -> balance d * apr d < minPayment d * 12 ->
  exists s n,
    base_loop (600 + k) d totalInterest = Some (s, n) /\
    (n <= 600)%nat /\
    decreasing_run bl_balance (base_body d)
      {| bl_balance := balance d; bl_months := 0;
         bl_totalInterest := totalInterest |} n /\
    (bl_balance s <= Num.cent \/ n = 600%nat) /\
    (forall N : nat,
       balance d
       <= inject_Z (Z.of_nat N) * (minPayment d - balance d * apr d / 12) ->
       (n <= N)%nat).
Proof.
  intros Ha Hmp.
  destruct (Amortization.baseline_decreases k d totalInterest Ha Hmp)
    as (s & n & Hw & Hn & Hdec & Hend).
  exists s, n. repeat split; try assumption.
  intros N HN.
  unfold base_loop in Hw. apply while_iter in Hw as (_ & _ & Hguard).
  apply (run_length bl_balance base_cond (base_body d)
           (balance d) (apr d) (minPayment d) (minPayment d)
           {| bl_balance := balance d; bl_months := 0;
              bl_totalInterest := totalInterest |}); try assumption.
  - apply Qle_refl.
  - reflexivity.
  - apply Amortization.base_cond_balance.
  - reflexivity.
Qed.

End PaidOff.

Module AmortizationClaim.
Import Payoff PayoffSpec.
Local Open Scope Q_scope.

(** The months of the simulation of a non-empty list of debts: the replay of
    every debt, on its minimum payment plus the extra payment for the first
    debt, runs at most 600 months, and [totalMonths] is the largest of the
    numbers of months. *)
Lemma totalMonths_of_replays (k : nat) ds strat extra r :
  ds <> [] ->
  simulatePayoff (600 + k) ds strat extra = Some r ->
  Forall (fun d => exists s n,
            debt_loop (600 + k) d (replay_payment (sorted_by strat ds) extra d) 1
            = Some (s, n) /\ (n <= 600)%nat /\ (Z.of_nat n <= totalMonths r)%Z) ds /\
  Exists (fun d => exists s n,
            debt_loop (600 + k) d (replay_payment (sorted_by strat ds) extra d) 1
            = Some (s, n) /\ totalMonths r = Z.of_nat n) ds.
Proof.
  intros Hne Hr.
  apply PayoffMonths.simulatePayoff_parts in Hr
    as (c & n0 & rs & b & M & _ & Hrs & _ & HM & ->); [|exact Hne].
  cbn [totalMonths].
  apply PayoffMonths.Math_max_spec in HM as (HMin & HMall).
  apply mapM_Some in Hrs.
  pose proof (PayoffMonths.sorted_by_perm strat ds) as Hperm.
  rewrite List.Forall_map in HMall. rewrite List.Forall_forall in HMall.
  split.
  - apply List.Forall_forall. intros d Hd.
    apply (Permutation_in _ (Permutation_sym Hperm)) in Hd.
    apply list_elem_of_In, list_elem_of_lookup in Hd as (i & Hi).
    destruct (Forall2_lookup_l _ _ _ _ _ Hrs Hi) as (r & Hr & Hreplay).
    apply PayoffMonths.replay_months in Hreplay as (t & m & Hloop & Hm).
    exists t, m. split; [exact Hloop|].
    destruct (PayoffFacts.debt_loop_ends k d
                (replay_payment (sorted_by strat ds) extra d) 1)
      as (s' & n' & Hw & Hn' & _).
    rewrite Hw in Hloop. injection Hloop as -> ->.
    split; [exact Hn'|]. rewrite <- Hm. apply HMall.
    apply list_elem_of_In, list_elem_of_lookup. eauto.
  - apply in_map_iff in HMin as (r & HrM & Hin).
    apply list_elem_of_In, list_elem_of_lookup in Hin as (i & Hi).
    destruct (Forall2_lookup_r _ _ _ _ _ Hrs Hi) as (d & Hd & Hreplay).
    apply PayoffMonths.replay_months in Hreplay as (t & m & Hloop & Hm).
    apply List.Exists_exists. exists d. split.
    + apply (Permutation_in _ Hperm), list_elem_of_In.
      apply list_elem_of_lookup. eauto.
    + exists t, m. split; [exact Hloop|]. rewrite <- HrM. exact Hm.
Qed.

(** C3 (amended).  For every list of debts with aprs between 0 and 1 in
    which minPayment * 12 > balance * apr holds for every debt, and every
    extra payment that is not negative: the simulation returns, with
    [totalMonths] at most 600, and 600 exactly when the replay of some debt
    runs through the 600 months of the cap; under the isolated simulation on
    the minimum payment (the replay of the debt and the loop of the
    baseline) the balance of a debt never goes up from one month to the
    next, and the simulation stops with a balance of at most 0.01 or after
    the 600 months.  When moreover the minimum payment of every debt leaves,
    after the interest of the first month, at least 1/598 of the balance,
    [totalMonths] is less than 600, and under the isolated simulation the
    balance of every debt gets strictly smaller every month and is at most
    0.01 after fewer than 600 months. *)
Theorem amortizing_debts_are_paid_off (k : nat) (ds : list DebtForPayoff)
    (strat : Strategy) (extra : Q) :
  0 <= extra ->
  Forall (fun d => 0 <= apr d <= 1 /\ balance d * apr d < minPayment d * 12) ds ->
  exists r,
    simulatePayoff (600 + k) ds strat extra = Some r /\
    (0 <= totalMonths r <= 600)%Z /\
    (totalMonths r = 600%Z <->
       Exists (fun d => exists s,
                 debt_loop (600 + k) d (replay_payment (sorted_by strat ds) extra d) 1
                 = Some (s, 600%nat)) ds) /\
    Forall (fun d =>
      (exists s n,
         debt_loop (600 + k) d (minPayment d) 1 = Some (s, n) /\
         (n <= 600)%nat /\
         nonincreasing_run dl_balance (debt_body d (minPayment d)) (debt_init d 1) n /\
         (dl_balance s <= Num.cent \/ n = 600%nat)) /\
      (forall totalInterest, exists s n,
         base_loop (600 + k) d totalInterest = Some (s, n) /\
         (n <= 600)%nat /\
         nonincreasing_run bl_balance (base_body d)
           {| bl_balance := balance d; bl_months := 0;
              bl_totalInterest := totalInterest |} n /\
         (bl_balance s <= Num.cent \/ n = 600%nat))) ds /\
    (Forall (fun d => balance d <= 598 * (minPayment d - balance d * apr d / 12)) ds ->
     (totalMonths r < 600)%Z /\
     Forall (fun d =>
       (exists s n,
          debt_loop (600 + k) d (minPayment d) 1 = Some (s, n) /\
          (n < 600)%nat /\
          decreasing_run dl_balance (debt_body d (minPayment d)) (debt_init d 1) n /\
          dl_balance s <= Num.cent) /\
       (forall totalInterest, exists s n,
          base_loop (600 + k) d totalInterest = Some (s, n) /\
          (n < 600)%nat /\
          decreasing_run bl_balance (base_body d)
            {| bl_balance := balance d; bl_months := 0;
               bl_totalInterest := totalInterest |} n /\
          bl_balance s <= Num.cent)) ds).
Proof.
  intros Hextra Hall.
  destruct (PayoffFacts.simulatePayoff_returns k ds strat extra) as (r & Hr & Hm & _).
  exists r. split; [exact Hr|]. split; [exact Hm|].
  assert (Hweak : forall {S : Type} (bal : S -> Q) body s0 n,
            decreasing_run bal body s0 n -> nonincreasing_run bal body s0 n).
  { intros S bal body s0 n H j Hj. apply Qlt_le_weak, H, Hj. }
  split; [|split].
  - destruct ds as [|d0 ds0] eqn:Hds.
    { unfold simulatePayoff in Hr. cbn [length Nat.eqb] in Hr. injection Hr as <-.
      cbn [totalMonths]. split; [intros H; discriminate H|].
      intros H. apply List.Exists_nil in H. contradiction. }
    rewrite <- Hds in *.
    destruct (totalMonths_of_replays k ds strat extra r) as [Hevery Hsome];
      [rewrite Hds; discriminate|exact Hr|].
    split.
    + intros H600. apply List.Exists_exists in Hsome as (d & Hd & s & n & Hloop & Hn).
      apply List.Exists_exists. exists d. split; [exact Hd|]. exists s.
      rewrite Hloop. repeat f_equal. lia.
    + intros Hex. apply List.Exists_exists in Hex as (d & Hd & s & Hloop).
      rewrite List.Forall_forall in Hevery.
      destruct (Hevery d Hd) as (s' & n & Hloop' & _ & Hle).
      rewrite Hloop in Hloop'. injection Hloop' as _ <-. lia.
  - eapply Forall_impl; [exact Hall|]. intros d [[Ha _] Hmp]. split.
    + destruct (PaidOff.replay_run k d (minPayment d) Ha Hmp (Qle_refl _))
        as (s & n & Hloop & Hn & Hdec & Hend & _).
      exists s, n. repeat split; auto.
    + intros ti.
      destruct (PaidOff.baseline_run k d ti Ha Hmp)
        as (s & n & Hloop & Hn & Hdec & Hend & _).
      exists s, n. repeat split; auto.
  - intros Hquick.
    assert (Hboth : Forall (fun d =>
              (0 <= apr d /\ balance d * apr d < minPayment d * 12) /\
              balance d
              <= inject_Z (Z.of_nat 598) * (minPayment d - balance d * apr d / 12)) ds).
    { rewrite List.Forall_forall in *. intros d Hd.
      destruct (Hall d Hd) as [[Ha _] Hmp]. split; [split; assumption|].
      exact (Hquick d Hd). }
    split.
    + destruct ds as [|d0 ds0] eqn:Hds.
      { unfold simulatePayoff in Hr. cbn [length Nat.eqb] in Hr. injection Hr as <-.
        cbn [totalMonths]. lia. }
      rewrite <- Hds in *.
      destruct (totalMonths_of_replays k ds strat extra r) as [_ Hsome];
        [rewrite Hds; discriminate|exact Hr|].
      apply List.Exists_exists in Hsome as (d & Hd & s & n & Hloop & Hn).
      rewrite List.Forall_forall in Hboth.
      destruct (Hboth d Hd) as [[Ha Hmp] HN].
      destruct (PaidOff.replay_run k d (replay_payment (sorted_by strat ds) extra d)
                  Ha Hmp (PayoffMonths.replay_payment_ge _ _ d Hextra))
        as (s' & n' & Hloop' & _ & _ & _ & Hlen).
      rewrite Hloop in Hloop'. injection Hloop' as _ <-.
      specialize (Hlen 598%nat HN). lia.
    + eapply Forall_impl; [exact Hboth|]. intros d [[Ha Hmp] HN]. split.
      * destruct (PaidOff.replay_run k d (minPayment d) Ha Hmp (Qle_refl _))
          as (s & n & Hloop & Hn & Hdec & Hend & Hlen).
        specialize (Hlen 598%nat HN).
        exists s, n. split; [exact Hloop|]. split; [lia|]. split; [exact Hdec|].
        destruct Hend; [assumption|lia].
      * intros ti.
        destruct (PaidOff.baseline_run k d ti Ha Hmp)
          as (s & n & Hloop & Hn & Hdec & Hend & Hlen).
        specialize (Hlen 598%nat HN).
        exists s, n. split; [exact Hloop|]. split; [lia|]. split; [exact Hdec|].
        destruct Hend; [assumption|lia].
Qed.

Lemma amortizing_debts_are_paid_off_witness :
  exists r,
    simulatePayoff (600 + 0) RepositoryTests.sampleDebts Avalanche 5000 = Some r /\
    (totalMonths r < 600)%Z /\
    Forall (fun d =>
      (exists s n,
         debt_loop (600 + 0) d (minPayment d) 1 = Some (s, n) /\
         (n < 600)%nat /\
         decreasing_run dl_balance (debt_body d (minPayment d)) (debt_init d 1) n /\
         dl_balance s <= Num.cent) /\
      (forall totalInterest, exists s n,
         base_loop (600 + 0) d totalInterest = Some (s, n) /\
         (n < 600)%nat /\
         decreasing_run bl_balance (base_body d)
           {| bl_balance := balance d; bl_months := 0;
              bl_totalInterest := totalInterest |} n /\
         bl_balance s <= Num.cent)) RepositoryTests.sampleDebts.
Proof.
  destruct (amortizing_debts_are_paid_off 0 RepositoryTests.sampleDebts Avalanche 5000)
    as (r & Hr & _ & _ & _ & Hquick).
  - vm_compute. discriminate.
  - repeat constructor; vm_compute; discriminate.
  - exists r. split; [exact Hr|]. apply Hquick.
    repeat constructor; vm_compute; discriminate.
Defined.

End AmortizationClaim.

Module PayoffRows.
Import Payoff PayoffSpec.
Local Open Scope Q_scope.

(** Rounding to two decimals moves a number by at most half a hundredth and
    keeps a non-negative number non-negative. *)
Lemma round2_error x : x - (1 # 200) <= Num.round2 x <= x + (1 # 200).
Proof.
  unfold Num.round2, Num.round. rewrite NumFacts.div_eq.
  pose proof (Qfloor_le (Num.mul x 100 + (1 # 2))) as H1.
  pose proof (Qlt_floor (Num.mul x 100 + (1 # 2))) as H2.
  rewrite inject_Z_plus in H2.
  set (f := inject_Z (Qfloor (Num.mul x 100 + (1 # 2)))) in *.
  rewrite NumFacts.mul_eq in H1, H2. clearbody f.
  change (inject_Z 1) with 1 in H2.
  split.
  - apply Qle_shift_div_l; [reflexivity|]. lra.
  - apply Qle_shift_div_r; [reflexivity|]. lra.
Qed.

Lemma round2_nonneg x : 0 <= x -> 0 <= Num.round2 x.
Proof.
  intros Hx. unfold Num.round2, Num.round. rewrite NumFacts.div_eq.
  apply Qle_shift_div_l; [reflexivity|]. rewrite Qmult_0_l.
  change 0 with (inject_Z 0). rewrite <- Zle_Qle.
  change 0%Z with (Qfloor 0). apply Qfloor_resp_le.
  rewrite NumFacts.mul_eq. lra.
Qed.

(** One month of the loop of [simulateDebtPayoff]: the payment is capped at
    balance plus interest, so that [Math.max(0, ...)] never cuts anything
    off. *)
Lemma debt_body_accounts d pay s :
  let s' := debt_body d pay s in
  0 <= dl_balance s' /\
  dl_totalPaid s' - dl_totalInterest s' + dl_balance s'
  == dl_totalPaid s - dl_totalInterest s + dl_balance s.
Proof.
  unfold debt_body. cbn [dl_balance dl_totalPaid dl_totalInterest].
  set (i := calculateMonthlyInterest (dl_balance s) (apr d)).
  unfold Num.max, Num.min.
  pose proof (Q.min_spec pay (Num.add (dl_balance s) i)) as Hmin.
  set (p := Qmin pay (Num.add (dl_balance s) i)) in *.
  pose proof (Q.max_spec 0 (Num.sub (dl_balance s) (Num.sub p i))) as Hmax.
  set (m := Qmax 0 (Num.sub (dl_balance s) (Num.sub p i))) in *.
  rewrite !NumFacts.sub_eq in Hmax. rewrite !NumFacts.add_eq in *.
  clearbody p m i.
  destruct Hmin as [[? ?]|[? ?]], Hmax as [[? ?]|[? ?]]; split; lra.
Qed.

Lemma debt_iter_rows d pay start n :
  let s := Nat.iter n (debt_body d pay) (debt_init d start) in
  map pm_month (dl_breakdown s) = months_from start n /\
  Forall row_rounded (dl_breakdown s) /\
  dl_totalPaid s - dl_totalInterest s + dl_balance s == balance d /\
  (n <> O -> 0 <= dl_balance s).
Proof.
  unfold months_from.
  induction n as [|n (Hmonths & Hrows & Hsum & Hpos)].
  - simpl. repeat split; [constructor|lra|congruence].
  - rewrite Nat.iter_succ.
    set (s := Nat.iter n (debt_body d pay) (debt_init d start)) in *.
    destruct (debt_body_accounts d pay s) as [Hb Hacc].
    repeat split.
    + cbn [debt_body dl_breakdown]. rewrite map_app, Hmonths, seq_S, map_app.
      cbn [map pm_month]. unfold s. rewrite PayoffFacts.debt_iter_month.
      reflexivity.
    + cbn [debt_body dl_breakdown]. apply Forall_app. split; [exact Hrows|].
      repeat constructor; cbn [pm_balance pm_principal pm_interest pm_payment];
        try apply NumFacts.cents_round2.
      apply round2_nonneg, Hb.
    + rewrite Hacc. exact Hsum.
    + intros _. exact Hb.
Qed.

(** [simulateDebtPayoff] returns for every debt, payment and start month.
    Its breakdown has one row per simulated month, at most 600, for the
    months [startMonth], [startMonth + 1], ... in order; [payoffMonth] is the
    month of the last row ([startMonth - 1] when there is none); all amounts
    of the rows and the two totals are whole numbers of hundredths and no
    row has a negative balance. *)
Lemma simulateDebtPayoff_rows (k : nat) d pay start :
  exists r n,
    simulateDebtPayoff (600 + k) d pay start = Some r /\
    (n <= 600)%nat /\
    length (monthlyBreakdown r) = n /\
    map pm_month (monthlyBreakdown r) = months_from start n /\
    payoffMonth r = (start + Z.of_nat n - 1)%Z /\
    Forall row_rounded (monthlyBreakdown r) /\
    cents (totalPaid r) /\ cents (totalInterest r) /\
    debtId r = id d /\ debtName r = name d.
Proof.
  unfold simulateDebtPayoff.
  destruct (PayoffFacts.debt_loop_ends k d pay start) as (s & n & Hloop & Hn & _).
  rewrite Hloop. PayoffFacts.step_bind.
  pose proof (PayoffFacts.debt_loop_month _ _ _ _ _ _ Hloop) as Hmonth.
  unfold debt_loop in Hloop. apply while_iter in Hloop as (Hs & _ & _).
  destruct (debt_iter_rows d pay start n) as (Hmonths & Hrows & _ & _).
  rewrite <- Hs in Hmonths, Hrows.
  eexists _, n. split; [reflexivity|]. cbn.
  repeat split; try assumption; try apply NumFacts.cents_round2.
  - rewrite <- (length_map pm_month), Hmonths. unfold months_from.
    rewrite length_map, length_seq. reflexivity.
  - lia.
Qed.

(** The money paid into a debt is the principal paid off plus the interest:
    at the end of the loop of [simulateDebtPayoff], the payments add up to
    the interest charged plus the part of the balance that is gone, and
    the reported [totalPaid] is that sum to within half a hundredth.  When
    the loop ends before the cap on a debt with a non-negative balance, what
    is left of the balance is between 0 and 0.01. *)
Lemma simulateDebtPayoff_accounts (k : nat) d pay start :
  exists s n r,
    debt_loop (600 + k) d pay start = Some (s, n) /\
    simulateDebtPayoff (600 + k) d pay start = Some r /\
    dl_totalPaid s == (balance d - dl_balance s) + dl_totalInterest s /\
    dl_totalPaid s - (1 # 200) <= totalPaid r <= dl_totalPaid s + (1 # 200) /\
    dl_totalInterest s - (1 # 200) <= totalInterest r
      <= dl_totalInterest s + (1 # 200) /\
    ((n < 600)%nat -> 0 <= balance d -> 0 <= dl_balance s <= Num.cent).
Proof.
  destruct (PayoffFacts.debt_loop_ends k d pay start) as (s & n & Hloop & Hn & Hc).
  unfold simulateDebtPayoff. rewrite Hloop. PayoffFacts.step_bind.
  exists s, n. eexists. split; [reflexivity|]. split; [reflexivity|].
  cbn [totalPaid totalInterest].
  pose proof (PayoffFacts.debt_loop_month _ _ _ _ _ _ Hloop) as Hmonth.
  unfold debt_loop in Hloop. apply while_iter in Hloop as (Hs & _ & _).
  destruct (debt_iter_rows d pay start n) as (_ & _ & Hsum & Hpos).
  rewrite <- Hs in Hsum, Hpos.
  repeat split; try apply round2_error.
  - lra.
  - destruct n as [|n]; [rewrite Hs; simpl; assumption|].
    apply Hpos. discriminate.
  - unfold debt_cond in Hc. apply andb_false_iff in Hc as [Hc|Hc].
    + apply NumFacts.gt_false, Hc.
    + apply Z.ltb_ge in Hc. unfold maxMonths in Hc. lia.
Qed.

End PayoffRows.

Module PayoffShape.
Import Payoff PayoffSpec.
Local Open Scope Q_scope.

Lemma while_skip {S : Type} (cond : S -> bool) (body : S -> S) fuel s :
  cond s = false -> while fuel cond body s = Some (s, O).
Proof. intros H. destruct fuel; simpl; rewrite H; reflexivity. Qed.

Lemma replay_settled fuel sortedDebts extra d :
  balance d <= Num.cent ->
  replay fuel sortedDebts extra d = Some (settled_result d).
Proof.
  intros Hb. unfold replay, simulateDebtPayoff, debt_loop.
  rewrite while_skip; [reflexivity|].
  unfold debt_cond. cbn [debt_init dl_balance].
  apply andb_false_iff. left. apply NumFacts.gt_false, Hb.
Qed.

Lemma replays_settled fuel sortedDebts extra ds :
  Forall (fun d => balance d <= Num.cent) ds ->
  mapM (replay fuel sortedDebts extra) ds = Some (map settled_result ds).
Proof.
  intros Hall. apply mapM_Some.
  induction Hall as [|d ds Hd _ IH]; constructor; [|exact IH].
  apply replay_settled, Hd.
Qed.

Lemma baseline_settled fuel ds :
  Forall (fun d => balance d <= Num.cent) ds ->
  baseline_debts fuel ds 0 0 = Some (0, 0%Z).
Proof.
  induction 1 as [|d ds Hd _ IH]; [reflexivity|].
  cbn [baseline_debts]. unfold base_loop.
  rewrite while_skip; [exact IH|].
  unfold base_cond. cbn [bl_balance].
  apply andb_false_iff. left. apply NumFacts.gt_false, Hd.
Qed.

Lemma cascade_settled fuel ds extra :
  Forall (fun d => balance d <= Num.cent) ds ->
  cascade_loop fuel ds extra = Some (cascade_init ds, O).
Proof.
  intros Hall. unfold cascade_loop. apply while_skip.
  unfold cascade_cond. apply andb_false_iff. left.
  cbn [cascade_init remainingDebts].
  induction Hall as [|d ds Hd _ IH]; [reflexivity|].
  cbn [map existsb]. rewrite IH, orb_false_r.
  unfold unpaid. cbn [paid currentBalance negb andb].
  apply NumFacts.gt_false, Hd.
Qed.

Lemma Math_max_zeros (xs : list Z) :
  xs <> [] -> Forall (fun x => x = 0%Z) xs -> Math_max xs = Some 0%Z.
Proof.
  destruct xs as [|x xs]; [congruence|]. intros _ Hall.
  inversion Hall as [|? ? -> Hxs]; subst. cbn [Math_max]. f_equal.
  clear Hall. induction Hxs as [|y ys -> _ IH]; [reflexivity|exact IH].
Qed.

(** Debts that are settled already (a balance of at most 0.01) give, with
    any fuel, a simulation of zero months without interest or savings, in
    which every debt is paid off in month 0 with an empty breakdown. *)
Lemma settled_debts_simulation fuel ds strategy extra :
  Forall (fun d => balance d <= Num.cent) ds ->
  simulatePayoff fuel ds strategy extra =
    Some {| strategy := strategy; extraPayment := extra;
            debts := map settled_result (sorted_by strategy ds);
            totalMonths := 0; totalInterestPaid := 0;
            monthsSaved := 0; interestSaved := 0 |}.
Proof.
  intros Hall. unfold simulatePayoff.
  destruct ds as [|d0 ds0] eqn:Hds; [destruct strategy; reflexivity|].
  rewrite <- Hds in *. replace (length ds =? 0)%nat with false
    by (rewrite Hds; reflexivity).
  assert (Hsorted : Forall (fun d => balance d <= Num.cent) (sorted_by strategy ds)).
  { rewrite List.Forall_forall in *. intros d Hd. apply Hall.
    apply (Permutation_in _ (PayoffMonths.sorted_by_perm strategy ds)), Hd. }
  rewrite (cascade_settled _ _ _ Hsorted). PayoffFacts.step_bind.
  rewrite (replays_settled _ _ _ _ Hsorted). PayoffFacts.step_bind.
  unfold simulatePayoffBaseline. rewrite (baseline_settled _ _ Hall).
  PayoffFacts.step_bind.
  rewrite Math_max_zeros.
  - reflexivity.
  - intros Hnil. apply (f_equal (@length _)) in Hnil.
    rewrite !length_map, PayoffFacts.sorted_by_length, Hds in Hnil.
    discriminate.
  - rewrite List.Forall_map, List.Forall_map. apply List.Forall_forall. reflexivity.
Qed.

Lemma settled_debts_simulation_witness :
  simulatePayoff 0
    [{| id := "s"; name := "Settled"; balance := 0; apr := 18 # 100;
        minPayment := 500 |}] Avalanche 1000 =
    Some {| strategy := Avalanche; extraPayment := 1000;
            debts := map settled_result
                       (sorted_by Avalanche
                          [{| id := "s"; name := "Settled"; balance := 0;
                              apr := 18 # 100; minPayment := 500 |}]);
            totalMonths := 0; totalInterestPaid := 0;
            monthsSaved := 0; interestSaved := 0 |}.
Proof.
  apply (settled_debts_simulation 0
           [{| id := "s"; name := "Settled"; balance := 0; apr := 18 # 100;
               minPayment := 500 |}] Avalanche 1000).
  repeat constructor; vm_compute; discriminate.
Defined.

(** The results of a simulation are the isolated replays of the debts, in
    strategy order, [totalMonths] is the latest of their payoff months, and
    the two savings are never negative. *)
Lemma simulatePayoff_shape (k : nat) ds strat extra :
  exists r,
    simulatePayoff (600 + k) ds strat extra = Some r /\
    strategy r = strat /\ extraPayment r = extra /\
    (ds <> [] ->
       mapM (replay (600 + k) (sorted_by strat ds) extra) (sorted_by strat ds)
         = Some (debts r) /\
       In (totalMonths r) (map payoffMonth (debts r))) /\
    map debtId (debts r) = map id (sorted_by strat ds) /\
    map debtName (debts r) = map name (sorted_by strat ds) /\
    Permutation (map debtId (debts r)) (map id ds) /\
    Forall (fun d => (0 <= payoffMonth d <= totalMonths r)%Z) (debts r) /\
    (0 <= monthsSaved r)%Z /\ 0 <= interestSaved r.
Proof.
  destruct (PayoffFacts.simulatePayoff_returns k ds strat extra) as (r & Hr & _).
  exists r. split; [exact Hr|].
  destruct ds as [|d0 ds0] eqn:Hds.
  { injection Hr as <-. destruct strat; cbn; repeat split;
      try congruence; try lia; try constructor; try discriminate. }
  rewrite <- Hds in *.
  apply PayoffMonths.simulatePayoff_parts in Hr
    as (c & n & rs & b & M & _ & Hrs & _ & HM & ->); [|rewrite Hds; discriminate].
  cbn [strategy extraPayment debts totalMonths monthsSaved interestSaved].
  apply PayoffMonths.Math_max_spec in HM as (HMin & HMall).
  pose proof Hrs as Hrs2. apply mapM_Some in Hrs2.
  assert (Hids : map debtId rs = map id (sorted_by strat ds) /\
                 map debtName rs = map name (sorted_by strat ds) /\
                 Forall (fun d => (0 <= payoffMonth d)%Z) rs).
  { clear - Hrs2. induction Hrs2 as [|d r ds' rs' Hd _ (IH1 & IH2 & IH3)];
      [repeat split; constructor|].
    pose proof (PayoffMonths.replay_months _ _ _ _ _ Hd) as (t & m & _ & Hm).
    assert (Hnames : debtId r = id d /\ debtName r = name d).
    { unfold replay, simulateDebtPayoff in Hd.
      destruct (debt_loop _ _ _ _) as [[t' m']|]; [|discriminate].
      injection Hd as <-. split; reflexivity. }
    destruct Hnames as [Hn1 Hn2].
    cbn [map]. rewrite IH1, IH2, Hn1, Hn2. repeat split.
    constructor; [lia|exact IH3]. }
  destruct Hids as (Hid1 & Hid2 & Hpos).
  repeat split; try assumption; try reflexivity.
  - rewrite Hid1. apply Permutation_map, PayoffMonths.sorted_by_perm.
  - rewrite List.Forall_map in HMall. rewrite List.Forall_forall in *.
    intros d Hd. split; [apply Hpos, Hd|apply HMall, Hd].
  - lia.
  - unfold Num.max. apply Q.le_max_l.
Qed.

End PayoffShape.

Section WhileInvariant.
Context {S : Type} (cond : S -> bool) (body : S -> S) (P : S -> Prop).

Lemma while_invariant fuel s s' n :
  (forall s, P s -> cond s = true -> P (body s)) ->
  P s -> while fuel cond body s = Some (s', n) -> P s'.
Proof.
  intros Hstep. revert s s' n.
  induction fuel as [|fuel IH]; intros s s' n HP; simpl.
  - destruct (cond s); [discriminate|]. intros [= <- _]. exact HP.
  - destruct (cond s) eqn:Hc.
    + destruct (while fuel cond body (body s)) as [[s1 n1]|] eqn:Hw; [|discriminate].
      intros [= <- _]. eapply IH; [|exact Hw]. auto.
    + intros [= <- _]. exact HP.
Qed.

End WhileInvariant.

Module CascadeInvariants.
Import Payoff PayoffSpec.
Local Open Scope Q_scope.

Lemma apply_payments_steps totalExtra todo :
  forall done tip log rs' tip' log',
    apply_payments totalExtra done todo tip log = (rs', tip', log') ->
    exists todo', rs' = done ++ todo' /\ Forall2 month_step todo todo'.
Proof.
  induction todo as [|d rest IH]; intros done tip log rs' tip' log'; simpl.
  - intros [= <- _ _]. exists []. rewrite app_nil_r. split; constructor.
  - destruct (paid d || Num.le (currentBalance d) Num.cent) eqn:Hskip.
    + intros H. apply IH in H as (todo' & -> & Hsteps).
      exists (d :: todo'). rewrite <- app_assoc. split; [reflexivity|].
      constructor; [|exact Hsteps].
      unfold month_step. repeat split; auto; congruence.
    + apply orb_false_iff in Hskip as [Hpaid _].
      intros H. apply IH in H as (todo' & -> & Hsteps).
      eexists (_ :: todo'). rewrite <- app_assoc. split; [reflexivity|].
      constructor; [|exact Hsteps].
      destruct (Num.le _ Num.cent) eqn:Hle; unfold month_step; cbn;
        repeat split; try congruence.
      * intros _. left. apply Qle_refl.
      * intros _. left. unfold Num.max. apply Q.le_max_l.
Qed.

Lemma cascade_body_steps extra s :
  Forall2 month_step (remainingDebts s) (remainingDebts (cascade_body extra s)).
Proof.
  unfold cascade_body.
  destruct (apply_payments _ _ _ _ _) as [[rs tip] log] eqn:H.
  apply apply_payments_steps in H as (todo' & -> & Hsteps). exact Hsteps.
Qed.

Lemma month_steps_keep (rs rs' : list Remaining) :
  Forall2 month_step rs rs' ->
  map rd_debt rs' = map rd_debt rs /\
  (Forall paid_is_zero rs -> Forall paid_is_zero rs').
Proof.
  induction 1 as [|d d' rs rs' (Hd & Hkeep & Hzero & _) _ [IH1 IH2]];
    [split; [reflexivity|constructor]|].
  split; [cbn; congruence|].
  intros Hall. inversion Hall as [|? ? Hd0 Hrs]; subst.
  constructor; [|auto].
  unfold paid_is_zero in *. intros Hp.
  destruct (paid d) eqn:Hpd; [rewrite (Hkeep eq_refl); auto|auto].
Qed.

(** The cascading month loop, for every list of debts in strategy order and
    every extra payment: it simulates at most 599 months ([currentMonth]
    starts at 1 and the guard asks for less than 600); it never reorders,
    drops or changes the debts; every debt it has marked paid has the balance
    0; and it stops with no debt left unpaid or at month 600.  In each
    month, an entry that is paid is left as it is. *)
Lemma cascade_loop_invariants (k : nat) sortedDebts extra :
  (exists c n,
     cascade_loop (600 + k) sortedDebts extra = Some (c, n) /\
     (n <= 599)%nat /\
     currentMonth c = (1 + Z.of_nat n)%Z /\
     map rd_debt (remainingDebts c) = sortedDebts /\
     Forall paid_is_zero (remainingDebts c) /\
     (existsb unpaid (remainingDebts c) = false \/ currentMonth c = 600%Z)) /\
  (forall s, Forall2 month_step (remainingDebts s)
               (remainingDebts (cascade_body extra s))).
Proof.
  split; [|intros s; apply cascade_body_steps].
  destruct (PayoffFacts.cascade_loop_ends k sortedDebts extra)
    as (c & n & Hloop & _ & Hc).
  exists c, n. split; [exact Hloop|]. unfold cascade_loop in Hloop.
  assert (Hinv : (map rd_debt (remainingDebts c) = sortedDebts /\
                  Forall paid_is_zero (remainingDebts c)) /\
                 (currentMonth c <= 600)%Z).
  { apply (while_invariant cascade_cond (cascade_body extra)
             (fun s => (map rd_debt (remainingDebts s) = sortedDebts /\
                        Forall paid_is_zero (remainingDebts s)) /\
                       (currentMonth s <= 600)%Z)) in Hloop; [exact Hloop| |].
    - intros s [[H1 H2] _] Hcond.
      destruct (month_steps_keep _ _ (cascade_body_steps extra s)) as [H3 H4].
      split; [split; [congruence|auto]|].
      rewrite PayoffFacts.cascade_body_month.
      unfold cascade_cond, maxMonths in Hcond.
      apply andb_true_iff in Hcond as [_ Hlt]. apply Z.ltb_lt in Hlt. lia.
    - cbn [cascade_init remainingDebts currentMonth]. split; [split|lia].
      + rewrite map_map. cbn. apply map_id.
      + apply List.Forall_forall. intros d Hd.
        apply in_map_iff in Hd as (d0 & <- & _). unfold paid_is_zero.
        cbn. discriminate. }
  destruct Hinv as [[Hdebts Hzero] Hmax].
  assert (Hmonth : currentMonth c = (1 + Z.of_nat n)%Z).
  { apply while_iter in Hloop as (-> & _ & _). clear.
    induction n as [|n IH]; [reflexivity|].
    rewrite Nat.iter_succ, PayoffFacts.cascade_body_month, IH. lia. }
  repeat split; try assumption.
  - lia.
  - unfold cascade_cond, maxMonths in Hc. apply andb_false_iff in Hc as [Hc|Hc].
    + left. exact Hc.
    + right. apply Z.ltb_ge in Hc. lia.
Qed.

End CascadeInvariants.

Module MetricsFacts.
Import Payoff PayoffMetrics PayoffSpec.
Local Open Scope Q_scope.

(** The interest a month of the cascading loop adds: that of the debts that
    are unpaid when the month starts, each on its balance at that time. *)
Lemma apply_payments_interest totalExtra todo :
  forall done tip log,
    (apply_payments totalExtra done todo tip log).1.2
    = fold_left
        (fun sum d =>
           Num.add sum (calculateMonthlyInterest (currentBalance d) (apr (rd_debt d))))
        (List.filter unpaid todo) tip.
Proof.
  induction todo as [|d rest IH]; intros done tip log; [reflexivity|].
  cbn [apply_payments List.filter]. rewrite CascadeFacts.skip_not_unpaid.
  destruct (unpaid d); cbn [negb]; [|apply IH].
  cbv zeta. rewrite IH. reflexivity.
Qed.

Lemma filter_unpaid_init (ds : list DebtForPayoff) :
  List.filter unpaid (remainingDebts (cascade_init ds))
  = map (fun d => {| rd_debt := d; currentBalance := balance d; paid := false |})
      (List.filter (fun d => Num.gt (balance d) Num.cent) ds).
Proof.
  cbn [cascade_init remainingDebts].
  induction ds as [|d ds IH]; [reflexivity|].
  cbn [map List.filter]. unfold unpaid at 1. cbn [paid currentBalance negb andb].
  destruct (Num.gt (balance d) Num.cent); cbn [map]; rewrite IH; reflexivity.
Qed.

(** The interest that the simulation charges in its first month, whatever
    the extra payment, is [estimateMonthlyInterestBurn] of the debts that
    are not settled (a balance above 0.01), taken in the order of the
    strategy: the same interest amounts are added in the same order.
    Without debts [estimateMonthlyInterestBurn] is 0. *)
Lemma burn_is_first_month_interest (ds : list DebtForPayoff)
    (strat : Strategy) (extra : Q) :
  cl_totalInterestPaid (cascade_body extra (cascade_init (sorted_by strat ds)))
  = estimateMonthlyInterestBurn
      (List.filter (fun d => Num.gt (balance d) Num.cent) (sorted_by strat ds)) /\
  estimateMonthlyInterestBurn [] = 0.
Proof.
  split; [|reflexivity].
  unfold cascade_body.
  pose proof (apply_payments_interest
    (Num.add extra (freedPayments (remainingDebts (cascade_init (sorted_by strat ds)))))
    (remainingDebts (cascade_init (sorted_by strat ds))) []
    (cl_totalInterestPaid (cascade_init (sorted_by strat ds))) []) as H.
  destruct (apply_payments _ _ _ _ _) as [[rs tip] log].
  cbn [fst snd cl_totalInterestPaid] in *.
  rewrite H, filter_unpaid_init.
  unfold estimateMonthlyInterestBurn.
  generalize (List.filter (fun d => Num.gt (balance d) Num.cent) (sorted_by strat ds)).
  intros l.
  enough (Hfold : forall a,
    fold_left
      (fun sum d =>
         Num.add sum (calculateMonthlyInterest (currentBalance d) (apr (rd_debt d))))
      (map (fun d => {| rd_debt := d; currentBalance := balance d; paid := false |}) l)
      a
    = fold_left
        (fun sum d => Num.add sum (calculateMonthlyInterest (balance d) (apr d)))
        l a) by apply Hfold.
  induction l as [|d l IH]; intros a; [reflexivity|].
  cbn [map fold_left rd_debt currentBalance]. apply IH.
Qed.

Lemma fold_Qmax_spec xs : forall x,
  In (fold_left Qmax xs x) (x :: xs) /\
  Forall (fun y => y <= fold_left Qmax xs x) (x :: xs).
Proof.
  induction xs as [|y xs IH]; intros x; cbn [fold_left].
  - split; [left; reflexivity|]. repeat constructor. apply Qle_refl.
  - destruct (IH (Qmax x y)) as [Hin Hall].
    inversion Hall as [|? ? Hm Hxs]; subst. split.
    + destruct Hin as [Hin|Hin]; [|right; right; exact Hin].
      rewrite <- Hin. unfold Qmax, GenericMinMax.gmax.
      destruct (x ?= y); [left|right; left|left]; reflexivity.
    + repeat constructor; [| |exact Hxs].
      * eapply Qle_trans; [apply Q.le_max_l|exact Hm].
      * eapply Qle_trans; [apply Q.le_max_r|exact Hm].
Qed.

Lemma fold_Qmin_spec xs : forall x,
  In (fold_left Qmin xs x) (x :: xs) /\
  Forall (fun y => fold_left Qmin xs x <= y) (x :: xs).
Proof.
  induction xs as [|y xs IH]; intros x; cbn [fold_left].
  - split; [left; reflexivity|]. repeat constructor. apply Qle_refl.
  - destruct (IH (Qmin x y)) as [Hin Hall].
    inversion Hall as [|? ? Hm Hxs]; subst. split.
    + destruct Hin as [Hin|Hin]; [|right; right; exact Hin].
      rewrite <- Hin. unfold Qmin, GenericMinMax.gmin.
      destruct (x ?= y); [left|left|right; left]; reflexivity.
    + repeat constructor; [| |exact Hxs].
      * eapply Qle_trans; [exact Hm|apply Q.le_min_l].
      * eapply Qle_trans; [exact Hm|apply Q.le_min_r].
Qed.

Lemma fold_add_zero {A : Type} (f : A -> Q) (l : list A) :
  Forall (fun d => f d == 0) l ->
  fold_left (fun sum d => Num.add sum (f d)) l 0 = 0.
Proof.
  induction 1 as [|d l Hd _ IH]; [reflexivity|].
  cbn [fold_left].
  replace (Num.add 0 (f d)) with 0; [exact IH|].
  unfold Num.add. symmetry. apply (Qred_complete (0 + f d) 0). lra.
Qed.

(** [calculateDebtMetrics]: without debts every metric is 0.  With debts,
    [highestApr] is the largest apr and [lowestBalance] the smallest balance
    among them; and when all the balances are 0 the total debt is 0 and the
    weighted average apr, a division of 0 by 0, is NaN. *)
Lemma debt_metrics_edges (ds : list DebtForPayoff) :
  calculateDebtMetrics []
  = {| totalDebt := 0; totalMonthlyEmi := 0; weightedAvgApr := Js.Fin 0;
       highestApr := Js.Fin 0; lowestBalance := Js.Fin 0 |} /\
  (ds <> [] ->
     (exists h, highestApr (calculateDebtMetrics ds) = Js.Fin h /\
                In h (map apr ds) /\ Forall (fun d => apr d <= h) ds) /\
     (exists l, lowestBalance (calculateDebtMetrics ds) = Js.Fin l /\
                In l (map balance ds) /\ Forall (fun d => l <= balance d) ds) /\
     (Forall (fun d => balance d == 0) ds ->
        totalDebt (calculateDebtMetrics ds) = 0 /\
        weightedAvgApr (calculateDebtMetrics ds) = Js.NaN)).
Proof.
  split; [reflexivity|]. intros Hne.
  destruct ds as [|d ds]; [congruence|].
  unfold calculateDebtMetrics. cbn [length Nat.eqb].
  cbn [highestApr lowestBalance totalDebt weightedAvgApr].
  repeat split.
  - cbn [map Math_max_of]. eexists. split; [reflexivity|].
    destruct (fold_Qmax_spec (map apr ds) (apr d)) as [Hin Hall].
    split; [exact Hin|]. change (apr d :: map apr ds) with (map apr (d :: ds)) in Hall.
    rewrite List.Forall_map in Hall. exact Hall.
  - cbn [map Math_min_of]. eexists. split; [reflexivity|].
    destruct (fold_Qmin_spec (map balance ds) (balance d)) as [Hin Hall].
    split; [exact Hin|].
    change (balance d :: map balance ds) with (map balance (d :: ds)) in Hall.
    rewrite List.Forall_map in Hall. exact Hall.
  - rewrite (fold_add_zero balance) by assumption. reflexivity.
  - rewrite (fold_add_zero balance) by assumption.
    rewrite (fold_add_zero (fun d => Num.mul (apr d) (balance d))); [reflexivity|].
    eapply Forall_impl; [eassumption|]. intros d0 Hd0. simpl in Hd0.
    rewrite NumFacts.mul_eq, Hd0. lra.
Qed.

End MetricsFacts.

Module CompareFacts.
Import Payoff.
Local Open Scope Q_scope.

(** When the two strategies put the debts in the same order (as they do for
    a single debt), the two simulations agree in everything but the name of
    the strategy, the interest difference is 0 and the recommendation is
    snowball. *)
Lemma same_order_same_outcome (k : nat) (ds : list DebtForPayoff) (extra : Q) :
  sortForAvalanche ds = sortForSnowball ds ->
  exists c,
    compareStrategies (600 + k) ds extra = Some c /\
    debts (avalanche c) = debts (snowball c) /\
    totalMonths (avalanche c) = totalMonths (snowball c) /\
    totalInterestPaid (avalanche c) = totalInterestPaid (snowball c) /\
    monthsSaved (avalanche c) = monthsSaved (snowball c) /\
    interestSaved (avalanche c) = interestSaved (snowball c) /\
    interestDifference c == 0 /\
    recommendation c = Snowball.
Proof.
  intros Horder.
  destruct (PayoffFacts.simulatePayoff_returns k ds Avalanche extra)
    as (a & Ha & _).
  destruct (PayoffFacts.simulatePayoff_returns k ds Snowball extra)
    as (s & Hs & _).
  assert (Hsame : debts a = debts s /\ totalMonths a = totalMonths s /\
                  totalInterestPaid a = totalInterestPaid s /\
                  monthsSaved a = monthsSaved s /\
                  interestSaved a = interestSaved s).
  { destruct ds as [|d0 ds0] eqn:Hds.
    - injection Ha as <-. injection Hs as <-. repeat split.
    - rewrite <- Hds in *.
      apply PayoffMonths.simulatePayoff_parts in Ha
        as (c1 & n1 & rs1 & b1 & M1 & Hc1 & Hrs1 & Hb1 & HM1 & ->);
        [|rewrite Hds; discriminate].
      apply PayoffMonths.simulatePayoff_parts in Hs
        as (c2 & n2 & rs2 & b2 & M2 & Hc2 & Hrs2 & Hb2 & HM2 & ->);
        [|rewrite Hds; discriminate].
      change (sorted_by Avalanche ds) with (sortForAvalanche ds) in *.
      change (sorted_by Snowball ds) with (sortForSnowball ds) in *.
      rewrite Horder in *.
      assert (c1 = c2) as -> by congruence.
      assert (rs1 = rs2) as -> by congruence.
      assert (b1 = b2) as -> by congruence.
      assert (M1 = M2) as -> by congruence.
      repeat split. }
  destruct Hsame as (H1 & H2 & H3 & H4 & H5).
  unfold compareStrategies. rewrite Ha, Hs. PayoffFacts.step_bind.
  eexists. split; [reflexivity|].
  cbn [avalanche snowball interestDifference recommendation].
  assert (Hzero : Num.sub (totalInterestPaid s) (totalInterestPaid a) = 0).
  { rewrite H3. unfold Num.sub. apply (Qred_complete _ 0). ring. }
  rewrite Hzero. repeat split; assumption || reflexivity.
Qed.

Lemma same_order_same_outcome_witness :
  exists c,
    compareStrategies (600 + 0)
      [PayoffExamples.small_debt; PayoffExamples.large_debt] 100 = Some c /\
    debts (avalanche c) = debts (snowball c) /\
    totalMonths (avalanche c) = totalMonths (snowball c) /\
    totalInterestPaid (avalanche c) = totalInterestPaid (snowball c) /\
    monthsSaved (avalanche c) = monthsSaved (snowball c) /\
    interestSaved (avalanche c) = interestSaved (snowball c) /\
    interestDifference c == 0 /\
    recommendation c = Snowball.
Proof.
  apply (same_order_same_outcome 0
           [PayoffExamples.small_debt; PayoffExamples.large_debt] 100).
  vm_compute. reflexivity.
Defined.

End CompareFacts.

(* ===================================================================== *)
(** * Further properties of the cashflow helpers *)
(* ===================================================================== *)

Module CashflowFacts.
Import Js Cashflow CashflowSummary CashflowSpec.
Local Open Scope Q_scope.

(** [Math.round(x * 10) / 10] on a finite number. *)
Lemma round_one_decimal (x : Q) :
  exists r, div (round (mul (Fin x) 10)) 10 = Fin r /\ one_decimal_of x r.
Proof.
  eexists. split; [reflexivity|]. split.
  - eexists. reflexivity.
  - pose proof (Qfloor_le (x * 10 + (1 # 2))) as H1.
    pose proof (Qlt_floor (x * 10 + (1 # 2))) as H2.
    rewrite inject_Z_plus in H2. change (inject_Z 1) with 1 in H2.
    set (f := inject_Z (Qfloor (x * 10 + (1 # 2)))) in *. clearbody f.
    split.
    + apply Qle_shift_div_l; [reflexivity|]. lra.
    + apply Qle_shift_div_r; [reflexivity|]. lra.
Qed.

Lemma eq_zero_false (q : Q) : ~ q == 0 -> eq (Fin q) 0 = false.
Proof.
  intros H. simpl. destruct (Qeq_bool q 0) eqn:E; [|reflexivity].
  apply Qeq_bool_iff in E. contradiction.
Qed.

(** On finite numbers and a divisor that is not zero, the three ratios of
    cashflow.ts are the exact ratios rounded to one decimal: the savings rate
    is [freeCashflow / totalIncome * 100], the runway
    [liquidAssets / (monthlyExpenses + monthlyEmi)] and the debt-to-income
    ratio [totalEmi / totalIncome * 100], each to within 0.05. *)
Lemma ratios_rounded_to_one_decimal (freeCashflow totalIncome liquidAssets
    monthlyExpenses monthlyEmi : Q) :
  ~ totalIncome == 0 -> ~ monthlyExpenses + monthlyEmi == 0 ->
  (exists r, calculateSavingsRate (Fin freeCashflow) (Fin totalIncome) = Fin r /\
             one_decimal_of (freeCashflow / totalIncome * 100) r) /\
  (exists r, calculateRunway (Fin liquidAssets) (Fin monthlyExpenses) (Fin monthlyEmi)
             = Fin r /\
             one_decimal_of (liquidAssets / (monthlyExpenses + monthlyEmi)) r) /\
  (exists r, calculateDebtToIncomeRatio (Fin monthlyEmi) (Fin totalIncome) = Fin r /\
             one_decimal_of (monthlyEmi / totalIncome * 100) r).
Proof.
  intros Hinc Hburn.
  pose proof (eq_zero_false _ Hinc) as Ei. pose proof (eq_zero_false _ Hburn) as Eb.
  cbn [eq] in Ei, Eb.
  repeat split.
  - unfold calculateSavingsRate. cbn [eq div mul]. rewrite Ei.
    apply round_one_decimal.
  - unfold calculateRunway. cbn [eq add div]. rewrite Eb.
    apply round_one_decimal.
  - unfold calculateDebtToIncomeRatio. cbn [eq div mul]. rewrite Ei.
    apply round_one_decimal.
Qed.

Lemma ratios_rounded_to_one_decimal_witness :
  (exists r, calculateSavingsRate (Fin 50000) (Fin 200000) = Fin r /\
             one_decimal_of (50000 / 200000 * 100) r) /\
  (exists r, calculateRunway (Fin 500000) (Fin 45000) (Fin 25000) = Fin r /\
             one_decimal_of (500000 / (45000 + 25000)) r) /\
  (exists r, calculateDebtToIncomeRatio (Fin 25000) (Fin 200000) = Fin r /\
             one_decimal_of (25000 / 200000 * 100) r).
Proof.
  apply (ratios_rounded_to_one_decimal 50000 200000 500000 45000 25000);
    vm_compute; discriminate.
Defined.

(** Expense items of the category "emi" do not count: the summary is the one
    of the other items.  When all the items are of that category and there is
    no debt, the expenses are 0 and the runway is [Infinity]; without income
    items the savings rate is 0. *)
Lemma emi_expenses_do_not_count (incomes : list IncomeItem)
    (expenses : list ExpenseItem) (debts : list DebtItem) (liquidAssets : number) :
  calculateCashflowSummary incomes expenses debts liquidAssets
  = calculateCashflowSummary incomes
      (List.filter (fun e => negb (String.eqb (category e) "emi")) expenses)
      debts liquidAssets /\
  (Forall (fun e => category e = "emi") expenses ->
     totalExpenses (calculateCashflowSummary incomes expenses debts liquidAssets)
     = Fin 0 /\
     runwayMonths (calculateCashflowSummary incomes expenses [] liquidAssets)
     = Infinity) /\
  savingsRate (calculateCashflowSummary [] expenses debts liquidAssets) = Fin 0.
Proof.
  assert (Hidem : forall es : list ExpenseItem,
    List.filter (fun e => negb (String.eqb (category e) "emi"))
      (List.filter (fun e => negb (String.eqb (category e) "emi")) es)
    = List.filter (fun e => negb (String.eqb (category e) "emi")) es).
  { induction es as [|e es IH]; [reflexivity|]. cbn [List.filter].
    destruct (negb (String.eqb (category e) "emi")) eqn:He; [|exact IH].
    cbn [List.filter]. rewrite He, IH. reflexivity. }
  split; [|split; [|reflexivity]].
  - unfold calculateCashflowSummary, calculateTotalExpenses.
    rewrite Hidem. reflexivity.
  - intros Hall.
    assert (Hnone : List.filter (fun e => negb (String.eqb (category e) "emi"))
                      expenses = []).
    { induction Hall as [|e es He _ IH]; [reflexivity|]. cbn [List.filter].
      rewrite He. exact IH. }
    unfold calculateCashflowSummary, calculateTotalExpenses.
    cbn [totalExpenses runwayMonths]. rewrite Hnone. split; reflexivity.
Qed.

Lemma breakdown_fold (c : string) (expenses : list ExpenseItem) :
  Forall (fun e => exists q, amountMonthly e = Fin q) expenses ->
  forall breakdown : gmap string number,
    (forall k v, breakdown !! k = Some v -> exists q, v = Fin q) ->
    let result :=
      fold_left
        (fun breakdown expense =>
           <[category expense :=
               add (or_zero breakdown (category expense)) (amountMonthly expense)]>
             breakdown)
        expenses breakdown in
    (forall k v, result !! k = Some v -> exists q, v = Fin q) /\
    (Forall (fun e => category e <> c) expenses -> result !! c = breakdown !! c) /\
    (Exists (fun e => category e = c) expenses ->
       exists q, result !! c = Some (Fin q) /\
                 q == finite_at breakdown c + category_total c expenses).
Proof.
  induction 1 as [|e es (a & Ha) _ IH]; intros b Hfin; cbn zeta.
  - cbn [fold_left]. split; [exact Hfin|]. split; [reflexivity|].
    intros Hex. inversion Hex.
  - cbn [fold_left].
    set (b1 := <[category e := add (or_zero b (category e)) (amountMonthly e)]> b).
    assert (Hz : exists z, or_zero b (category e) = Fin z /\
                           z == finite_at b (category e)).
    { unfold or_zero, finite_at.
      destruct (b !! category e) as [v|] eqn:Hb; [|exists 0; split; reflexivity].
      destruct (Hfin _ _ Hb) as (q & ->). cbn [truthy].
      destruct (Qeq_bool q 0) eqn:E; cbn [negb].
      - exists 0. split; [reflexivity|]. apply Qeq_bool_iff in E. lra.
      - exists q. split; reflexivity. }
    destruct Hz as (z & Hz & Hzq).
    assert (Hb1 : b1 !! category e = Some (Fin (z + a))).
    { unfold b1. rewrite lookup_insert_eq, Hz, Ha. reflexivity. }
    assert (Hfin1 : forall k v, b1 !! k = Some v -> exists q, v = Fin q).
    { intros k v. unfold b1. rewrite lookup_insert.
      destruct (decide (category e = k)); [|apply Hfin].
      rewrite Hz, Ha. intros [= <-]. eauto. }
    destruct (IH b1 Hfin1) as (IHfin & IHnone & IHsome). cbn zeta in *.
    split; [exact IHfin|].
    unfold category_total in *. cbn [List.filter].
    destruct (String.eqb_spec (category e) c) as [Hc|Hc].
    + split; [intros Hall; inversion Hall; contradiction|]. intros _.
      rewrite Hc in Hb1. unfold finite_at in Hzq. rewrite Hc in Hzq.
      assert (Hfa : finite_amount e = a) by (unfold finite_amount; rewrite Ha; reflexivity).
      destruct (decide (Exists (fun e0 => category e0 = c) es)) as [Hex|Hnex].
      * destruct (IHsome Hex) as (q & Hq & Hsum). exists q. split; [exact Hq|].
        rewrite Hsum. unfold finite_at. rewrite Hb1.
        cbn [map fold_right]. rewrite Hfa. lra.
      * assert (Hall : Forall (fun e0 => category e0 <> c) es).
        { apply List.Forall_forall. intros e0 Hin Hcat. apply Hnex.
          apply List.Exists_exists. eauto. }
        rewrite (IHnone Hall), Hb1.
        eexists. split; [reflexivity|]. unfold finite_at.
        assert (Hnil : List.filter (fun e0 => String.eqb (category e0) c) es = []).
        { clear - Hall. induction Hall as [|e0 es He0 _ IH]; [reflexivity|].
          cbn [List.filter]. destruct (String.eqb_spec (category e0) c);
            [contradiction|exact IH]. }
        rewrite Hnil. cbn [map fold_right]. rewrite Hfa. lra.
    + assert (Hsame : b1 !! c = b !! c) by (unfold b1; apply lookup_insert_ne, Hc).
      split.
      * intros Hall. inversion Hall; subst. rewrite IHnone by assumption.
        exact Hsame.
      * intros Hex. inversion Hex as [? ? Hhere|? ? Hlater]; subst;
          [contradiction|].
        destruct (IHsome Hlater) as (q & Hq & Hsum). exists q.
        split; [exact Hq|]. rewrite Hsum. unfold finite_at. rewrite Hsame.
        reflexivity.
Qed.

(** [calculateExpenseBreakdown] on finite amounts, for categories that are
    not names of members of [Object.prototype]: the breakdown has a key
    exactly for the categories that occur among the expenses, and the value
    at a category is the sum of the amounts of its items. *)
Lemma expense_breakdown_lookup (expenses : list ExpenseItem) (c : string) :
  Forall (fun e => plain_key (category e) = true /\
                   exists q, amountMonthly e = Fin q) expenses ->
  (calculateExpenseBreakdown expenses !! c = None <->
     Forall (fun e => category e <> c) expenses) /\
  (forall v, calculateExpenseBreakdown expenses !! c = Some v ->
     exists q, v = Fin q /\ q == category_total c expenses).
Proof.
  intros Hplain.
  assert (Hfin : Forall (fun e => exists q, amountMonthly e = Fin q) expenses).
  { eapply Forall_impl; [exact Hplain|]. intros e [_ He]. exact He. }
  destruct (breakdown_fold c expenses Hfin ∅) as (_ & Hnone & Hsome).
  { intros k v Hk. rewrite lookup_empty in Hk. discriminate. }
  cbn zeta in *. fold (calculateExpenseBreakdown expenses) in *.
  destruct (decide (Exists (fun e0 => category e0 = c) expenses)) as [Hex|Hnex].
  - destruct (Hsome Hex) as (q & Hq & Hsum).
    unfold finite_at in Hsum. rewrite lookup_empty in Hsum.
    split.
    + rewrite Hq. split; [discriminate|]. intros Hall. exfalso.
      apply List.Exists_exists in Hex as (e0 & Hin & He0).
      rewrite List.Forall_forall in Hall. exact (Hall e0 Hin He0).
    + intros v. rewrite Hq. intros [= <-]. exists q. split; [reflexivity|]. lra.
  - assert (Hall : Forall (fun e0 => category e0 <> c) expenses).
    { apply List.Forall_forall. intros e0 Hin Hcat. apply Hnex.
      apply List.Exists_exists. eauto. }
    rewrite (Hnone Hall), lookup_empty. split; [tauto|]. discriminate.
Qed.

Lemma expense_breakdown_lookup_witness :
  (calculateExpenseBreakdown
     [{| amountMonthly := Fin 100; category := "food" |};
      {| amountMonthly := Fin 50; category := "housing" |};
      {| amountMonthly := Fin 25; category := "food" |}] !! "food" = None <->
   Forall (fun e => category e <> "food")
     [{| amountMonthly := Fin 100; category := "food" |};
      {| amountMonthly := Fin 50; category := "housing" |};
      {| amountMonthly := Fin 25; category := "food" |}]) /\
  (forall v,
     calculateExpenseBreakdown
       [{| amountMonthly := Fin 100; category := "food" |};
        {| amountMonthly := Fin 50; category := "housing" |};
        {| amountMonthly := Fin 25; category := "food" |}] !! "food" = Some v ->
     exists q, v = Fin q /\
       q == category_total "food"
              [{| amountMonthly := Fin 100; category := "food" |};
               {| amountMonthly := Fin 50; category := "housing" |};
               {| amountMonthly := Fin 25; category := "food" |}]).
Proof.
  apply (expense_breakdown_lookup
           [{| amountMonthly := Fin 100; category := "food" |};
            {| amountMonthly := Fin 50; category := "housing" |};
            {| amountMonthly := Fin 25; category := "food" |}] "food").
  repeat (constructor; [split; [reflexivity|eexists; reflexivity]|]).
  constructor.
Defined.

End CashflowFacts.

(* ===================================================================== *)
(** * Further properties of the rules engine *)
(* ===================================================================== *)

Section SortHead.
Context {A : Type} (after : A -> A -> bool).

(** The first element of a sorted array: it comes after no element of the
    array, and it is the first such element. *)
Lemma Array_sort_head (l : list A) (x : A) (l' : list A) :
  (forall a b, In a l -> In b l -> after a b = true -> after b a = false) ->
  (forall a b c, In a l -> In b l -> In c l ->
     after a b = false -> after b c = false -> after a c = false) ->
  Array_sort after l = x :: l' ->
  exists l1 l2, l = l1 ++ x :: l2 /\
    Forall (fun y => after y x = true) l1 /\
    Forall (fun y => after x y = false) l2.
Proof.
  revert x l'. induction l as [|a l IH]; intros x l' Hasym Htrans; [discriminate|].
  cbn [Array_sort].
  destruct (Array_sort after l) as [|h t] eqn:Hs.
  - assert (l = []) as ->.
    { apply (f_equal (@length _)) in Hs. rewrite Array_sort_length in Hs.
      destruct l; [reflexivity|discriminate]. }
    cbn. intros [= <- <-]. exists [], []. repeat split; constructor.
  - destruct (IH h t) as (l1 & l2 & -> & H1 & H2);
      [intros; apply Hasym; auto using in_cons
      |intros a0 b0 c0 ? ? ?; apply (Htrans a0 b0 c0); auto using in_cons
      |reflexivity|].
    cbn [sort_insert]. destruct (after a h) eqn:Hah.
    + intros [= <- <-]. exists (a :: l1), l2. repeat split.
      * constructor; assumption.
      * assumption.
    + intros [= <- <-]. exists [], (l1 ++ h :: l2). repeat split; [constructor|].
      assert (Hh : In h (a :: l1 ++ h :: l2)) by (right; apply in_elt).
      assert (Ha : In a (a :: l1 ++ h :: l2)) by (left; reflexivity).
      apply List.Forall_forall. intros y Hy.
      apply (Htrans a h y Ha Hh (in_cons _ _ _ Hy) Hah).
      apply in_app_or in Hy as [Hy|[<-|Hy]].
      * apply Hasym; [right; apply in_or_app; left; exact Hy|exact Hh|].
        rewrite List.Forall_forall in H1. apply H1, Hy.
      * destruct (after h h) eqn:Hhh; [|reflexivity].
        rewrite (Hasym h h Hh Hh Hhh) in Hhh. discriminate.
      * rewrite List.Forall_forall in H2. apply H2, Hy.
Qed.

End SortHead.

Module DriftFacts.
Import Js Rules RulesSpec.

Lemma collect_drifts_filter ctx :
  collect_drifts ctx
  = List.filter drifted (map (drift_of ctx) (allocationTargets ctx)).
Proof.
  unfold collect_drifts.
  enough (H : forall acc,
    fold_left
      (fun drifts '(type, target) =>
         let actual := allocation_or_zero (assetAllocation ctx) type in
         let diff := sub actual target in
         if gt (abs diff) (Fin 10)
         then drifts ++ [{| type := type; actual := actual; target := target;
                            diff := diff |}]
         else drifts)
      (allocationTargets ctx) acc
    = acc ++ List.filter drifted (map (drift_of ctx) (allocationTargets ctx)))
    by apply (H []).
  induction (allocationTargets ctx) as [|[type target] l IH]; intros acc.
  - cbn. rewrite app_nil_r. reflexivity.
  - cbn [fold_left map List.filter]. rewrite IH.
    unfold drifted at 2, drift_of at 2. cbn [diff fst snd].
    destruct (gt _ _); [|reflexivity].
    rewrite <- app_assoc. reflexivity.
Qed.

(** The magnitude of a drift above the threshold is a number above 10 or
    [Infinity]. *)
Lemma drifted_cases d :
  drifted d = true ->
  abs (diff d) = PInf \/ exists q, abs (diff d) = Fin q /\ (10 < q)%Q.
Proof.
  unfold drifted, gt. destruct (abs (diff d)) as [q| | |] eqn:E; cbn;
    try discriminate; [|auto].
  destruct (Qlt_le_dec 10 q); [|discriminate]. intros _. right. eauto.
Qed.

(** On drifts above the threshold, the comparison of the sort orders by
    magnitude. *)
Lemma compare_drifts a b :
  drifted a = true -> drifted b = true ->
  gt (sub (abs (diff b)) (abs (diff a))) 0%Q = lt (abs (diff a)) (abs (diff b)).
Proof.
  intros [Ea|(x & Ea & Hx)]%drifted_cases [Eb|(y & Eb & Hy)]%drifted_cases;
    rewrite Ea, Eb; try reflexivity.
  cbn. destruct (Qlt_le_dec 0 (y + - x)), (Qlt_le_dec x y); try reflexivity; lra.
Qed.

Lemma lt_asym a b : lt a b = true -> lt b a = false.
Proof.
  destruct a as [x| | |], b as [y| | |]; cbn; try reflexivity; try discriminate.
  destruct (Qlt_le_dec x y), (Qlt_le_dec y x); try reflexivity; try discriminate.
  lra.
Qed.

Lemma lt_negtrans a b c :
  b <> NaN -> lt a b = false -> lt b c = false -> lt a c = false.
Proof.
  destruct a as [x| | |], b as [y| | |], c as [z| | |]; cbn;
    try reflexivity; try discriminate; try congruence.
  destruct (Qlt_le_dec x y), (Qlt_le_dec y z), (Qlt_le_dec x z);
    try reflexivity; try discriminate. lra.
Qed.

(** [drifts] is empty exactly when no target is away from the actual share
    by more than the threshold. *)
Lemma no_drifts ctx :
  collect_drifts ctx = [] <->
  Forall (fun entry => drifted (drift_of ctx entry) = false) (allocationTargets ctx).
Proof.
  rewrite collect_drifts_filter.
  induction (allocationTargets ctx) as [|e l IH].
  - cbn. split; [constructor|reflexivity].
  - cbn [map List.filter]. destruct (drifted (drift_of ctx e)) eqn:E.
    + split; [discriminate|]. intros H. inversion H; congruence.
    + rewrite IH. split; [constructor; assumption|].
      intros H. inversion H; assumption.
Qed.

(** The rule does not throw, and it is silent exactly when there is no
    drift. *)
Lemma drift_rule_silent ctx :
  checkAllocationDrift ctx <> Throws /\
  (checkAllocationDrift ctx = Returns None <-> collect_drifts ctx = []).
Proof.
  unfold checkAllocationDrift. cbv zeta.
  destruct (collect_drifts ctx) as [|d0 ds] eqn:Hds.
  - cbn. split; [discriminate|tauto].
  - cbn [length Nat.eqb].
    destruct (Array_sort _ (d0 :: ds)) as [|top rest] eqn:Hsort.
    { apply (f_equal (@length _)) in Hsort. rewrite Array_sort_length in Hsort.
      discriminate. }
    split; [discriminate|]. split; discriminate.
Qed.

Lemma le_not_gt (x : number) (a b : Q) :
  (a < b)%Q -> le x (Fin a) = true -> gt x (Fin b) = false.
Proof.
  intros Hab. unfold le, gt. destruct x as [q| | |]; cbn; try discriminate;
    [|reflexivity].
  destruct (Qlt_le_dec q a), (Qlt_le_dec b q); cbn; try reflexivity; try lra.
  intros E. apply Qeq_bool_iff in E. lra.
Qed.

Lemma ge_gt (x : number) (a b : Q) :
  (b < a)%Q -> ge x (Fin a) = true -> gt x (Fin b) = true.
Proof.
  intros Hab. unfold ge, le, gt. destruct x as [q| | |]; cbn; try discriminate;
    [|reflexivity].
  destruct (Qlt_le_dec a q), (Qlt_le_dec b q); cbn; try reflexivity; try lra.
  intros E. apply Qeq_bool_iff in E. lra.
Qed.

(** The allocation drift rule, for targets whose keys are no names of
    members that every object inherits.  When every target is within 9.99
    points of the actual share, where a class without a share counts as 0,
    the rule returns no alert; when some target is 10.01 points or more away
    from the actual share, it returns an alert.  The alert reports the drift
    of one of the targets: among the drifts that the rule collected, the
    first one of the largest magnitude. *)
Lemma allocation_drift_reports_largest (ctx : RulesContext) :
  Forall (fun entry => CashflowSummary.plain_key entry.1 = true)
    (allocationTargets ctx) ->
  (Forall (fun entry => le (gap ctx entry) (Fin (999 # 100)) = true)
     (allocationTargets ctx) ->
   checkAllocationDrift ctx = Returns None) /\
  (Exists (fun entry => ge (gap ctx entry) (Fin (1001 # 100)) = true)
     (allocationTargets ctx) ->
   exists a, checkAllocationDrift ctx = Returns (Some a)) /\
  (forall a, checkAllocationDrift ctx = Returns (Some a) ->
     exists before topDrift after,
       collect_drifts ctx = before ++ topDrift :: after /\
       In topDrift (map (drift_of ctx) (allocationTargets ctx)) /\
       Forall (fun d => lt (abs (diff d)) (abs (diff topDrift)) = true) before /\
       Forall (fun d => lt (abs (diff topDrift)) (abs (diff d)) = false) after /\
       reports a topDrift).
Proof.
  intros _.
  destruct (drift_rule_silent ctx) as [Hthrows Hsilent].
  split; [|split].
  - intros Hnear. apply Hsilent, no_drifts.
    eapply Forall_impl; [exact Hnear|]. intros entry Hle.
    apply (le_not_gt _ (999 # 100) 10); [reflexivity|exact Hle].
  - intros Hfar.
    destruct (checkAllocationDrift ctx) as [[a|]|] eqn:Hrule;
      [eauto| |congruence].
    exfalso. assert (Hnone : Returns None = Returns None) by reflexivity.
    apply Hsilent, no_drifts in Hnone.
    apply List.Exists_exists in Hfar as (entry & Hin & Hge).
    rewrite List.Forall_forall in Hnone. specialize (Hnone entry Hin).
    unfold drifted in Hnone.
    rewrite (ge_gt _ (1001 # 100) 10) in Hnone; [discriminate|reflexivity|exact Hge].
  - unfold checkAllocationDrift. cbv zeta.
    pose proof (collect_drifts_filter ctx) as Hfilter.
    set (drifts := collect_drifts ctx) in *.
    assert (Hall : Forall (fun d => drifted d = true) drifts).
    { rewrite Hfilter. apply List.Forall_forall. intros d Hd.
      apply filter_In in Hd. tauto. }
    destruct (length drifts =? 0)%nat; [discriminate|].
    destruct (Array_sort _ drifts) as [|top rest] eqn:Hsort; [discriminate|].
    intros a [= <-].
    rewrite List.Forall_forall in Hall.
    apply Array_sort_head in Hsort as (l1 & l2 & Hl & H1 & H2).
    + exists l1, top, l2. split; [exact Hl|].
      assert (Htop : drifted top = true).
      { apply Hall. rewrite Hl. apply in_elt. }
      split.
      { assert (Hin : In top drifts) by (rewrite Hl; apply in_elt).
        rewrite Hfilter in Hin. apply filter_In in Hin. tauto. }
      repeat split.
      * apply List.Forall_forall. intros d Hd.
        rewrite List.Forall_forall in H1. specialize (H1 d Hd). cbv beta in H1.
        rewrite compare_drifts in H1; [exact H1| |exact Htop].
        apply Hall. rewrite Hl. apply in_or_app. left. exact Hd.
      * apply List.Forall_forall. intros d Hd.
        rewrite List.Forall_forall in H2. specialize (H2 d Hd). cbv beta in H2.
        rewrite compare_drifts in H2; [exact H2|exact Htop|].
        apply Hall. rewrite Hl. apply in_or_app. right. right. exact Hd.
    + intros x y Hx Hy. rewrite !compare_drifts by auto.
      apply lt_asym.
    + intros x y z Hx Hy Hz. rewrite !compare_drifts by auto.
      apply lt_negtrans.
      destruct (drifted_cases y (Hall y Hy)) as [E|(q & E & _)];
        rewrite E; discriminate.
Qed.

Lemma allocation_drift_reports_largest_witness :
  let ctx := Dashboard.rulesContext DashboardExamples.household in
  exists a,
    checkAllocationDrift ctx = Returns (Some a) /\
    exists before topDrift after,
      collect_drifts ctx = before ++ topDrift :: after /\
      In topDrift (map (drift_of ctx) (allocationTargets ctx)) /\
      Forall (fun d => lt (abs (diff d)) (abs (diff topDrift)) = true) before /\
      Forall (fun d => lt (abs (diff topDrift)) (abs (diff d)) = false) after /\
      reports a topDrift.
Proof.
  intros ctx.
  destruct (allocation_drift_reports_largest ctx) as (_ & Hfar & Hlargest).
  - repeat constructor.
  - destruct Hfar as [a Ha].
    + apply Exists_cons_hd. vm_compute. reflexivity.
    + exists a. split; [exact Ha|]. apply Hlargest, Ha.
Defined.

End DriftFacts.

Module AlertFacts.
Import Js Rules.

(** The alerts with the id of a rule of the catalogue are what this rule
    raises. *)
Lemma raised_with_id ctx rules ids :
  Forall2 (fun rule k => forall a, raised ctx rule = Some a -> id a = k) rules ids ->
  NoDup ids ->
  forall (i : nat) r k, rules !! i = Some r -> ids !! i = Some k ->
  List.filter (has_id k) (omap (raised ctx) rules)
  = match raised ctx r with Some a => [a] | None => [] end.
Proof.
  induction 1 as [|r0 k0 rules ids Hr0 Hrest IH]; intros Hnd i r k Hr Hk;
    [discriminate|].
  apply NoDup_cons in Hnd as [Hk0 Hnd].
  destruct i as [|i]; cbn in Hr, Hk.
  - injection Hr as <-. injection Hk as <-.
    assert (Hnone : List.filter (has_id k0) (omap (raised ctx) rules) = []).
    { apply (RulesFacts.filter_id_none _ _ _ ids Hrest).
      apply List.Forall_forall. intros k' Hk'. apply String.eqb_neq.
      intros ->. apply Hk0, list_elem_of_In, Hk'. }
    change (omap (raised ctx) (r0 :: rules))
      with (match raised ctx r0 with
            | Some a => a :: omap (raised ctx) rules
            | None => omap (raised ctx) rules
            end).
    destruct (raised ctx r0) as [a|] eqn:Ha; [|exact Hnone].
    cbn [List.filter]. unfold has_id at 1. rewrite (Hr0 a eq_refl), String.eqb_refl.
    f_equal. exact Hnone.
  - change (omap (raised ctx) (r0 :: rules))
      with (match raised ctx r0 with
            | Some a => a :: omap (raised ctx) rules
            | None => omap (raised ctx) rules
            end).
    destruct (raised ctx r0) as [a|] eqn:Ha; [|eauto].
    cbn [List.filter]. unfold has_id at 1. rewrite (Hr0 a eq_refl).
    destruct (String.eqb_spec k0 k) as [->|_]; [|eauto].
    exfalso. apply Hk0. eapply list_elem_of_lookup_2, Hk.
Qed.

Lemma filter_singleton_perm {A : Type} (P : A -> bool) (l l' : list A) o :
  Permutation l l' ->
  List.filter P l' = match o with Some a => [a] | None => [] end ->
  List.filter P l = match o with Some a => [a] | None => [] end.
Proof.
  intros Hp Hl'. pose proof (RulesClaims.filter_perm P _ _ Hp) as Hf.
  rewrite Hl' in Hf. destruct o.
  - apply Permutation_length_1_inv, Permutation_sym, Hf.
  - apply Permutation_nil. symmetry. exact Hf.
Qed.

(** The alerts of [evaluateRules] with the id of the [i]-th rule. *)
Lemma alerts_of_rule ctx (i : nat) r k :
  RULES !! i = Some r -> ALERT_IDS !! i = Some k ->
  List.filter (has_id k) (evaluateRules ctx)
  = match raised ctx r with Some a => [a] | None => [] end.
Proof.
  intros Hr Hk.
  apply (filter_singleton_perm _ _ _ _ (RulesFacts.evaluateRules_perm ctx)).
  apply (raised_with_id ctx RULES ALERT_IDS (RulesFacts.RULES_ids ctx)) with (i := i);
    [|assumption..].
  unfold ALERT_IDS. repeat constructor; rewrite ?list_elem_of_In; simpl;
    intuition discriminate.
Qed.

(** Without a positive income, [buildRulesContext] sets the savings rate and
    the debt-to-income ratio to 0, and [evaluateRules] returns the alert for
    a missing income together with a low savings rate alert of severity
    medium; when the income is 0 it returns no alert on the credit card
    balance or on the EMIs, whatever they are. *)
Lemma no_income_alerts (data : FinancialData) :
  gt (income data) 0%Q = false ->
  let ctx := buildRulesContext data in
  savingsRate ctx = Fin 0 /\ debtToIncomeRatio ctx = Fin 0 /\
  (exists a, List.filter (has_id "no-income") (evaluateRules ctx) = [a] /\
             severity a = medium) /\
  (exists a, List.filter (has_id "low-savings-rate") (evaluateRules ctx) = [a] /\
             severity a = medium) /\
  (eq (income data) 0%Q = true ->
     List.filter (has_id "cc-utilization") (evaluateRules ctx) = [] /\
     List.filter (has_id "emi-income-ratio") (evaluateRules ctx) = []).
Proof.
  intros Hinc ctx.
  assert (Hs : savingsRate ctx = Fin 0).
  { unfold ctx, buildRulesContext. cbn [savingsRate]. rewrite Hinc. reflexivity. }
  assert (Hd : debtToIncomeRatio ctx = Fin 0).
  { unfold ctx, buildRulesContext. cbn [debtToIncomeRatio]. rewrite Hinc.
    reflexivity. }
  assert (Hi : totalMonthlyIncome ctx = income data) by reflexivity.
  split; [exact Hs|]. split; [exact Hd|]. split; [|split].
  - rewrite (alerts_of_rule ctx 7 checkNoIncome "no-income") by reflexivity.
    unfold raised, checkNoIncome. rewrite Hi, Hinc. eexists. split; reflexivity.
  - rewrite (alerts_of_rule ctx 5 checkSavingsRate "low-savings-rate")
      by reflexivity.
    unfold raised, checkSavingsRate. rewrite Hs. cbn. eexists. split; reflexivity.
  - intros Hzero. split.
    + rewrite (alerts_of_rule ctx 1 checkCreditCardUtilization "cc-utilization")
        by reflexivity.
      unfold raised, checkCreditCardUtilization. rewrite Hi, Hzero, orb_true_r.
      reflexivity.
    + rewrite (alerts_of_rule ctx 2 checkEmiToIncome "emi-income-ratio")
        by reflexivity.
      unfold raised, checkEmiToIncome. rewrite Hi, Hzero. reflexivity.
Qed.

Lemma no_income_alerts_witness :
  let ctx := buildRulesContext RulesExamples.no_income_data in
  savingsRate ctx = Fin 0 /\ debtToIncomeRatio ctx = Fin 0 /\
  (exists a, List.filter (has_id "no-income") (evaluateRules ctx) = [a] /\
             severity a = medium) /\
  (exists a, List.filter (has_id "low-savings-rate") (evaluateRules ctx) = [a] /\
             severity a = medium) /\
  (eq (income RulesExamples.no_income_data) 0%Q = true ->
     List.filter (has_id "cc-utilization") (evaluateRules ctx) = [] /\
     List.filter (has_id "emi-income-ratio") (evaluateRules ctx) = []).
Proof.
  apply (no_income_alerts RulesExamples.no_income_data).
  vm_compute. reflexivity.
Defined.

End AlertFacts.

Module EmergencyFacts.
Import Js Rules.
Local Open Scope Q_scope.

(** The emergency fund alert.  [evaluateRules] returns no alert with id
    "emergency-fund" when [runwayMonths >= emergencyFundMonthsTarget], and
    exactly one otherwise: of severity high when [runwayMonths < 3], medium
    when [runwayMonths < 5] and low in the remaining cases.  In a context
    built by [buildRulesContext] from expenses and EMIs whose sum is not
    above 0, the runway is [Infinity], and there is no alert unless the
    target is NaN; in a context built from a positive sum of expenses and
    EMIs, liquid assets that are not above 0 and a target above 0, there is
    an alert of severity high. *)
Lemma emergency_fund_alert (ctx : RulesContext) :
  (ge (runwayMonths ctx) (emergencyFundMonthsTarget ctx) = true ->
     List.filter (has_id "emergency-fund") (evaluateRules ctx) = []) /\
  (ge (runwayMonths ctx) (emergencyFundMonthsTarget ctx) = false ->
     exists a, List.filter (has_id "emergency-fund") (evaluateRules ctx) = [a] /\
       severity a = if lt (runwayMonths ctx) 3%Q then high
                    else if lt (runwayMonths ctx) 5%Q then medium else low) /\
  (forall data, ctx = buildRulesContext data ->
     (gt (add (expenses data) (emi data)) 0%Q = false ->
        runwayMonths ctx = Infinity /\
        (emergencyFundMonthsTarget ctx <> NaN ->
           List.filter (has_id "emergency-fund") (evaluateRules ctx) = [])) /\
     (forall e m l t : Q,
        expenses data = Fin e -> emi data = Fin m ->
        d_liquidAssets data = Fin l ->
        s_emergencyFundMonthsTarget (settings data) = Fin t ->
        0 < e + m -> l <= 0 -> 0 < t ->
        exists a, List.filter (has_id "emergency-fund") (evaluateRules ctx) = [a] /\
                  severity a = high)).
Proof.
  rewrite (AlertFacts.alerts_of_rule ctx 0 checkEmergencyFund "emergency-fund")
    by reflexivity.
  assert (Hno : ge (runwayMonths ctx) (emergencyFundMonthsTarget ctx) = true ->
                match raised ctx checkEmergencyFund with
                | Some a => [a] | None => [] end = []).
  { intros Hge. unfold raised, checkEmergencyFund. rewrite Hge. reflexivity. }
  assert (Hyes : ge (runwayMonths ctx) (emergencyFundMonthsTarget ctx) = false ->
                 exists a, match raised ctx checkEmergencyFund with
                           | Some a => [a] | None => [] end = [a] /\
                   severity a = if lt (runwayMonths ctx) 3%Q then high
                                else if lt (runwayMonths ctx) 5%Q then medium
                                     else low).
  { intros Hge. unfold raised, checkEmergencyFund. rewrite Hge. cbv zeta.
    eexists. split; reflexivity. }
  split; [exact Hno|]. split; [exact Hyes|].
  intros data ->. split.
  - intros Hburn.
    assert (Hrun : runwayMonths (buildRulesContext data) = Infinity).
    { unfold buildRulesContext. cbn [runwayMonths]. rewrite Hburn. reflexivity. }
    split; [exact Hrun|]. intros Htarget. apply Hno. rewrite Hrun.
    destruct (emergencyFundMonthsTarget (buildRulesContext data));
      try reflexivity. congruence.
  - intros e m l t He Hm Hl Ht Hpos Hl0 Ht0.
    assert (Hrun : runwayMonths (buildRulesContext data) = Fin (l / (e + m))).
    { unfold buildRulesContext. cbn [runwayMonths]. rewrite He, Hm, Hl.
      cbn [add gt lt div]. destruct (Qlt_le_dec 0 (e + m)); [|lra].
      destruct (Qeq_bool (e + m) 0) eqn:E; [apply Qeq_bool_iff in E; lra|].
      reflexivity. }
    assert (Htarget : emergencyFundMonthsTarget (buildRulesContext data) = Fin t)
      by exact Ht.
    assert (Hr0 : l / (e + m) <= 0).
    { apply Qle_shift_div_r; [exact Hpos|]. lra. }
    destruct Hyes as (a & Ha & Hsev).
    + rewrite Hrun, Htarget. unfold ge, le. cbn [lt eq].
      destruct (Qlt_le_dec t (l / (e + m))); [lra|]. cbn [orb].
      destruct (Qeq_bool t (l / (e + m))) eqn:E; [|reflexivity].
      apply Qeq_bool_iff in E. lra.
    + exists a. split; [exact Ha|]. rewrite Hsev, Hrun. cbn [lt].
      destruct (Qlt_le_dec (l / (e + m)) 3); [reflexivity|lra].
Qed.

Lemma emergency_fund_alert_witness :
  exists a,
    List.filter (has_id "emergency-fund")
      (evaluateRules (buildRulesContext RulesExamples.drained_data)) = [a] /\
    severity a = high.
Proof.
  destruct (emergency_fund_alert (buildRulesContext RulesExamples.drained_data))
    as (_ & _ & Hbuilt).
  destruct (Hbuilt RulesExamples.drained_data eq_refl) as [_ Hhigh].
  apply (Hhigh 1200 0 0 6); reflexivity || (vm_compute; congruence).
Defined.

End EmergencyFacts.

Module SeverityFacts.
Import Js Rules RulesSpec.

Ltac rule_severity :=
  unfold raised; cbv beta zeta;
  repeat RulesFacts.innermost_case;
  intros [= <-]; cbn; auto.

Lemma raised_severity ctx :
  Forall (fun rule => forall a, raised ctx rule = Some a ->
                                In (severity a) (severities_of (id a))) RULES.
Proof.
  unfold RULES. repeat constructor; intros a.
  - unfold checkEmergencyFund. rule_severity.
  - unfold checkCreditCardUtilization. rule_severity.
  - unfold checkEmiToIncome. rule_severity.
  - unfold checkHighAprDebtWithInvestments. rule_severity.
  - unfold checkNegativeCashflow. rule_severity.
  - unfold checkSavingsRate. rule_severity.
  - unfold checkAllocationDrift. rule_severity.
  - unfold checkNoIncome. rule_severity.
Qed.

(** The severity of an alert follows from its id: a negative cashflow alert
    is high, the alerts on debt held next to investments and on a missing
    income are medium, an allocation drift alert is low, and a low savings
    rate alert is medium or low.  So at most four of the alerts that
    [evaluateRules] returns are of severity high. *)
Lemma severity_by_rule (ctx : RulesContext) :
  Forall (fun a => In (severity a) (severities_of (id a))) (evaluateRules ctx) /\
  (length (List.filter (has_severity high) (evaluateRules ctx)) <= 4)%nat.
Proof.
  assert (Hall : Forall (fun a => In (severity a) (severities_of (id a)))
                   (evaluateRules ctx)).
  { apply List.Forall_forall. intros a Ha.
    apply (Permutation_in _ (RulesFacts.evaluateRules_perm ctx)) in Ha.
    apply list_elem_of_In, list_elem_of_omap in Ha as (rule & Hrule & Hraised).
    pose proof (raised_severity ctx) as Hsev. rewrite List.Forall_forall in Hsev.
    apply (Hsev rule); [apply list_elem_of_In, Hrule|exact Hraised]. }
  split; [exact Hall|].
  rewrite RulesFacts.evaluateRules_stable, RulesFacts.run_rules_omap.
  unfold RULES.
  change (omap (raised ctx)
            [checkEmergencyFund; checkCreditCardUtilization; checkEmiToIncome;
             checkHighAprDebtWithInvestments; checkNegativeCashflow;
             checkSavingsRate; checkAllocationDrift; checkNoIncome])
    with (omap (raised ctx)
            ([checkEmergencyFund; checkCreditCardUtilization; checkEmiToIncome]
             ++ [checkHighAprDebtWithInvestments]
             ++ [checkNegativeCashflow]
             ++ [checkSavingsRate; checkAllocationDrift; checkNoIncome])).
  rewrite !omap_app, !List.filter_app, !length_app.
  assert (Hle : forall rules, (length (List.filter (has_severity high)
                                 (omap (raised ctx) rules)) <= length rules)%nat).
  { intros rules. etransitivity; [apply List.filter_length_le|].
    induction rules as [|r rules IH]; [reflexivity|].
    change (omap (raised ctx) (r :: rules))
      with (match raised ctx r with
            | Some a => a :: omap (raised ctx) rules
            | None => omap (raised ctx) rules
            end).
    destruct (raised ctx r); cbn [length]; lia. }
  assert (Hnone : forall rule,
    (forall a, raised ctx rule = Some a -> severity a <> high) ->
    List.filter (has_severity high) (omap (raised ctx) [rule]) = []).
  { intros rule Hrule.
    change (omap (raised ctx) [rule])
      with (match raised ctx rule with Some a => [a] | None => [] end).
    destruct (raised ctx rule) as [a|] eqn:E; [|reflexivity].
    cbn. unfold has_severity. specialize (Hrule a eq_refl).
    destruct (severity a); [congruence|reflexivity..]. }
  pose proof (Hle [checkEmergencyFund; checkCreditCardUtilization; checkEmiToIncome])
    as H1.
  pose proof (Hle [checkNegativeCashflow]) as H2.
  rewrite (Hnone checkHighAprDebtWithInvestments).
  2:{ intros a. unfold checkHighAprDebtWithInvestments. rule_severity; discriminate. }
  assert (H3 : List.filter (has_severity high)
                 (omap (raised ctx) [checkSavingsRate; checkAllocationDrift;
                                     checkNoIncome]) = []).
  { change [checkSavingsRate; checkAllocationDrift; checkNoIncome]
      with ([checkSavingsRate] ++ [checkAllocationDrift] ++ [checkNoIncome]).
    rewrite !omap_app, !List.filter_app.
    rewrite (Hnone checkSavingsRate), (Hnone checkAllocationDrift),
      (Hnone checkNoIncome); [reflexivity|..]; intros a.
    - unfold checkNoIncome. rule_severity; discriminate.
    - unfold checkAllocationDrift. rule_severity; discriminate.
    - unfold checkSavingsRate. rule_severity; discriminate. }
  rewrite H3. cbn [length] in *. lia.
Qed.

End SeverityFacts.

(* ===================================================================== *)
(** * Properties of the net worth helpers *)
(* ===================================================================== *)

Module NetworthFacts.
Import Networth NetworthSpec CashflowSpec.
Local Open Scope Q_scope.

Lemma fold_add {A : Type} (f : A -> Q) (l : list A) : forall a,
  fold_left (fun sum x => Num.add sum (f x)) l a == a + fold_right Qplus 0 (map f l).
Proof.
  induction l as [|x l IH]; intros a; cbn [fold_left map fold_right]; [ring|].
  rewrite IH, NumFacts.add_eq. ring.
Qed.

Lemma filter_liquid holdings :
  List.filter
    (fun h => includes (map AssetType_name LIQUID_ASSET_TYPES)
                (AssetType_name (type h))) holdings
  = List.filter is_liquid holdings.
Proof.
  induction holdings as [|h l IH]; [reflexivity|]. cbn [List.filter].
  rewrite IH. unfold is_liquid. destruct (type h); reflexivity.
Qed.

Lemma holdings_value_nonneg holdings :
  Forall (fun h => 0 <= value h) holdings -> 0 <= holdings_value holdings.
Proof.
  unfold holdings_value. induction 1 as [|h l Hh _ IH]; cbn; [lra|]. lra.
Qed.

Lemma fold_add_le {A : Type} (f : A -> Q) (P : A -> bool) (l : list A) :
  Forall (fun x => 0 <= f x) l ->
  forall a b, a <= b ->
    fold_left (fun sum x => Num.add sum (f x)) (List.filter P l) a
    <= fold_left (fun sum x => Num.add sum (f x)) l b.
Proof.
  induction 1 as [|x l Hx _ IH]; intros a b Hab; [exact Hab|].
  cbn [List.filter]. destruct (P x); cbn [fold_left]; apply IH;
    rewrite ?NumFacts.add_eq; lra.
Qed.

(** The liquid assets are the total assets of the same cash accounts and of
    the holdings in equity, mutual funds, crypto and gold alone; so when no
    holding has a negative value, the liquid assets are at most the total
    assets. *)
Lemma liquid_and_illiquid (cashAccounts : list CashAccount)
    (holdings : list AssetItem) :
  calculateLiquidAssets cashAccounts holdings
  = calculateTotalAssets cashAccounts (List.filter is_liquid holdings) /\
  (Forall (fun h => 0 <= value h) holdings ->
   calculateLiquidAssets cashAccounts holdings
   <= calculateTotalAssets cashAccounts holdings).
Proof.
  split.
  - unfold calculateLiquidAssets, calculateTotalAssets.
    rewrite filter_liquid. reflexivity.
  - intros Hpos. unfold calculateLiquidAssets, calculateTotalAssets. cbv zeta.
    rewrite !NumFacts.add_eq. apply Qplus_le_r.
    apply fold_add_le; [exact Hpos|apply Qle_refl].
Qed.

Lemma liquid_and_illiquid_witness :
  let cashAccounts := [{| balance := 100000 |}] in
  let holdings := [{| type := equity; value := 200000 |};
                   {| type := realestate; value := 5000000 |};
                   {| type := vehicle; value := 800000 |}] in
  calculateLiquidAssets cashAccounts holdings
  <= calculateTotalAssets cashAccounts holdings.
Proof.
  apply (liquid_and_illiquid
           [{| balance := 100000 |}]
           [{| type := equity; value := 200000 |};
            {| type := realestate; value := 5000000 |};
            {| type := vehicle; value := 800000 |}]).
  repeat constructor; vm_compute; discriminate.
Defined.

(** ** The asset allocation *)

Lemma or_zero_default (m : gmap string Q) k : or_zero m k == default 0 (m !! k).
Proof.
  unfold or_zero. destruct (m !! k) as [x|]; cbn; [|reflexivity].
  destruct (Qeq_bool x 0) eqn:E; [|reflexivity].
  apply Qeq_bool_iff in E. symmetry. exact E.
Qed.

Lemma amounts_fold (k : string) (holdings : list AssetItem) :
  forall m0 : gmap string Q,
    (fold_left add_holding holdings m0 !! k = None <->
       m0 !! k = None /\ Forall (fun h => key_of h <> k) holdings) /\
    (forall v, fold_left add_holding holdings m0 !! k = Some v ->
       v == default 0 (m0 !! k)
            + holdings_value (List.filter (fun h => String.eqb (key_of h) k) holdings)).
Proof.
  unfold holdings_value.
  induction holdings as [|h l IH]; intros m0; cbn [fold_left List.filter].
  - split.
    + split; [intros H; split; [exact H|constructor]|tauto].
    + intros v ->. cbn. ring.
  - destruct (IH (add_holding m0 h)) as [IHnone IHsome].
    destruct (String.eqb_spec (key_of h) k) as [Hk|Hk].
    + assert (Hm1 : add_holding m0 h !! k
                    = Some (Num.add (or_zero m0 k) (value h))).
      { unfold add_holding. fold (key_of h). rewrite Hk. apply lookup_insert_eq. }
      split.
      * rewrite IHnone, Hm1. split; [intros [? _]; discriminate|].
        intros [_ Hall]. inversion Hall; contradiction.
      * intros v Hv. rewrite (IHsome v Hv), Hm1. cbn [default map fold_right].
        rewrite NumFacts.add_eq, or_zero_default. unfold id. ring.
    + assert (Hm1 : add_holding m0 h !! k = m0 !! k).
      { unfold add_holding. fold (key_of h). apply lookup_insert_ne, Hk. }
      split.
      * rewrite IHnone, Hm1. split.
        -- intros [H1 H2]. split; [exact H1|constructor; assumption].
        -- intros [H1 H2]. inversion H2; subst. tauto.
      * intros v Hv. rewrite (IHsome v Hv), Hm1. reflexivity.
Qed.

Lemma add_comm_acc (y z1 z2 : Q) :
  Num.add (Num.add y z2) z1 = Num.add (Num.add y z1) z2.
Proof.
  unfold Num.add. apply Qred_complete. rewrite !Qred_correct. lra.
Qed.

Lemma sum_values_insert (m : gmap string Q) k x :
  sum_values (<[k := x]> m) == sum_values (delete k m) + x.
Proof.
  unfold sum_values. rewrite <- insert_delete_eq.
  rewrite map_fold_insert_L.
  - apply NumFacts.add_eq.
  - intros. apply add_comm_acc.
  - apply lookup_delete_eq.
Qed.

Lemma sum_values_lookup (m : gmap string Q) k :
  sum_values m == sum_values (delete k m) + default 0 (m !! k).
Proof.
  destruct (m !! k) as [x|] eqn:Hk; cbn [default].
  - rewrite <- (insert_id m k x Hk) at 1. apply sum_values_insert.
  - rewrite delete_id by exact Hk. ring.
Qed.

Lemma sum_values_fold (holdings : list AssetItem) : forall m0,
  sum_values (fold_left add_holding holdings m0)
  == sum_values m0 + holdings_value holdings.
Proof.
  unfold holdings_value.
  induction holdings as [|h l IH]; intros m0; cbn [fold_left map fold_right];
    [ring|].
  rewrite IH. unfold add_holding at 1. rewrite sum_values_insert.
  rewrite NumFacts.add_eq, or_zero_default.
  rewrite (sum_values_lookup m0 (AssetType_name (type h))). ring.
Qed.

Lemma percentage_spec (total v : Q) :
  one_decimal_of (v / total * 100) (percentage total v).
Proof.
  unfold percentage, Num.round.
  assert (Hx : Num.mul (Num.mul (Num.div v total) 100) 10 == v / total * 100 * 10).
  { rewrite !NumFacts.mul_eq, NumFacts.div_eq. reflexivity. }
  set (x := v / total * 100) in *.
  set (f := Qfloor (Num.mul (Num.mul (Num.div v total) 100) 10 + (1 # 2))).
  assert (Hf : f = Qfloor (x * 10 + (1 # 2))).
  { unfold f. apply Qfloor_comp. rewrite Hx. reflexivity. }
  split.
  - exists f. apply NumFacts.div_eq.
  - rewrite NumFacts.div_eq, Hf.
    pose proof (Qfloor_le (x * 10 + (1 # 2))) as H1.
    pose proof (Qlt_floor (x * 10 + (1 # 2))) as H2.
    rewrite inject_Z_plus in H2. change (inject_Z 1) with 1 in H2.
    set (g := inject_Z (Qfloor (x * 10 + (1 # 2)))) in *. clearbody g.
    split.
    + apply Qle_shift_div_l; [reflexivity|]. lra.
    + apply Qle_shift_div_r; [reflexivity|]. lra.
Qed.

Lemma percentage_bounds (total v : Q) :
  0 < total -> 0 <= v <= total -> 0 <= percentage total v <= 100.
Proof.
  intros Ht [Hv0 Hv]. unfold percentage, Num.round.
  assert (Hx : Num.mul (Num.mul (Num.div v total) 100) 10 == v / total * 100 * 10).
  { rewrite !NumFacts.mul_eq, NumFacts.div_eq. reflexivity. }
  assert (Hq0 : 0 <= v / total) by (apply Qle_shift_div_l; lra).
  assert (Hq1 : v / total <= 1) by (apply Qle_shift_div_r; lra).
  rewrite NumFacts.div_eq.
  assert (H0 : (0 <= Qfloor (Num.mul (Num.mul (Num.div v total) 100) 10 + (1 # 2)))%Z).
  { change 0%Z with (Qfloor 0). apply Qfloor_resp_le. rewrite Hx. lra. }
  assert (H1 : (Qfloor (Num.mul (Num.mul (Num.div v total) 100) 10 + (1 # 2))
                <= 1000)%Z).
  { change 1000%Z with (Qfloor (1000 + (1 # 2))). apply Qfloor_resp_le.
    rewrite Hx. lra. }
  set (f := Qfloor _) in *. clearbody f.
  assert (0 <= inject_Z f) by (change 0 with (inject_Z 0); rewrite <- Zle_Qle; lia).
  assert (inject_Z f <= 1000)
    by (change 1000 with (inject_Z 1000); rewrite <- Zle_Qle; lia).
  split.
  - apply Qle_shift_div_l; [reflexivity|]. lra.
  - apply Qle_shift_div_r; [reflexivity|]. lra.
Qed.

Lemma cash_value_nonneg cashAccounts :
  Forall (fun a => 0 <= balance a) cashAccounts -> 0 <= cash_value cashAccounts.
Proof.
  unfold cash_value. induction 1 as [|a l Ha _ IH]; cbn; lra.
Qed.

Lemma filter_value_le (P : AssetItem -> bool) holdings :
  Forall (fun h => 0 <= value h) holdings ->
  0 <= holdings_value (List.filter P holdings) <= holdings_value holdings.
Proof.
  unfold holdings_value. induction 1 as [|h l Hh _ IH]; cbn; [lra|].
  destruct (P h); cbn; lra.
Qed.

Lemma amounts_start (cashAccounts : list CashAccount) (holdings : list AssetItem) :
  exists m0 : gmap string Q,
    allocation_amounts cashAccounts holdings = fold_left add_holding holdings m0 /\
    (forall k, k <> "cash" -> m0 !! k = None) /\
    (m0 !! "cash" = None -> cash_value cashAccounts <= 0) /\
    (forall v, m0 !! "cash" = Some v -> v == cash_value cashAccounts /\ 0 < v) /\
    sum_values m0 == default 0 (m0 !! "cash").
Proof.
  unfold allocation_amounts. cbv zeta.
  pose proof (fold_add balance cashAccounts 0) as Hc. fold (cash_value cashAccounts) in Hc.
  set (cashTotal := fold_left _ cashAccounts 0) in *.
  destruct (Num.gt cashTotal 0) eqn:Hgt; eexists; (split; [reflexivity|]).
  - apply NumFacts.gt_true in Hgt. split; [|split; [|split]].
    + intros k Hk. rewrite lookup_insert_ne by congruence. apply lookup_empty.
    + rewrite lookup_insert_eq. discriminate.
    + intros v. rewrite lookup_insert_eq. intros [= <-]. split; lra.
    + rewrite sum_values_insert, lookup_insert_eq, delete_empty.
      unfold sum_values. rewrite map_fold_empty. cbn. lra.
  - apply NumFacts.gt_false in Hgt. split; [|split; [|split]].
    + intros k _. apply lookup_empty.
    + intros _. lra.
    + intros v. rewrite lookup_empty. discriminate.
    + rewrite lookup_empty. unfold sum_values. rewrite map_fold_empty.
      reflexivity.
Qed.

Lemma not_Exists_Forall_key (k : string) (holdings : list AssetItem) :
  ~ Exists (fun h => AssetType_name (type h) = k) holdings ->
  Forall (fun h => key_of h <> k) holdings.
Proof.
  intros Hnex. apply List.Forall_forall. intros h Hin Hk. apply Hnex.
  apply List.Exists_exists. eauto.
Qed.

Lemma allocation_key_cases (cashAccounts : list CashAccount)
    (holdings : list AssetItem) (k : string) :
  is_Some (calculateAssetAllocation cashAccounts holdings !! k) ->
  k = "cash" \/ Exists (fun h => AssetType_name (type h) = k) holdings.
Proof.
  destruct (amounts_start cashAccounts holdings) as (m0 & Hm & Hother & _).
  intros Hsome. unfold calculateAssetAllocation in Hsome. cbv zeta in Hsome.
  destruct (Qeq_bool _ 0).
  { rewrite lookup_empty in Hsome. destruct Hsome; discriminate. }
  rewrite lookup_fmap in Hsome. apply fmap_is_Some in Hsome.
  destruct (String.eqb_spec k "cash") as [|Hcash]; [left; assumption|right].
  destruct (decide (Exists (fun h => AssetType_name (type h) = k) holdings))
    as [Hex|Hnex]; [exact Hex|exfalso].
  rewrite Hm in Hsome.
  destruct (amounts_fold k holdings m0) as [Hnone _].
  destruct Hnone as [_ Hnone]. rewrite Hnone in Hsome.
  - destruct Hsome; discriminate.
  - split; [apply Hother, Hcash|apply not_Exists_Forall_key, Hnex].
Qed.

Lemma no_other_key (cashAccounts : list CashAccount) (holdings : list AssetItem) :
  calculateAssetAllocation cashAccounts holdings !! "other" = None.
Proof.
  destruct (calculateAssetAllocation cashAccounts holdings !! "other") eqn:E;
    [|reflexivity].
  destruct (allocation_key_cases cashAccounts holdings "other") as [H|H];
    [rewrite E; eauto|discriminate|].
  apply List.Exists_exists in H as (h & _ & Hh).
  destruct (type h); discriminate.
Qed.

(** The keys of the asset allocation are "cash" and the names of the types
    of the holdings: there is no key "other".  When there is a holding, the
    allocation lacks the key of its type only if the amounts sum to 0, and
    then it is empty. *)
Lemma allocation_keys (cashAccounts : list CashAccount)
    (holdings : list AssetItem) :
  (forall k, is_Some (calculateAssetAllocation cashAccounts holdings !! k) ->
     k = "cash" \/ Exists (fun h => AssetType_name (type h) = k) holdings) /\
  calculateAssetAllocation cashAccounts holdings !! "other" = None /\
  (forall k, Exists (fun h => AssetType_name (type h) = k) holdings ->
     calculateAssetAllocation cashAccounts holdings !! k = None ->
     calculateAssetAllocation cashAccounts holdings = ∅).
Proof.
  split; [apply allocation_key_cases|]. split; [apply no_other_key|].
  destruct (amounts_start cashAccounts holdings) as (m0 & Hm & _).
  intros k Hex. unfold calculateAssetAllocation. cbv zeta.
  destruct (Qeq_bool _ 0); [reflexivity|].
  rewrite lookup_fmap, Hm. intros Hnone. exfalso.
  apply fmap_None in Hnone.
  destruct (amounts_fold k holdings m0) as [[Hnone' _] _].
  destruct (Hnone' Hnone) as [_ Hall].
  apply List.Exists_exists in Hex as (h & Hin & Hh).
  rewrite List.Forall_forall in Hall. exact (Hall h Hin Hh).
Qed.

(** With non-negative balances and values: when the total assets are 0 the
    allocation is empty; otherwise it has a key for "cash" when there is
    cash and for the type of every holding, and the percentage of a class is
    its share of the total assets rounded to one decimal, between 0
    and 100. *)
Lemma asset_allocation_shares (cashAccounts : list CashAccount)
    (holdings : list AssetItem) :
  Forall (fun a => 0 <= balance a) cashAccounts ->
  Forall (fun h => 0 <= value h) holdings ->
  let total := calculateTotalAssets cashAccounts holdings in
  let allocation := calculateAssetAllocation cashAccounts holdings in
  (total == 0 -> allocation = ∅) /\
  (~ total == 0 ->
   forall k,
     (is_Some (allocation !! k) <->
        (k = "cash" /\ 0 < cash_value cashAccounts) \/
        Exists (fun h => AssetType_name (type h) = k) holdings) /\
     (forall p, allocation !! k = Some p ->
        0 <= p <= 100 /\
        one_decimal_of
          (class_value k cashAccounts holdings / total * 100) p)).
Proof.
  intros Hcash Hval total allocation.
  destruct (amounts_start cashAccounts holdings)
    as (m0 & Hm & Hother & Hnocash & Hcashv & Hsum0).
  pose proof (cash_value_nonneg _ Hcash) as Hc0.
  pose proof (holdings_value_nonneg _ Hval) as Hh0.
  assert (Ht : total == cash_value cashAccounts + holdings_value holdings).
  { unfold total, calculateTotalAssets. rewrite NumFacts.add_eq, !fold_add.
    unfold cash_value, holdings_value. ring. }
  assert (Hm0cash : default 0 (m0 !! "cash") == cash_value cashAccounts).
  { destruct (m0 !! "cash") as [v|] eqn:E; cbn.
    - apply (Hcashv v eq_refl).
    - specialize (Hnocash eq_refl). lra. }
  assert (Hsum : sum_values (allocation_amounts cashAccounts holdings) == total).
  { rewrite Hm, sum_values_fold, Hsum0, Hm0cash, Ht. reflexivity. }
  assert (Hm0 : forall k, default 0 (m0 !! k)
                          == if String.eqb k "cash" then cash_value cashAccounts else 0).
  { intros k. destruct (String.eqb_spec k "cash") as [->|Hk]; [exact Hm0cash|].
    rewrite (Hother k Hk). reflexivity. }
  unfold allocation, calculateAssetAllocation. cbv zeta.
  destruct (Qeq_bool _ 0) eqn:Hz.
  { apply Qeq_bool_iff in Hz. rewrite Hsum in Hz.
    split; [reflexivity|]. intros Hne. contradiction. }
  apply Qeq_bool_neq in Hz. rewrite Hsum in Hz.
  split; [intros H; contradiction|]. intros _ k.
  destruct (amounts_fold k holdings m0) as [Hnone Hsome]. rewrite <- Hm in Hnone, Hsome.
  split.
  - rewrite lookup_fmap, fmap_is_Some. split.
    + intros Hk.
      destruct (decide (Exists (fun h => AssetType_name (type h) = k) holdings))
        as [Hex|Hnex]; [right; exact Hex|left].
      destruct (String.eqb_spec k "cash") as [->|Hkc].
      * split; [reflexivity|].
        destruct (m0 !! "cash") as [v|] eqn:E.
        -- destruct (Hcashv v eq_refl). lra.
        -- exfalso. destruct Hnone as [_ Hnone]. rewrite Hnone in Hk.
           ++ destruct Hk; discriminate.
           ++ split; [reflexivity|apply not_Exists_Forall_key, Hnex].
      * exfalso. destruct Hnone as [_ Hnone]. rewrite Hnone in Hk.
        -- destruct Hk; discriminate.
        -- split; [apply Hother, Hkc|apply not_Exists_Forall_key, Hnex].
    + intros Hk.
      destruct Hnone as [Hnone _].
      destruct (allocation_amounts cashAccounts holdings !! k) eqn:E; [eauto|].
      exfalso. destruct (Hnone eq_refl) as [E' Hall].
      destruct Hk as [[-> Hpos]|Hex].
      * specialize (Hnocash E'). lra.
      * apply List.Exists_exists in Hex as (h & Hin & Hh).
        rewrite List.Forall_forall in Hall. exact (Hall h Hin Hh).
  - intros p. rewrite lookup_fmap.
    destruct (allocation_amounts cashAccounts holdings !! k) as [v|] eqn:E;
      [|discriminate].
    cbn. intros [= <-].
    pose proof (Hsome v eq_refl) as Hv. rewrite Hm0 in Hv.
    fold (class_value k cashAccounts holdings) in Hv.
    pose proof (filter_value_le (fun h => String.eqb (key_of h) k) _ Hval) as Hf.
    assert (Hclass : 0 <= class_value k cashAccounts holdings <= total).
    { unfold class_value. rewrite Ht. destruct (String.eqb k "cash"); lra. }
    set (T := sum_values (allocation_amounts cashAccounts holdings)) in *.
    assert (HT : 0 < T) by lra.
    split.
    + apply percentage_bounds; [exact HT|lra].
    + pose proof (percentage_spec T v) as [Hex Hclose].
      split; [exact Hex|].
      assert (Hshare : v / T == class_value k cashAccounts holdings / total).
      { rewrite Hv, Hsum. reflexivity. }
      rewrite <- Hshare. exact Hclose.
Qed.

Lemma asset_allocation_shares_witness :
  let cashAccounts := [{| balance := 100000 |}] in
  let holdings := [{| type := equity; value := 200000 |};
                   {| type := mf; value := 200000 |}] in
  let total := calculateTotalAssets cashAccounts holdings in
  let allocation := calculateAssetAllocation cashAccounts holdings in
  (total == 0 -> allocation = ∅) /\
  (~ total == 0 ->
   forall k,
     (is_Some (allocation !! k) <->
        (k = "cash" /\ 0 < cash_value cashAccounts) \/
        Exists (fun h => AssetType_name (type h) = k) holdings) /\
     (forall p, allocation !! k = Some p ->
        0 <= p <= 100 /\
        one_decimal_of
          (class_value k cashAccounts holdings / total * 100) p)).
Proof.
  apply (asset_allocation_shares
           [{| balance := 100000 |}]
           [{| type := equity; value := 200000 |};
            {| type := mf; value := 200000 |}]);
    repeat constructor; vm_compute; discriminate.
Defined.

End NetworthFacts.

(* ===================================================================== *)
(** * Properties of the dashboard *)
(* ===================================================================== *)

Module DashboardFacts.
Import Js Dashboard RulesSpec CashflowSpec.
Local Open Scope Q_scope.

Lemma one_decimal_of_eq (x x' r : Q) :
  x == x' -> one_decimal_of x r -> one_decimal_of x' r.
Proof. intros Hx [Hk Hr]. split; [exact Hk|]. lra. Qed.

Lemma total_emi_items (f : Fetched) :
  CashflowSummary.calculateTotalEmi
    (map (fun d => {| CashflowSummary.emi := debt_emi d |}) (debts f))
  = totalEmi f.
Proof.
  unfold CashflowSummary.calculateTotalEmi, totalEmi.
  generalize (Fin 0). induction (debts f) as [|d l IH]; intros a; [reflexivity|].
  cbn [map fold_left]. apply IH.
Qed.

(** The asset allocation of the dashboard has no share for the class
    "other": the rules compare the target of this class with 0, so that a
    target above 10 always gives an allocation drift alert. *)
Lemma other_class_has_no_share (f : Fetched) (t : Q) :
  In ("other", Fin t) (Rules.s_allocationTargets (settings f)) -> 10 < t ->
  Rules.allocation_or_zero (Rules.assetAllocation (rulesContext f)) "other" = Fin 0 /\
  exists a,
    List.filter (has_id "allocation-drift") (alerts (getDashboardData f)) = [a].
Proof.
  intros Hin Ht.
  assert (Hzero : Rules.allocation_or_zero
                    (Rules.assetAllocation (rulesContext f)) "other" = Fin 0).
  { unfold Rules.allocation_or_zero, rulesContext, Rules.buildRulesContext.
    cbn [Rules.assetAllocation Rules.d_assetAllocation].
    rewrite lookup_fmap.
    unfold netWorthSummary, Networth.calculateNetWorthSummary.
    cbn [Networth.assetAllocation].
    rewrite (NetworthFacts.no_other_key (accounts f) (holdings f)). reflexivity. }
  split; [exact Hzero|].
  cbn [alerts getDashboardData].
  rewrite (AlertFacts.alerts_of_rule (rulesContext f) 6 Rules.checkAllocationDrift
             "allocation-drift") by reflexivity.
  destruct (DriftFacts.drift_rule_silent (rulesContext f)) as (Hthrows & Hnone).
  rewrite DriftFacts.no_drifts in Hnone.
  unfold raised.
  destruct (Rules.checkAllocationDrift (rulesContext f)) as [[a|]|];
    [eauto| |congruence].
  exfalso. destruct Hnone as [Hnone _]. specialize (Hnone eq_refl).
  rewrite List.Forall_forall in Hnone. specialize (Hnone _ Hin).
  unfold drifted, drift_of in Hnone.
  cbn [Rules.diff fst snd] in Hnone. rewrite Hzero in Hnone.
  cbn [gt lt abs sub add neg] in Hnone.
  destruct (Qlt_le_dec 10 (Qabs (0 + - t))) as [|Hle]; [discriminate|].
  rewrite Qabs_neg in Hle by lra. lra.
Qed.

Lemma other_class_has_no_share_witness :
  Rules.allocation_or_zero
    (Rules.assetAllocation (rulesContext DashboardExamples.household)) "other"
  = Fin 0 /\
  exists a,
    List.filter (has_id "allocation-drift")
      (alerts (getDashboardData DashboardExamples.household)) = [a].
Proof.
  apply (other_class_has_no_share DashboardExamples.household 20).
  - vm_compute. tauto.
  - vm_compute. reflexivity.
Defined.

(** With a positive income and a positive monthly burn, the cashflow summary
    of the dashboard shows the savings rate and the runway that the rules
    use, rounded to one decimal: the rules compare the exact ratios with
    their thresholds. *)
Lemma summary_rounds_what_rules_use (f : Fetched) (i e m : Q) :
  income f = Fin i -> expenses f = Fin e -> totalEmi f = Fin m ->
  0 < i -> 0 < e + m ->
  (exists r x,
     CashflowSummary.savingsRate (cashflow (getDashboardData f)) = Fin r /\
     Rules.savingsRate (rulesContext f) = Fin x /\
     x == (i - e - m) / i * 100 /\
     one_decimal_of x r) /\
  (exists r y,
     CashflowSummary.runwayMonths (cashflow (getDashboardData f)) = Fin r /\
     Rules.runwayMonths (rulesContext f) = Fin y /\
     y == Networth.liquidAssets (netWorth (getDashboardData f)) / (e + m) /\
     one_decimal_of y r).
Proof.
  intros Hi He Hm Hipos Hburn.
  cbn [cashflow netWorth getDashboardData].
  unfold cashflowSummary, CashflowSummary.calculateCashflowSummary.
  rewrite total_emi_items, Hm.
  cbn [CashflowSummary.savingsRate CashflowSummary.runwayMonths].
  unfold CashflowSummary.calculateTotalIncome, CashflowSummary.calculateTotalExpenses.
  cbn [List.filter CashflowSummary.category String.eqb Ascii.eqb Bool.eqb negb fold_left
       CashflowSummary.income_amountMonthly CashflowSummary.amountMonthly].
  rewrite Hi, He.
  set (L := Networth.liquidAssets (netWorthSummary f)).
  unfold rulesContext, Rules.buildRulesContext.
  cbn [Rules.savingsRate Rules.runwayMonths Rules.income Rules.expenses Rules.emi
       Rules.d_liquidAssets].
  rewrite Hi, He, Hm. fold L.
  assert (Ei : Qeq_bool (0 + i) 0 = false).
  { destruct (Qeq_bool (0 + i) 0) eqn:E; [|reflexivity].
    apply Qeq_bool_iff in E. lra. }
  assert (Ei' : Qeq_bool i 0 = false).
  { destruct (Qeq_bool i 0) eqn:E; [|reflexivity]. apply Qeq_bool_iff in E. lra. }
  assert (Eb : Qeq_bool (0 + e + m) 0 = false).
  { destruct (Qeq_bool (0 + e + m) 0) eqn:E; [|reflexivity].
    apply Qeq_bool_iff in E. lra. }
  assert (Eb' : Qeq_bool (e + m) 0 = false).
  { destruct (Qeq_bool (e + m) 0) eqn:E; [|reflexivity].
    apply Qeq_bool_iff in E. lra. }
  split.
  - unfold Cashflow.calculateSavingsRate, Cashflow.calculateFreeCashflow.
    cbn [sub add neg eq div mul gt lt]. rewrite Ei, Ei'.
    destruct (Qlt_le_dec 0 i) as [_|]; [|lra].
    destruct (CashflowFacts.round_one_decimal
                ((0 + i + - (0 + e) + - m) / (0 + i) * 100)) as (r & Hr & Hdec).
    cbn [mul] in Hr. exists r. eexists. split; [exact Hr|].
    split; [reflexivity|]. split.
    + field. lra.
    + eapply one_decimal_of_eq; [|exact Hdec]. field. lra.
  - unfold Cashflow.calculateRunway.
    cbn [sub add neg eq div mul gt lt]. rewrite Eb, Eb'.
    destruct (Qlt_le_dec 0 (e + m)) as [_|]; [|lra].
    destruct (CashflowFacts.round_one_decimal (L / (0 + e + m))) as (r & Hr & Hdec).
    cbn [mul] in Hr. exists r. eexists. split; [exact Hr|].
    split; [reflexivity|]. split.
    + reflexivity.
    + eapply one_decimal_of_eq; [|exact Hdec]. field. lra.
Qed.

Lemma summary_rounds_what_rules_use_witness :
  (exists r x,
     CashflowSummary.savingsRate
       (cashflow (getDashboardData DashboardExamples.household)) = Fin r /\
     Rules.savingsRate (rulesContext DashboardExamples.household) = Fin x /\
     x == (1000 - 600 - 100) / 1000 * 100 /\
     one_decimal_of x r) /\
  (exists r y,
     CashflowSummary.runwayMonths
       (cashflow (getDashboardData DashboardExamples.household)) = Fin r /\
     Rules.runwayMonths (rulesContext DashboardExamples.household) = Fin y /\
     y == Networth.liquidAssets
            (netWorth (getDashboardData DashboardExamples.household))
          / (600 + 100) /\
     one_decimal_of y r).
Proof.
  apply (summary_rounds_what_rules_use DashboardExamples.household 1000 600 100);
    vm_compute; reflexivity.
Defined.

End DashboardFacts.
